(** * Cost-analytics dashboard: column detection, filtering, date bucketing
      and aggregation

    A shallow embedding of the data-transform code of the dashboard
    components ([src/components/xCostAnalyticsApp.tsx] and its two sibling
    variants), followed by the properties stated about them.

    Conventions of the embedding.
    - A JavaScript string is a [string]; each [ascii] is one code unit in
      the Latin-1 range (code units above 255 are outside the model).
    - A JavaScript number used as an index is a [Z] ([indexOf] yields -1).
    - A metric value is a [jsnum]: an exact rational, one of the two
      infinities, or NaN.  IEEE-754 rounding is not modelled.
    - A spreadsheet cell is a [cell]; a number cell is carried by its
      [String()] rendering, which is all the code ever reads of it.
    - What the host decides (time zone, the engine's own date parser,
      locale collation) is gathered in a [Host] record that the functions
      take as an argument. *)

From Stdlib Require Import ZArith List String Ascii Bool Lia.
From Stdlib Require Import QArith Qcanon Qround.
From Stdlib Require Import Sorting.Sorted Sorting.Permutation.
Import ListNotations.

Local Open Scope string_scope.
Local Open Scope Z_scope.

(* ================================================================== *)
(** * JavaScript strings *)
(* ================================================================== *)

Module JsString.

Definition code (c : ascii) : Z := Z.of_N (N_of_ascii c).

Definition chr (z : Z) : ascii := ascii_of_N (Z.to_N z).

(** White space and line terminators stripped by [String.prototype.trim]
    (those below U+0100): TAB, LF, VT, FF, CR, SP, NBSP. *)
Definition isWhiteSpace (c : ascii) : bool :=
  let n := code c in
  ((9 <=? n) && (n <=? 13)) || (n =? 32) || (n =? 160).

Definition isDigit (c : ascii) : bool :=
  let n := code c in (48 <=? n) && (n <=? 57).

Definition isAlpha (c : ascii) : bool :=
  let n := code c in
  ((65 <=? n) && (n <=? 90)) || ((97 <=? n) && (n <=? 122)).

Definition digitVal (c : ascii) : Z := code c - 48.

Fixpoint trimStart (s : string) : string :=
  match s with
  | String c t => if isWhiteSpace c then trimStart t else s
  | EmptyString => EmptyString
  end.

(** [trimEnd] drops a character when it is white space and everything
    after it has already been dropped. *)
Fixpoint trimEnd (s : string) : string :=
  match s with
  | EmptyString => EmptyString
  | String c t =>
      match trimEnd t with
      | EmptyString => if isWhiteSpace c then EmptyString else String c EmptyString
      | t' => String c t'
      end
  end.

Definition trim (s : string) : string := trimEnd (trimStart s).

(** [String.prototype.toLowerCase] on Latin-1: A-Z, and the accented
    capitals U+00C0..U+00DE except the multiplication sign U+00D7. *)
Definition lowerChar (c : ascii) : ascii :=
  let n := code c in
  if ((65 <=? n) && (n <=? 90))
     || ((192 <=? n) && (n <=? 222) && negb (n =? 215))
  then chr (n + 32) else c.

Fixpoint toLowerCase (s : string) : string :=
  match s with
  | EmptyString => EmptyString
  | String c t => String (lowerChar c) (toLowerCase t)
  end.

(** [s.includes(needle)] *)
Fixpoint includes (s needle : string) : bool :=
  if String.prefix needle s then true
  else match s with
       | EmptyString => false
       | String _ t => includes t needle
       end.

(** [s.padStart(n, "0")] *)
Definition padStart0 (n : nat) (s : string) : string :=
  Nat.iter (n - String.length s) (String "0"%char) s.

Fixpoint allb (p : ascii -> bool) (s : string) : bool :=
  match s with
  | EmptyString => true
  | String c t => p c && allb p t
  end.

(** Longest prefix of characters satisfying [p], and the rest. *)
Fixpoint span (p : ascii -> bool) (s : string) : string * string :=
  match s with
  | String c t =>
      if p c then let (a, b) := span p t in (String c a, b)
      else (EmptyString, s)
  | EmptyString => (EmptyString, EmptyString)
  end.

(** At most [n] leading digits, and the rest: the greedy match of
    [\d{1,n}]. *)
Fixpoint takeDigits (n : nat) (s : string) : string * string :=
  match n, s with
  | S k, String c t =>
      if isDigit c then let (a, b) := takeDigits k t in (String c a, b)
      else (EmptyString, s)
  | _, _ => (EmptyString, s)
  end.

(** [s.replace(/,/g, "")] *)
Fixpoint removeCommas (s : string) : string :=
  match s with
  | EmptyString => EmptyString
  | String c t =>
      if code c =? 44 then removeCommas t else String c (removeCommas t)
  end.

(** Value of a string of decimal digits, most significant first. *)
Definition digitsVal (s : string) : Z :=
  (fix go (acc : Z) (s : string) : Z :=
     match s with
     | EmptyString => acc
     | String c t => go (10 * acc + digitVal c) t
     end) 0 s.

(** Decimal rendering of an integer-valued number, as [String(n)]. *)
Fixpoint posDigits (fuel : nat) (n : Z) (acc : string) : string :=
  match fuel with
  | O => acc
  | S f =>
      let acc' := String (chr (48 + n mod 10)) acc in
      if n <? 10 then acc' else posDigits f (n / 10) acc'
  end.

Definition ofZ (n : Z) : string :=
  if n <? 0 then String "-"%char (posDigits (Z.to_nat (Z.log2 (- n)) + 1) (- n) "")
  else posDigits (Z.to_nat (Z.log2 n) + 1) n "".

(** [parts.join(sep)] *)
Fixpoint join (sep : string) (parts : list string) : string :=
  match parts with
  | [] => ""
  | [p] => p
  | p :: rest => p ++ sep ++ join sep rest
  end.

End JsString.

(* ================================================================== *)
(** * JavaScript numbers *)
(* ================================================================== *)

Module JsNumber.
Import JsString.

(** A number: an exact rational, an infinity, or NaN. *)
Inductive jsnum : Type :=
| Fin (q : Qc)
| PInf
| NInf
| NaN.

Definition zero : jsnum := Fin (Q2Qc 0).
Definition one : jsnum := Fin (Q2Qc 1).
Definition ofInt (z : Z) : jsnum := Fin (Q2Qc (inject_Z z)).

(** [a + b] *)
Definition add (a b : jsnum) : jsnum :=
  match a, b with
  | NaN, _ | _, NaN => NaN
  | PInf, NInf | NInf, PInf => NaN
  | PInf, _ | _, PInf => PInf
  | NInf, _ | _, NInf => NInf
  | Fin x, Fin y => Fin (x + y)%Qc
  end.

(** [a / n] for a row count [n]; only ever called with [n] positive. *)
Definition divCount (a : jsnum) (n : Z) : jsnum :=
  match a with
  | Fin x => Fin (x / Q2Qc (inject_Z n))%Qc
  | other => other
  end.

(** [a <= b]; false as soon as one side is NaN. *)
Definition le (a b : jsnum) : Prop :=
  match a, b with
  | NaN, _ | _, NaN => False
  | NInf, _ => True
  | _, PInf => True
  | Fin x, Fin y => (x <= y)%Qc
  | _, _ => False
  end.

Definition isNaN (a : jsnum) : bool :=
  match a with NaN => true | _ => false end.

Definition neg (a : jsnum) : jsnum :=
  match a with
  | Fin x => Fin (- x)%Qc
  | PInf => NInf
  | NInf => PInf
  | NaN => NaN
  end.

(** [m * 10^e] *)
Definition decimal (m e : Z) : jsnum :=
  Fin (Q2Qc (inject_Z m * Qpower (inject_Z 10) e)).

Definition isSign (c : ascii) : bool :=
  (code c =? 43) || (code c =? 45).

Definition isExpMark (c : ascii) : bool :=
  (code c =? 101) || (code c =? 69).

(** Splits an optional sign off the front: [(negative, rest)]. *)
Definition takeSign (s : string) : bool * string :=
  match s with
  | String c t => if isSign c then (code c =? 45, t) else (false, s)
  | EmptyString => (false, s)
  end.

(** An optional fraction [. digits]: the digits and what follows. *)
Definition takeFraction (s : string) : string * string :=
  match s with
  | String c t => if code c =? 46 then span isDigit t else ("", s)
  | EmptyString => ("", s)
  end.

(** An optional exponent part [e|E [+|-] digits]: its value and what
    follows; an incomplete exponent is not consumed. *)
Definition takeExponent (s : string) : Z * string :=
  match s with
  | String c t =>
      if isExpMark c then
        let (ng, t1) := takeSign t in
        let (ds, t2) := span isDigit t1 in
        match ds with
        | EmptyString => (0, s)
        | _ => ((if ng then - digitsVal ds else digitsVal ds), t2)
        end
      else (0, s)
  | EmptyString => (0, s)
  end.

(** The longest prefix that is a [StrUnsignedDecimalLiteral]: its value
    and the unread rest; [None] when no prefix is one. *)
Definition unsignedDecimal (s : string) : option (jsnum * string) :=
  if String.prefix "Infinity" s
  then Some (PInf, String.substring 8 (String.length s - 8) s)
  else
    let (ip, r1) := span isDigit s in
    let (fp, r2) := takeFraction r1 in
    match ip ++ fp with
    | EmptyString => None
    | ds =>
        let (e, r3) := takeExponent r2 in
        Some (decimal (digitsVal ds) (e - Z.of_nat (String.length fp)), r3)
    end.

(** [parseFloat(s)]: leading white space is skipped and trailing
    characters after the literal are ignored. *)
Definition parseFloat (s : string) : jsnum :=
  let (ng, r) := takeSign (trimStart s) in
  match unsignedDecimal r with
  | Some (v, _) => if ng then neg v else v
  | None => NaN
  end.

Definition isHexDigit (c : ascii) : bool :=
  let n := code c in
  isDigit c || ((65 <=? n) && (n <=? 70)) || ((97 <=? n) && (n <=? 102)).

Definition isOctDigit (c : ascii) : bool :=
  let n := code c in (48 <=? n) && (n <=? 55).

Definition isBinDigit (c : ascii) : bool :=
  let n := code c in (48 <=? n) && (n <=? 49).

(** A [NonDecimalIntegerLiteral] ([0x..], [0o..], [0b..]) taking the
    whole string. *)
Definition isNonDecimalLiteral (s : string) : bool :=
  match s with
  | String z (String k ds) =>
      (code z =? 48) && negb (String.eqb ds "") &&
      (if (code k =? 120) || (code k =? 88) then allb isHexDigit ds
       else if (code k =? 111) || (code k =? 79) then allb isOctDigit ds
       else if (code k =? 98) || (code k =? 66) then allb isBinDigit ds
       else false)
  | _ => false
  end.

(** [Number.isNaN(Number(s))]: the trimmed string is neither empty, nor
    a non-decimal integer literal, nor a signed decimal literal taking
    the whole string. *)
Definition numberIsNaN (s : string) : bool :=
  let t := trim s in
  if String.eqb t "" then false
  else if isNonDecimalLiteral t then false
  else
    let (_, r) := takeSign t in
    match unsignedDecimal r with
    | Some (_, EmptyString) => false
    | _ => true
    end.

End JsNumber.

(* ================================================================== *)
(** * The host and JavaScript dates *)
(* ================================================================== *)

(** What the code leaves to the runtime.
    - [tzOffset]: local time minus UTC, in minutes (constant: a zone
      without daylight-saving transitions).
    - [hostDateParse]: the engine's own heuristics for a date string that
      is not in the ECMAScript date-only format; milliseconds since the
      epoch, [None] for NaN.
    - [localeCompare]: [a.localeCompare(b)], the locale's collation. *)
Record Host : Type := mkHost {
  tzOffset : Z;
  hostDateParse : string -> option Z;
  localeCompare : string -> string -> comparison
}.

Module JsDate.
Import JsString.

Definition msPerDay : Z := 86400000.
Definition msPerMinute : Z := 60000.

(** Day number (days since 1970-01-01) of a proleptic Gregorian date,
    [m] in 1..12. *)
Definition daysFromCivil (y m d : Z) : Z :=
  let y' := if m <=? 2 then y - 1 else y in
  let era := y' / 400 in
  let yoe := y' - era * 400 in
  let mp := if 2 <? m then m - 3 else m + 9 in
  let doy := (153 * mp + 2) / 5 + d - 1 in
  let doe := yoe * 365 + yoe / 4 - yoe / 100 + doy in
  era * 146097 + doe - 719468.

(** Year, month (1..12) and day of month of a day number. *)
Definition civilFromDays (z : Z) : Z * Z * Z :=
  let z' := z + 719468 in
  let era := z' / 146097 in
  let doe := z' - era * 146097 in
  let yoe := (doe - doe / 1460 + doe / 36524 - doe / 146096) / 365 in
  let doy := doe - (365 * yoe + yoe / 4 - yoe / 100) in
  let mp := (5 * doy + 2) / 153 in
  let d := doy - (153 * mp + 2) / 5 + 1 in
  let m := if mp <? 10 then mp + 3 else mp - 9 in
  let y := yoe + era * 400 in
  ((if m <=? 2 then y + 1 else y), m, d).

Definition isLeap (y : Z) : bool :=
  ((y mod 4 =? 0) && negb (y mod 100 =? 0)) || (y mod 400 =? 0).

Definition daysInMonth (y m : Z) : Z :=
  if m =? 2 then (if isLeap y then 29 else 28)
  else if (m =? 4) || (m =? 6) || (m =? 9) || (m =? 11) then 30
  else 31.

(** [MakeDay(year, month, date)] with [month] counted from 0 and any
    overflow of month or date carried over. *)
Definition MakeDay (year month date : Z) : Z :=
  let ym := year + month / 12 in
  let mn := month mod 12 in
  daysFromCivil ym (mn + 1) 1 + date - 1.

(** [TimeClip] *)
Definition TimeClip (t : Z) : option Z :=
  if Z.abs t <=? 8640000000000000 then Some t else None.

(** A [Date] object: its time value, [None] for an invalid date. *)
Definition Date : Type := option Z.

Definition invalidDate : Date := None.

Definition LocalTime (h : Host) (t : Z) : Z := t + tzOffset h * msPerMinute.
Definition UTC (h : Host) (t : Z) : Z := t - tzOffset h * msPerMinute.

(** [new Date(year, monthIndex, day)]: the fields are local time, and a
    year 0..99 means 1900..1999. *)
Definition newDateYMD (h : Host) (year monthIndex day : Z) : Date :=
  let yr := if (0 <=? year) && (year <=? 99) then 1900 + year else year in
  TimeClip (UTC h (MakeDay yr monthIndex day * msPerDay)).

(** Four digits exactly, as a number and the rest. *)
Definition take4Digits (s : string) : option (Z * string) :=
  match s with
  | String a (String b (String c (String d r))) =>
      if isDigit a && isDigit b && isDigit c && isDigit d
      then Some (digitsVal (String a (String b (String c (String d "")))), r)
      else None
  | _ => None
  end.

(** A hyphen and two digits exactly, as a number and the rest. *)
Definition takeDash2Digits (s : string) : option (Z * string) :=
  match s with
  | String h (String a (String b r)) =>
      if (code h =? 45) && isDigit a && isDigit b
      then Some (digitsVal (String a (String b "")), r)
      else None
  | _ => None
  end.

(** The ECMAScript date-only forms [YYYY], [YYYY-MM] and [YYYY-MM-DD]
    with every field in range: year, month, day. *)
Definition parseIsoDateOnly (s : string) : option (Z * Z * Z) :=
  match take4Digits s with
  | None => None
  | Some (y, EmptyString) => Some (y, 1, 1)
  | Some (y, r1) =>
      match takeDash2Digits r1 with
      | None => None
      | Some (m, r2) =>
          if (1 <=? m) && (m <=? 12) then
            match r2 with
            | EmptyString => Some (y, m, 1)
            | _ =>
                match takeDash2Digits r2 with
                | Some (d, EmptyString) =>
                    if (1 <=? d) && (d <=? daysInMonth y m)
                    then Some (y, m, d) else None
                | _ => None
                end
            end
          else None
      end
  end.

(** [new Date(s)]: a date-only form is UTC midnight of that day; any
    other string is left to the engine. *)
Definition newDateString (h : Host) (s : string) : Date :=
  match parseIsoDateOnly s with
  | Some (y, m, d) => TimeClip (daysFromCivil y m d * msPerDay)
  | None => hostDateParse h s
  end.

(** Local calendar fields of a time value. *)
Definition localCivil (h : Host) (t : Z) : Z * Z * Z :=
  civilFromDays (LocalTime h t / msPerDay).

Definition getFullYear (h : Host) (t : Z) : Z :=
  let '(y, _, _) := localCivil h t in y.

(** [getMonth()]: counted from 0. *)
Definition getMonth (h : Host) (t : Z) : Z :=
  let '(_, m, _) := localCivil h t in m - 1.

Definition getDate (h : Host) (t : Z) : Z :=
  let '(_, _, d) := localCivil h t in d.

End JsDate.

(* ================================================================== *)
(** * Cells, rows and grids *)
(* ================================================================== *)

(** What [XLSX.utils.sheet_to_json(ws, {header: 1})] puts in a row: a
    hole where the sheet has no cell (it reads as [undefined] and array
    iteration skips it), [null], a string, a number or a boolean.  A
    number is carried by its [String()] rendering. *)
Inductive cell : Type :=
| CHole
| CNull
| CStr (s : string)
| CNum (repr : string)
| CBool (b : bool).

Definition RawRow : Type := list cell.

(** [v == null] *)
Definition isNullish (v : cell) : bool :=
  match v with CHole | CNull => true | _ => false end.

(** [String(v)] *)
Definition toStr (v : cell) : string :=
  match v with
  | CHole => "undefined"
  | CNull => "null"
  | CStr s => s
  | CNum r => r
  | CBool true => "true"
  | CBool false => "false"
  end.

(** [String(v ?? "")] *)
Definition strOrEmpty (v : cell) : string :=
  if isNullish v then "" else toStr v.

(** [row[i]]: [undefined] outside the array. *)
Definition getCell (row : RawRow) (i : Z) : cell :=
  if i <? 0 then CHole else nth (Z.to_nat i) row CHole.

(** [row.every((c) => typeof c === "string")]: holes are not visited. *)
Definition everyString (row : RawRow) : bool :=
  forallb (fun c => match c with CHole | CStr _ => true | _ => false end) row.

(** A header row: the first row of the sheet when [everyString] holds of
    it, so each entry is a string or a hole. *)
Definition Header : Type := list (option string).

Definition headerOfRow (row : RawRow) : Header :=
  map (fun c => match c with CStr s => Some s | _ => None end) row.

(* ================================================================== *)
(** * Plain objects used as maps *)
(* ================================================================== *)

(** A plain object: its own properties in the order they were created.
    What [Object.prototype] adds to every such object is kept apart in
    [prototypeNames]. *)
Module JsObject.
Import JsString.

Section Properties.
Context {V : Type}.

(** The own property [k], if there is one. *)
Fixpoint getOwn (k : string) (o : list (string * V)) : option V :=
  match o with
  | [] => None
  | (k', v) :: rest => if String.eqb k' k then Some v else getOwn k rest
  end.

(** [o[k] = v] for a name that is not [__proto__]: an existing property
    keeps its place, a new one is created last. *)
Fixpoint setOwn (k : string) (v : V) (o : list (string * V)) : list (string * V) :=
  match o with
  | [] => [(k, v)]
  | (k', v') :: rest =>
      if String.eqb k' k then (k, v) :: rest else (k', v') :: setOwn k v rest
  end.

(** [delete o[k]] *)
Definition deleteOwn (k : string) (o : list (string * V)) : list (string * V) :=
  filter (fun e => negb (String.eqb (fst e) k)) o.

Definition hasOwn (k : string) (o : list (string * V)) : bool :=
  match getOwn k o with Some _ => true | None => false end.

End Properties.

(** The members every plain object inherits. *)
Definition prototypeNames : list string :=
  ["constructor"; "toString"; "toLocaleString"; "valueOf"; "hasOwnProperty";
   "isPrototypeOf"; "propertyIsEnumerable"; "__proto__"; "__defineGetter__";
   "__defineSetter__"; "__lookupGetter__"; "__lookupSetter__"].

Definition inPrototype (k : string) : bool :=
  existsb (String.eqb k) prototypeNames.

(** [k in o] *)
Definition hasProperty {V : Type} (k : string) (o : list (string * V)) : bool :=
  hasOwn k o || inPrototype k.

(** An array index: the canonical decimal form of an integer from 0 to
    2^32 - 2. *)
Definition isArrayIndex (k : string) : bool :=
  match k with
  | EmptyString => false
  | String c rest =>
      allb isDigit k
      && ((code c =? 48) && String.eqb rest "" || negb (code c =? 48))
      && (String.length k <=? 10)%nat
      && (digitsVal k <=? 4294967294)
  end.

(** Insertion into a list of array indices kept in ascending order. *)
Fixpoint insertIndex (k : string) (l : list string) : list string :=
  match l with
  | [] => [k]
  | k' :: rest =>
      if digitsVal k <? digitsVal k' then k :: l else k' :: insertIndex k rest
  end.

(** [Object.keys(o)]: the array indices in ascending order, then the
    other names in creation order. *)
Definition keys {V : Type} (o : list (string * V)) : list string :=
  let names := map fst o in
  fold_left (fun acc k => insertIndex k acc) (filter isArrayIndex names) []
  ++ filter (fun k => negb (isArrayIndex k)) names.

End JsObject.

(* ================================================================== *)
(** * The multi-metric dashboard *)
(* ================================================================== *)

(** The component with filter rules, selectable metrics, dimensions and
    date formats: [matchesRow], [parseFloatSafe], [buildGroupKey],
    [formatDateBucket], [parseDateWithFormat], the pie and area
    computations and the file loader. *)
Module Dashboard.
Import JsString JsNumber.

(* ---------------------------------------------------------------- *)
(** ** Filtering *)

Inductive FilterOp : Type := contains | equals | notContains | notEquals.

Record FilterRule : Type := mkRule {
  colIdx : Z;
  op : FilterOp;
  value : string
}.

(** [matchesRow]: the loop leaves with [false] at the first rule the
    row fails; [!rules.length] is the empty-list case. *)
Fixpoint matchesRow (row : RawRow) (rules : list FilterRule) : bool :=
  match rules with
  | [] => true
  | r :: rest =>
      let v := strOrEmpty (getCell row (colIdx r)) in
      let needle := value r in
      match op r with
      | contains =>
          if negb (includes (toLowerCase v) (toLowerCase needle)) then false
          else matchesRow row rest
      | equals =>
          if negb (String.eqb v needle) then false else matchesRow row rest
      | notContains =>
          if includes (toLowerCase v) (toLowerCase needle) then false
          else matchesRow row rest
      | notEquals =>
          if String.eqb v needle then false else matchesRow row rest
      end
  end.

(* ---------------------------------------------------------------- *)
(** ** Utilities *)

(** [createDefaultHeader]: [Column 0], [Column 1], ... *)
Definition createDefaultHeader (rows : list RawRow) : Header :=
  let maxCols := match rows with r0 :: _ => List.length r0 | [] => 3%nat end in
  map (fun i => Some ("Column " ++ ofZ (Z.of_nat i))) (seq 0 maxCols).

Definition parseFloatSafe (v : cell) : jsnum :=
  let n := parseFloat (removeCommas (strOrEmpty v)) in
  if isNaN n then zero else n.

(** The separator of [join(" • ")].  The bullet U+2022 lies outside
    Latin-1; it stands here as the three bytes of its UTF-8 form. *)
Definition groupSeparator : string := " • ".

Definition buildGroupKey (row : RawRow) (dimIdxs : list Z) : string :=
  match dimIdxs with
  | [] => "All"
  | _ =>
      join groupSeparator
        (map (fun idx =>
                match getCell row idx with
                | CHole | CNull => "(empty)"
                | CStr EmptyString => "(empty)"
                | val => toStr val
                end) dimIdxs)
  end.

(* ---------------------------------------------------------------- *)
(** ** Date bucketing *)

Inductive DateFormat : Type :=
| auto | YYYY_MM_DD | MM_DD_YYYY | DD_MM_YYYY | YYYY_MM_DD_slash | DD_MMM_YYYY.

(** One character [c] exactly. *)
Definition takeChar (p : ascii -> bool) (s : string) : option string :=
  match s with
  | String c t => if p c then Some t else None
  | EmptyString => None
  end.

Definition isHyphen (c : ascii) : bool := code c =? 45.
Definition isSlash (c : ascii) : bool := code c =? 47.

(** [^(\d{4})SEP(\d{1,2})SEP(\d{1,2})$] *)
Definition matchYMD (sep : ascii -> bool) (s : string)
  : option (string * string * string) :=
  let (y, r1) := takeDigits 4 s in
  if negb (String.length y =? 4)%nat then None else
  match takeChar sep r1 with
  | None => None
  | Some r2 =>
      let (m, r3) := takeDigits 2 r2 in
      if (String.length m =? 0)%nat then None else
      match takeChar sep r3 with
      | None => None
      | Some r4 =>
          let (d, r5) := takeDigits 2 r4 in
          if (String.length d =? 0)%nat then None else
          match r5 with
          | EmptyString => Some (y, m, d)
          | _ => None
          end
      end
  end.

(** [^(\d{1,2})\/(\d{1,2})\/(\d{4})$] *)
Definition matchSlashed (s : string) : option (string * string * string) :=
  let (a, r1) := takeDigits 2 s in
  if (String.length a =? 0)%nat then None else
  match takeChar isSlash r1 with
  | None => None
  | Some r2 =>
      let (b, r3) := takeDigits 2 r2 in
      if (String.length b =? 0)%nat then None else
      match takeChar isSlash r3 with
      | None => None
      | Some r4 =>
          let (y, r5) := takeDigits 4 r4 in
          if negb (String.length y =? 4)%nat then None else
          match r5 with
          | EmptyString => Some (a, b, y)
          | _ => None
          end
      end
  end.

(** At most [n] leading letters, and the rest. *)
Fixpoint takeAlpha (n : nat) (s : string) : string * string :=
  match n, s with
  | S k, String c t =>
      if isAlpha c then let (a, b) := takeAlpha k t in (String c a, b)
      else (EmptyString, s)
  | _, _ => (EmptyString, s)
  end.

(** [^(\d{1,2})-([A-Za-z]{3})-(\d{4})$] *)
Definition matchDMonY (s : string) : option (string * string * string) :=
  let (d, r1) := takeDigits 2 s in
  if (String.length d =? 0)%nat then None else
  match takeChar isHyphen r1 with
  | None => None
  | Some r2 =>
      let (mon, r3) := takeAlpha 3 r2 in
      if negb (String.length mon =? 3)%nat then None else
      match takeChar isHyphen r3 with
      | None => None
      | Some r4 =>
          let (y, r5) := takeDigits 4 r4 in
          if negb (String.length y =? 4)%nat then None else
          match r5 with
          | EmptyString => Some (d, mon, y)
          | _ => None
          end
      end
  end.

Definition months : list (string * Z) :=
  [("Jan", 0); ("Feb", 1); ("Mar", 2); ("Apr", 3); ("May", 4); ("Jun", 5);
   ("Jul", 6); ("Aug", 7); ("Sep", 8); ("Oct", 9); ("Nov", 10); ("Dec", 11)].

Fixpoint lookupMonth (name : string) (tbl : list (string * Z)) : option Z :=
  match tbl with
  | [] => None
  | (k, v) :: rest => if String.eqb k name then Some v else lookupMonth name rest
  end.

Definition parseDateWithFormat (h : Host) (s : string) (format : DateFormat)
  : JsDate.Date :=
  match format with
  | auto => JsDate.newDateString h s
  | YYYY_MM_DD =>
      match matchYMD isHyphen s with
      | None => JsDate.invalidDate
      | Some (y, m, d) =>
          JsDate.newDateYMD h (digitsVal y) (digitsVal m - 1) (digitsVal d)
      end
  | MM_DD_YYYY =>
      match matchSlashed s with
      | None => JsDate.invalidDate
      | Some (m1, m2, m3) =>
          JsDate.newDateYMD h (digitsVal m3) (digitsVal m1 - 1) (digitsVal m2)
      end
  | DD_MM_YYYY =>
      match matchSlashed s with
      | None => JsDate.invalidDate
      | Some (m1, m2, m3) =>
          JsDate.newDateYMD h (digitsVal m3) (digitsVal m2 - 1) (digitsVal m1)
      end
  | YYYY_MM_DD_slash =>
      match matchYMD isSlash s with
      | None => JsDate.invalidDate
      | Some (y, m, d) =>
          JsDate.newDateYMD h (digitsVal y) (digitsVal m - 1) (digitsVal d)
      end
  | DD_MMM_YYYY =>
      match matchDMonY s with
      | None => JsDate.invalidDate
      | Some (d, name, y) =>
          match lookupMonth name months with
          | None => JsDate.invalidDate
          | Some mon => JsDate.newDateYMD h (digitsVal y) mon (digitsVal d)
          end
      end
  end.

(** [s.match(/^(\d{4})[-/](\d{1,2})/)]: the two captures. *)
Definition matchYearMonthPrefix (s : string) : option (string * string) :=
  let (y, r1) := takeDigits 4 s in
  if negb (String.length y =? 4)%nat then None else
  match takeChar (fun c => isHyphen c || isSlash c) r1 with
  | None => None
  | Some r2 =>
      let (m, _) := takeDigits 2 r2 in
      if (String.length m =? 0)%nat then None else Some (y, m)
  end.

Definition formatDateBucket (h : Host) (value : cell) (monthBucket : bool)
           (format : DateFormat) : string :=
  let s := trim (strOrEmpty value) in
  if String.eqb s "" then s else
  match parseDateWithFormat h s format with
  | None =>
      match matchYearMonthPrefix s with
      | Some (y, m) => y ++ "-" ++ padStart0 2 m
      | None => s
      end
  | Some t =>
      let y := JsDate.getFullYear h t in
      let mm := padStart0 2 (ofZ (JsDate.getMonth h t + 1)) in
      if negb monthBucket then
        let dd := padStart0 2 (ofZ (JsDate.getDate h t)) in
        ofZ y ++ "-" ++ mm ++ "-" ++ dd
      else ofZ y ++ "-" ++ mm
  end.

(* ---------------------------------------------------------------- *)
(** ** Aggregation *)

Inductive Aggregation : Type := sum | avg | count.

(** The accumulator [{ sum, count }] kept per group. *)
Record Acc : Type := mkAcc { accSum : jsnum; accCount : Z }.

(** A [Map<string, Acc>]: entries in insertion order, keys distinct. *)
Definition Totals : Type := list (string * Acc).

Fixpoint mapGet (k : string) (m : Totals) : option Acc :=
  match m with
  | [] => None
  | (k', v) :: rest => if String.eqb k' k then Some v else mapGet k rest
  end.

(** [m.set(k, v)]: an existing key keeps its place, a new one goes last. *)
Fixpoint mapSet (k : string) (v : Acc) (m : Totals) : Totals :=
  match m with
  | [] => [(k, v)]
  | (k', v') :: rest =>
      if String.eqb k' k then (k, v) :: rest else (k', v') :: mapSet k v rest
  end.

(** [aggregation === "count" ? 1 : parseFloatSafe(row[metricIdx])] *)
Definition rowValue (aggregation : Aggregation) (metricIdx : Z) (row : RawRow)
  : jsnum :=
  match aggregation with
  | count => one
  | _ => parseFloatSafe (getCell row metricIdx)
  end.

(** One turn of the accumulation loop for a row whose group is [key]. *)
Definition accumulate (key : string) (val : jsnum) (totals : Totals) : Totals :=
  let prev := match mapGet key totals with
              | Some a => a
              | None => mkAcc zero 0
              end in
  mapSet key (mkAcc (add (accSum prev) val) (accCount prev + 1)) totals.

(** [aggregation === "sum" ? sum : aggregation === "count" ? count
     : count ? sum / count : 0] *)
Definition reduce (aggregation : Aggregation) (a : Acc) : jsnum :=
  match aggregation with
  | sum => accSum a
  | count => ofInt (accCount a)
  | avg => if accCount a =? 0 then zero else divCount (accSum a) (accCount a)
  end.

(** The loop shared by the pie, bar and area computations: rows that
    fail the filter are skipped, the others are accumulated under
    [keyOf row]. *)
Definition groupTotals (keyOf : RawRow -> string) (aggregation : Aggregation)
           (metricIdx : Z) (filterRules : list FilterRule)
           (rawRows : list RawRow) : Totals :=
  fold_left
    (fun totals row =>
       if negb (matchesRow row filterRules) then totals
       else accumulate (keyOf row) (rowValue aggregation metricIdx row) totals)
    rawRows [].

(** [pieData]: one [{ group, value }] per group, in first-seen order. *)
Definition pieData (headerRow : option Header) (rawRows : list RawRow)
           (primaryMetricIdx : option Z) (selectedDims : list Z)
           (aggregation : Aggregation) (filterRules : list FilterRule)
  : list (string * jsnum) :=
  match headerRow, rawRows, primaryMetricIdx with
  | None, _, _ => []
  | _, [], _ => []
  | _, _, None => []
  | Some _, _, Some metricIdx =>
      let keyOf row :=
        match selectedDims with
        | [] => "All"
        | _ => buildGroupKey row selectedDims
        end in
      map (fun e => (fst e, reduce aggregation (snd e)))
          (groupTotals keyOf aggregation metricIdx filterRules rawRows)
  end.

(** [Array.prototype.sort(compare)]: a stable sort; an element is put
    after every element already placed that does not compare greater.
    (For a comparison that is not a consistent ordering the language
    leaves the result to the engine; this is one such result.) *)
Section Sort.
Context {A : Type} (compare : A -> A -> comparison).

Fixpoint insertSorted (x : A) (l : list A) : list A :=
  match l with
  | [] => [x]
  | y :: rest =>
      match compare x y with
      | Lt => x :: l
      | _ => y :: insertSorted x rest
      end
  end.

Definition sortBy (l : list A) : list A :=
  fold_left (fun acc x => insertSorted x acc) l [].
End Sort.

(** The running sum of [dates.map(...)] in the area computation. *)
Fixpoint runningSums (aggregation : Aggregation) (running : jsnum)
         (entries : Totals) : list (string * jsnum) :=
  match entries with
  | [] => []
  | (date, a) :: rest =>
      let running' := add running (reduce aggregation a) in
      (date, running') :: runningSums aggregation running' rest
  end.

(** The per-bucket totals of the area computation, sorted by key. *)
Definition areaBuckets (h : Host) (rawRows : list RawRow) (dateIdx : Z)
           (monthBucket : bool) (dateFormat : DateFormat)
           (metricIdx : Z) (aggregation : Aggregation)
           (filterRules : list FilterRule) : Totals :=
  sortBy (fun a b => localeCompare h (fst a) (fst b))
         (groupTotals
            (fun row => formatDateBucket h (getCell row dateIdx) monthBucket dateFormat)
            aggregation metricIdx filterRules rawRows).

(** [areaData]: one [{ date, cumulative }] per bucket. *)
Definition areaData (h : Host) (headerRow : option Header)
           (rawRows : list RawRow) (dateIdx : option Z)
           (monthBucket : bool) (dateFormat : DateFormat)
           (primaryMetricIdx : option Z) (aggregation : Aggregation)
           (filterRules : list FilterRule) : list (string * jsnum) :=
  match headerRow, rawRows, dateIdx, primaryMetricIdx with
  | None, _, _, _ => []
  | _, [], _, _ => []
  | _, _, None, _ => []
  | _, _, _, None => []
  | Some _, _, Some dIdx, Some metricIdx =>
      runningSums aggregation zero
        (areaBuckets h rawRows dIdx monthBucket dateFormat metricIdx
                     aggregation filterRules)
  end.

(* ---------------------------------------------------------------- *)
(** ** Loading a dropped file *)

(** What reading the dropped file gives: [XLSX.read] or
    [sheet_to_json] throws [err], or the first sheet's rows. *)
Inductive Decode : Type :=
| DecodeFails (err : string)
| DecodeOk (rows : list RawRow).

Record State : Type := mkState {
  rawRows : list RawRow;
  headerRow : option Header;
  metricsIdxs : list Z;
  primaryMetricIdx : option Z;
  aggregation : Aggregation;
  dateIdx : option Z;
  monthBucket : bool;
  dateFormat : DateFormat;
  selectedDims : list Z;
  dimSearch : string;
  topN : Z;
  seriesVisible : list (string * bool);
  filterRules : list FilterRule;
  warnings : list string
}.

Definition initialState : State :=
  mkState [] None [] None sum None true auto [] "" 6 [] [] [].

(** [reader.onload]: the body of the [try], or the [catch]. *)
Definition onLoad (st : State) (file : Decode) : State :=
  match file with
  | DecodeOk rows =>
      let headerIsFirstRow :=
        match rows with r0 :: _ => everyString r0 | [] => false end in
      let header :=
        if headerIsFirstRow then headerOfRow (hd [] rows)
        else createDefaultHeader rows in
      let rows' := if headerIsFirstRow then tl rows else rows in
      mkState rows' (Some header) [] None sum None true auto [] "" 6 []
              (filterRules st) []
  | DecodeFails err =>
      mkState (rawRows st) (headerRow st) (metricsIdxs st)
              (primaryMetricIdx st) (aggregation st) (dateIdx st)
              (monthBucket st) (dateFormat st) (selectedDims st)
              (dimSearch st) (topN st) (seriesVisible st) (filterRules st)
              ["Failed to parse Excel file: " ++ err]
  end.

(** [onDrop]: nothing happens without a file; otherwise the first file
    is read and [onLoad] runs on the outcome. *)
Definition onDrop (st : State) (acceptedFiles : list Decode) : State :=
  match acceptedFiles with
  | [] => st
  | file :: _ => onLoad st file
  end.

(* ---------------------------------------------------------------- *)
(** ** Ranking the columns by how numeric they look *)

(** Whether a cell counts as a hit in [scoreNumericColumn]. *)
Definition numericHit (v : cell) : bool :=
  if isNullish v then false
  else negb (isNaN (parseFloat (removeCommas (toStr v)))).

(** [scoreNumericColumn]: hits among the first 50 rows. *)
Definition scoreNumericColumn (rows : list RawRow) (idx : Z) : Z :=
  Z.of_nat (List.length
              (filter (fun row => numericHit (getCell row idx)) (firstn 50 rows))).

(** One entry of [cols] in [numericCandidates]. *)
Record ColumnInfo : Type := mkColumnInfo {
  colIndex : Z;
  colLabel : string;
  numericScore : Z
}.

(** [headerRow.map((label, idx) => ...)]: holes of the header are not
    visited; [idx] is the position of the first entry. *)
Fixpoint columnInfos (rawRows : list RawRow) (idx : Z) (names : Header)
  : list ColumnInfo :=
  match names with
  | [] => []
  | Some label :: rest =>
      mkColumnInfo idx label (scoreNumericColumn rawRows idx)
      :: columnInfos rawRows (idx + 1) rest
  | None :: rest => columnInfos rawRows (idx + 1) rest
  end.

(** The sign of a comparison function's result. *)
Definition signOf (d : Z) : comparison := Z.compare d 0.

(** [(a, b) => b.numericScore - a.numericScore] *)
Definition byScoreDescending (a b : ColumnInfo) : comparison :=
  signOf (numericScore b - numericScore a).

Definition countHoles (names : Header) : nat :=
  List.length (filter (fun n => match n with None => true | Some _ => false end) names).

(** [numericCandidates]: the column indices by descending score; the
    holes of the header end up as holes at the end ([None]). *)
Definition numericCandidates (headerRow : option Header) (rawRows : list RawRow)
  : list (option Z) :=
  match headerRow, rawRows with
  | None, _ => []
  | _, [] => []
  | Some hdr, _ =>
      map (fun c => Some (colIndex c))
          (sortBy byScoreDescending (columnInfos rawRows 0 hdr))
      ++ repeat None (countHoles hdr)
  end.

(* ---------------------------------------------------------------- *)
(** ** The bar chart *)

(** An entry of [barData]: [{ date, value }] or [{ group, value }]. *)
Inductive BarEntry : Type :=
| BarDate (date : string) (value : jsnum)
| BarGroup (group : string) (value : jsnum).

(** [barData]: totals per date bucket in key order when a date column
    is chosen, the pie totals otherwise. *)
Definition barData (h : Host) (headerRow : option Header) (rawRows : list RawRow)
           (primaryMetricIdx : option Z) (dateIdx : option Z)
           (monthBucket : bool) (dateFormat : DateFormat)
           (aggregation : Aggregation) (selectedDims : list Z)
           (filterRules : list FilterRule) : list BarEntry :=
  match headerRow, rawRows, primaryMetricIdx with
  | None, _, _ => []
  | _, [], _ => []
  | _, _, None => []
  | Some _, _, Some metricIdx =>
      match dateIdx with
      | Some dIdx =>
          map (fun e => BarDate (fst e) (reduce aggregation (snd e)))
              (areaBuckets h rawRows dIdx monthBucket dateFormat metricIdx
                           aggregation filterRules)
      | None =>
          map (fun p => BarGroup (fst p) (snd p))
              (pieData headerRow rawRows primaryMetricIdx selectedDims
                       aggregation filterRules)
      end
  end.

(** [convertBarToLine]: [{ date: b.date ?? String(b.group ?? ""), value }]. *)
Definition convertBarToLine (bars : list BarEntry) : list (string * jsnum) :=
  map (fun b => match b with
                | BarDate d v => (d, v)
                | BarGroup g v => (g, v)
                end) bars.

(* ---------------------------------------------------------------- *)
(** ** Editing the selections *)

(** [addFilterRule] *)
Definition addFilterRule (headerRow : option Header) (prev : list FilterRule)
  : list FilterRule :=
  match headerRow with
  | None => prev
  | Some _ => prev ++ [mkRule 0 contains ""]
  end.

(** [prev.filter((_, idx) => idx !== i)] *)
Fixpoint removeAt {A : Type} (i : nat) (prev : list A) : list A :=
  match prev, i with
  | [], _ => []
  | _ :: rest, O => rest
  | x :: rest, S j => x :: removeAt j rest
  end.

(** [prev.map((x, idx) => (idx === i ? f(x) : x))] *)
Fixpoint updateAt {A : Type} (i : nat) (f : A -> A) (prev : list A) : list A :=
  match prev, i with
  | [], _ => []
  | x :: rest, O => f x :: rest
  | x :: rest, S j => x :: updateAt j f rest
  end.

Definition includesIdx (idx : Z) (l : list Z) : bool := existsb (Z.eqb idx) l.

(** The checkbox of a metric or of a dimension. *)
Definition toggleIdx (idx : Z) (checked : bool) (prev : list Z) : list Z :=
  if checked then prev ++ [idx]
  else filter (fun i => negb (i =? idx)) prev.

(** The primary-metric select: the new primary metric and the new list
    of metrics. *)
Definition selectPrimaryMetric (val : option Z) (metricsIdxs : list Z)
  : option Z * list Z :=
  (val,
   match val with
   | Some v =>
       if includesIdx v metricsIdxs then metricsIdxs else (metricsIdxs ++ [v])%list
   | None => metricsIdxs
   end).

(** The effect that keeps [primaryMetricIdx] in step with the metrics. *)
Definition syncPrimaryMetric (metricsIdxs : list Z) (primaryMetricIdx : option Z)
  : option Z :=
  match metricsIdxs with
  | [] => None
  | first :: _ =>
      match primaryMetricIdx with
      | None => Some first
      | Some p => if includesIdx p metricsIdxs then primaryMetricIdx else Some first
      end
  end.

(** [n || 1] *)
Definition orOne (n : jsnum) : jsnum :=
  match n with
  | NaN => one
  | Fin q => if Qc_eq_dec q (Q2Qc 0) then one else n
  | _ => n
  end.

(** [Math.max(a, b)] *)
Definition mathMax (a b : jsnum) : jsnum :=
  match a, b with
  | NaN, _ | _, NaN => NaN
  | PInf, _ | _, PInf => PInf
  | NInf, x | x, NInf => x
  | Fin x, Fin y => match (x ?= y)%Qc with Lt => Fin y | _ => Fin x end
  end.

(** The value stored by the Top-N input for the number it holds. *)
Definition nextTopN (entered : jsnum) : jsnum := mathMax one (orOne entered).

(* ---------------------------------------------------------------- *)
(** ** Which series are shown *)

(** The record [seriesVisible]; the order of its properties plays no
    role. *)
Definition Visibility : Type := list (string * bool).

Definition inKeys (k : string) (seriesKeys : list string) : bool :=
  existsb (String.eqb k) seriesKeys.

(** [if (!(key in next)) next[key] = true] *)
Definition initSeries (next : Visibility) (key : string) : Visibility :=
  if JsObject.hasProperty key next then next else JsObject.setOwn key true next.

(** The effect run when the series keys change: new keys become
    visible, keys that are gone are deleted. *)
Definition syncSeriesVisible (prev : Visibility) (seriesKeys : list string)
  : Visibility :=
  filter (fun e => inKeys (fst e) seriesKeys)
         (fold_left initSeries seriesKeys prev).

(** The checkbox of a series: [{ ...prev, [key]: checked }]. *)
Definition toggleSeries (key : string) (checked : bool) (prev : Visibility)
  : Visibility :=
  JsObject.setOwn key checked prev.

(** [seriesVisible[key] !== false]: whether the line is drawn. *)
Definition isShown (vis : Visibility) (key : string) : bool :=
  match JsObject.getOwn key vis with
  | Some b => b
  | None => true
  end.

(* ---------------------------------------------------------------- *)
(** ** The series of the line chart *)

(** [(a, b) => b.agg - a.agg], as [sort] reads the number returned:
    NaN counts as 0. *)
Definition byAggDescending (a b : string * jsnum) : comparison :=
  match add (snd b) (neg (snd a)) with
  | Fin q => (q ?= Q2Qc 0)%Qc
  | PInf => Gt
  | NInf => Lt
  | NaN => Eq
  end.

(** How many elements [slice(0, n)] keeps of [len]: [n] is cut to an
    integer towards zero, a negative one counts from the end. *)
Definition sliceEnd (len : nat) (n : jsnum) : nat :=
  match n with
  | Fin q =>
      let k := if Qle_bool 0 q then Qfloor q else Qceiling q in
      if k <? 0 then Z.to_nat (Z.max (Z.of_nat len + k) 0)
      else Nat.min (Z.to_nat k) len
  | PInf => len
  | NInf | NaN => 0%nat
  end.

(** [rankedGroups] in [lineSeriesData], the branch for dimension
    series: the groups by descending value, cut to the first [topN]. *)
Definition rankedGroups (rawRows : list RawRow) (metricIdx : Z)
           (selectedDims : list Z) (aggregation : Aggregation)
           (topN : jsnum) (filterRules : list FilterRule) : list string :=
  let ranked :=
    sortBy byAggDescending
           (map (fun e => (fst e, reduce aggregation (snd e)))
                (groupTotals (fun row => buildGroupKey row selectedDims)
                             aggregation metricIdx filterRules rawRows)) in
  map fst (firstn (sliceEnd (List.length ranked) topN) ranked).

End Dashboard.





(* ================================================================== *)
(** * The three-column component: column detection and loading *)
(* ================================================================== *)

(** [components/xCostAnalyticsApp.tsx]: [detectFromData], the loader and
    the totals by date. *)
Module Classic.
Import JsString JsNumber.

Record Mapping : Type := mkMapping {
  dateIdx : Z;
  costIdx : Z;
  serviceIdx : Z
}.

Record CostData : Type := mkCostData {
  date : string;
  cost : jsnum;
  service : string
}.

(** [headerRow ? headerRow.length : rawRows[0] ? rawRows[0].length : 3] *)
Definition columnCount (headerRow : option Header) (rawRows : list RawRow) : nat :=
  match headerRow with
  | Some hdr => List.length hdr
  | None => match rawRows with r0 :: _ => List.length r0 | [] => 3%nat end
  end.

(** [!Number.isNaN(Date.parse(s))] *)
Definition dateParses (h : Host) (s : string) : bool :=
  match JsDate.newDateString h s with Some _ => true | None => false end.

(** Whether the cell adds one to the date score of its column. *)
Definition looksLikeDate (h : Host) (v : cell) : bool :=
  if isNullish v then false
  else let s := trim (toStr v) in dateParses h s && numberIsNaN s.

(** Whether the cell adds one to the numeric score of its column. *)
Definition looksNumeric (v : cell) : bool :=
  if isNullish v then false
  else negb (numberIsNaN (trim (toStr v))).

(** The score of column [c] after the inner loop over the sampled rows. *)
Definition columnScore (hit : cell -> bool) (sample : list RawRow) (c : nat) : Z :=
  Z.of_nat (List.length (filter (fun row => hit (getCell row (Z.of_nat c))) sample)).

(** [Math.max(...xs)]; [None] stands for the [-Infinity] of no argument. *)
Definition maxOf (xs : list Z) : option Z :=
  match xs with
  | [] => None
  | x :: rest => Some (fold_left Z.max rest x)
  end.

(** [xs.indexOf(x)] *)
Fixpoint indexOf (x : Z) (xs : list Z) : Z :=
  match xs with
  | [] => -1
  | y :: rest =>
      if y =? x then 0
      else let i := indexOf x rest in if i <? 0 then -1 else i + 1
  end.

(** [xs.indexOf(Math.max(...xs))] *)
Definition indexOfMax (xs : list Z) : Z :=
  match maxOf xs with
  | Some m => indexOf m xs
  | None => -1
  end.

(** The loop choosing the service column: the first column that is
    neither [dateIdx] nor [costIdx], and 0 when there is none. *)
Fixpoint firstOther (dateIdx costIdx : Z) (candidates : list nat) : Z :=
  match candidates with
  | [] => 0
  | c :: rest =>
      if negb (Z.of_nat c =? dateIdx) && negb (Z.of_nat c =? costIdx)
      then Z.of_nat c
      else firstOther dateIdx costIdx rest
  end.

Definition detectFromData (h : Host) (headerRow : option Header)
           (rawRows : list RawRow) : Mapping :=
  let cols := columnCount headerRow rawRows in
  let sample := firstn 10 rawRows in
  let dateScores := map (columnScore (looksLikeDate h) sample) (seq 0 cols) in
  let numericScores := map (columnScore looksNumeric sample) (seq 0 cols) in
  let dateIdx := indexOfMax dateScores in
  let costIdx := indexOfMax numericScores in
  let serviceIdx := firstOther dateIdx costIdx (seq 0 cols) in
  mkMapping (if 0 <=? dateIdx then dateIdx else 0)
            (if 0 <=? costIdx then costIdx else 1)
            serviceIdx.

(** The record built from one row under a mapping. *)
Definition parseRow (m : Mapping) (r : RawRow) : CostData :=
  let rc := parseFloat (strOrEmpty (getCell r (costIdx m))) in
  mkCostData (strOrEmpty (getCell r (dateIdx m)))
             (if isNaN rc then zero else rc)
             (strOrEmpty (getCell r (serviceIdx m))).

Inductive Decode : Type :=
| DecodeFails (err : string)
| DecodeOk (rows : list RawRow).

Record State : Type := mkState {
  rawRows : list RawRow;
  headerRow : option Header;
  mapping : option Mapping;
  data : list CostData;
  previewRows : list CostData;
  warnings : list string
}.

Definition initialState : State := mkState [] None None [] [] [].

(** The first row is taken off as the header when all its cells are
    strings: the header (if any) and the remaining rows. *)
Definition splitHeader (rows : list RawRow) : option Header * list RawRow :=
  match rows with
  | r0 :: rest => if everyString r0 then (Some (headerOfRow r0), rest)
                  else (None, rows)
  | [] => (None, rows)
  end.

(** [reader.onload]: the body of the [try], or the [catch]. *)
Definition onLoad (h : Host) (st : State) (file : Decode) : State :=
  match file with
  | DecodeOk rows0 =>
      let (firstRow, rows) := splitHeader rows0 in
      let guessed := detectFromData h firstRow rows in
      let parsed := map (parseRow guessed) rows in
      mkState rows firstRow (Some guessed) parsed (firstn 10 parsed) []
  | DecodeFails err =>
      mkState (rawRows st) (headerRow st) (mapping st) (data st)
              (previewRows st) ["Failed to parse file: " ++ err]
  end.

Definition onDrop (h : Host) (st : State) (acceptedFiles : list Decode) : State :=
  match acceptedFiles with
  | [] => st
  | file :: _ => onLoad h st file
  end.

(* ---------------------------------------------------------------- *)
(** ** Totals by date and their running sum *)

(** [x || 0] for a number [x]: 0 in place of NaN (and of 0 itself). *)
Definition numberOr0 (n : jsnum) : jsnum := if isNaN n then zero else n.

(** The object [map] of [aggregateByDate]: its own properties in
    insertion order.  A name that [Object.prototype] has as well reads
    as that inherited member until it is first written; such dates are
    left out of what is stated about this function. *)
Definition DateTotals : Type := list (string * jsnum).

Definition inheritedNames : list string :=
  ["constructor"; "toString"; "toLocaleString"; "valueOf"; "hasOwnProperty";
   "isPrototypeOf"; "propertyIsEnumerable"; "__proto__"; "__defineGetter__";
   "__defineSetter__"; "__lookupGetter__"; "__lookupSetter__"].

(** [map[k]]; [None] for [undefined]. *)
Fixpoint objGet (k : string) (m : DateTotals) : option jsnum :=
  match m with
  | [] => None
  | (k', v) :: rest => if String.eqb k' k then Some v else objGet k rest
  end.

(** [map[k] = v] *)
Fixpoint objPut (k : string) (v : jsnum) (m : DateTotals) : DateTotals :=
  match m with
  | [] => [(k, v)]
  | (k', v') :: rest =>
      if String.eqb k' k then (k, v) :: rest else (k', v') :: objPut k v rest
  end.

(** One turn of [data.forEach] in [aggregateByDate]. *)
Definition addToDate (m : DateTotals) (d : CostData) : DateTotals :=
  let key := if String.eqb (date d) "" then "(unknown)" else date d in
  let prev := match objGet key m with Some v => numberOr0 v | None => zero end in
  objPut key (add prev (numberOr0 (cost d))) m.

(** [aggregateByDate]: the keys in the default sort order, which
    compares strings code unit by code unit, each with its total. *)
Definition aggregateByDate (data : list CostData) : list (string * jsnum) :=
  let m := fold_left addToDate data [] in
  map (fun k => (k, match objGet k m with Some v => v | None => NaN end))
      (Dashboard.sortBy String.compare (map fst m)).

(** The running sum of [sorted.map(...)] in [cumulativeByDate]. *)
Fixpoint runningCosts (running : jsnum) (sorted : list (string * jsnum))
  : list (string * jsnum) :=
  match sorted with
  | [] => []
  | (k, c) :: rest =>
      let running' := add running (numberOr0 c) in
      (k, running') :: runningCosts running' rest
  end.

Definition cumulativeByDate (data : list CostData) : list (string * jsnum) :=
  runningCosts zero (aggregateByDate data).

(* ---------------------------------------------------------------- *)
(** ** Totals by service and the header figures *)

(** One turn of [data.forEach] in [aggregateByService]. *)
Definition addToService (m : DateTotals) (d : CostData) : DateTotals :=
  let key := if String.eqb (service d) "" then "(unknown)" else service d in
  let prev := match objGet key m with Some v => numberOr0 v | None => zero end in
  objPut key (add prev (numberOr0 (cost d))) m.

(** [aggregateByService]: one [{ service, cost }] per key of the map,
    in the order of [Object.keys]. *)
Definition aggregateByService (data : list CostData) : list (string * jsnum) :=
  let m := fold_left addToService data [] in
  map (fun k => (k, match objGet k m with Some v => v | None => NaN end))
      (JsObject.keys m).

(** [data.reduce((s, d) => s + (Number(d.cost) || 0), 0)] *)
Definition totalCost (data : list CostData) : jsnum :=
  fold_left (fun s d => add s (numberOr0 (cost d))) data zero.

(** [a - b] *)
Definition sub (a b : jsnum) : jsnum := add a (neg b).

(** How [sort] reads the number a comparison function returns; NaN
    counts as 0. *)
Definition signOfNumber (x : jsnum) : comparison :=
  match x with
  | Fin q => (q ?= Q2Qc 0)%Qc
  | PInf => Gt
  | NInf => Lt
  | NaN => Eq
  end.

(** [(a, b) => b.cost - a.cost] *)
Definition byCostDescending (a b : string * jsnum) : comparison :=
  signOfNumber (sub (snd b) (snd a)).

(** [aggregateByService(data).sort((a, b) => b.cost - a.cost)] *)
Definition byService (data : list CostData) : list (string * jsnum) :=
  Dashboard.sortBy byCostDescending (aggregateByService data).

(** [byService[0]?.service ?? "(none)"] *)
Definition topService (data : list CostData) : string :=
  match byService data with
  | (name, _) :: _ => name
  | [] => "(none)"
  end.

(* ---------------------------------------------------------------- *)
(** ** Applying a mapping chosen in the dialog *)

(** Whether [v || ""] takes the right-hand side.  A number cell is
    falsy when it is 0 or NaN, which print as [0] and [NaN]. *)
Definition isFalsy (v : cell) : bool :=
  match v with
  | CHole | CNull => true
  | CStr s => String.eqb s ""
  | CNum r => String.eqb r "0" || String.eqb r "NaN"
  | CBool b => negb b
  end.

(** The record the Apply button builds from one row. *)
Definition reparseRow (m : Mapping) (row : RawRow) : CostData :=
  let rc := parseFloat (toStr (getCell row (costIdx m))) in
  let sv := getCell row (serviceIdx m) in
  mkCostData (strOrEmpty (getCell row (dateIdx m)))
             (if isNaN rc then zero else rc)
             (if isFalsy sv then "" else toStr sv).

(** The Apply button of the mapping dialog (the dialog's own open flag
    is not part of [State]). *)
Definition applyMapping (st : State) : State :=
  match mapping st with
  | None => st
  | Some m =>
      let parsed := map (reparseRow m) (rawRows st) in
      mkState (rawRows st) (headerRow st) (mapping st) parsed (firstn 10 parsed) []
  end.

End Classic.


(* ================================================================== *)
(** * The header-aware variant of the three-column component *)
(* ================================================================== *)

(** The variant whose loader also reads the header names; it detects
    columns with the same [detectFromData]. *)
Module HeaderAware.
Import JsString JsNumber.

(** A property value of a parsed record. *)
Inductive field : Type :=
| FStr (s : string)
| FNum (n : jsnum)
| FCell (c : cell).

(** A parsed record: its own properties in insertion order. *)
Definition CostData : Type := list (string * field).

(** [obj[k] = v] *)
Fixpoint objSet (k : string) (v : field) (obj : CostData) : CostData :=
  match obj with
  | [] => [(k, v)]
  | (k', v') :: rest =>
      if String.eqb k' k then (k, v) :: rest else (k', v') :: objSet k v rest
  end.

Record ChartMapping : Type := mkChartMapping {
  pieGroupBy : string;
  valueField : string;
  dateField : string
}.

Record State : Type := mkState {
  rawRows : list RawRow;
  headerRow : option Header;
  mapping : option Classic.Mapping;
  data : list CostData;
  previewRows : list CostData;
  extraFields : list string;
  chartMapping : ChartMapping;
  warnings : list string
}.

Definition initialState : State :=
  mkState [] None None [] [] [] (mkChartMapping "service" "cost" "date") [].

(** [firstRow.map((h) => String(h || "").toLowerCase())]: holes stay. *)
Definition headerLower (firstRow : Header) : Header :=
  map (option_map toLowerCase) firstRow.

(** [names.indexOf(x)] on a header. *)
Fixpoint indexOfName (x : string) (names : Header) : Z :=
  match names with
  | [] => -1
  | n :: rest =>
      if match n with Some s => String.eqb s x | None => false end then 0
      else let i := indexOfName x rest in if i <? 0 then -1 else i + 1
  end.

(** [firstRow[i]]; [None] for [undefined]. *)
Definition headerAt (firstRow : Header) (i : Z) : option string :=
  if i <? 0 then None else nth (Z.to_nat i) firstRow None.

(** The mapping kept when a header row exists: a header named "cost"
    or "metercategory" (in any letter case) takes the place of the
    guessed cost or service column; the date column stays as guessed. *)
Definition useMapping (firstRow : Header) (guessed : Classic.Mapping)
  : Classic.Mapping :=
  let lower := headerLower firstRow in
  let costIdx := indexOfName "cost" lower in
  let meterIdx := indexOfName "metercategory" lower in
  Classic.mkMapping
    (Classic.dateIdx guessed)
    (if 0 <=? costIdx then costIdx else Classic.costIdx guessed)
    (if 0 <=? meterIdx then meterIdx else Classic.serviceIdx guessed).

Definition inList (x : string) (l : list string) : bool :=
  existsb (String.eqb x) l.

Definition chosenExtras (firstRow : Header) : list string :=
  let lower := headerLower firstRow in
  let subIdx := indexOfName "subscriptionname" lower in
  let meterIdx := indexOfName "metercategory" lower in
  let e1 := if 0 <=? subIdx
            then match headerAt firstRow subIdx with Some n => [n] | None => [] end
            else [] in
  if 0 <=? meterIdx then
    match headerAt firstRow meterIdx with
    | Some n => if inList n e1 then e1 else e1 ++ [n]
    | None => e1
    end
  else e1.

(** [firstRow.forEach((h, idx) => ...)] attaching the chosen extras. *)
Fixpoint attachExtras (chosen : list string) (r : RawRow) (idx : Z)
         (names : Header) (base : CostData) : CostData :=
  match names with
  | [] => base
  | n :: rest =>
      let base' :=
        match n with
        | Some hname =>
            if String.eqb hname "" then base
            else if inList hname chosen then objSet hname (FCell (getCell r idx)) base
            else base
        | None => base
        end in
      attachExtras chosen r (idx + 1) rest base'
  end.

Definition parseRowWithHeader (firstRow : Header) (m : Classic.Mapping)
           (r : RawRow) : CostData :=
  let lower := headerLower firstRow in
  let subIdx := indexOfName "subscriptionname" lower in
  let meterIdx := indexOfName "metercategory" lower in
  let p := Classic.parseRow m r in
  let base := [("date", FStr (Classic.date p)); ("cost", FNum (Classic.cost p));
               ("service", FStr (Classic.service p))] in
  let base1 := attachExtras (chosenExtras firstRow) r 0 firstRow base in
  let base2 := if 0 <=? subIdx
               then objSet "subscriptionName" (FStr (strOrEmpty (getCell r subIdx))) base1
               else base1 in
  if 0 <=? meterIdx
  then objSet "meterCategory" (FStr (strOrEmpty (getCell r meterIdx))) base2
  else base2.

Definition parseRowGuessed (m : Classic.Mapping) (r : RawRow) : CostData :=
  let p := Classic.parseRow m r in
  [("date", FStr (Classic.date p)); ("cost", FNum (Classic.cost p));
   ("service", FStr (Classic.service p))].

Definition orDefault (o : option string) (d : string) : string :=
  match o with Some s => s | None => d end.

(** [reader.onload]: the body of the [try], or the [catch]. *)
Definition onLoad (h : Host) (st : State) (file : Classic.Decode) : State :=
  match file with
  | Classic.DecodeOk rows0 =>
      let (firstRow, rows) := Classic.splitHeader rows0 in
      let guessed := Classic.detectFromData h firstRow rows in
      match firstRow with
      | Some hdr =>
          let m := useMapping hdr guessed in
          let parsed := map (parseRowWithHeader hdr m) rows in
          mkState rows firstRow (Some m) parsed (firstn 10 parsed)
                  (chosenExtras hdr)
                  (mkChartMapping
                     (orDefault (headerAt hdr (Classic.serviceIdx m)) "service")
                     (orDefault (headerAt hdr (Classic.costIdx m)) "cost")
                     (orDefault (headerAt hdr (Classic.dateIdx m)) "date"))
                  []
      | None =>
          let parsed := map (parseRowGuessed guessed) rows in
          mkState rows firstRow (Some guessed) parsed (firstn 10 parsed)
                  (extraFields st) (chartMapping st) []
      end
  | Classic.DecodeFails err =>
      mkState (rawRows st) (headerRow st) (mapping st) (data st)
              (previewRows st) (extraFields st) (chartMapping st)
              ["Failed to parse file: " ++ err]
  end.

Definition onDrop (h : Host) (st : State) (acceptedFiles : list Classic.Decode)
  : State :=
  match acceptedFiles with
  | [] => st
  | file :: _ => onLoad h st file
  end.

End HeaderAware.


(* ================================================================== *)
(** * Export as delimited text *)
(* ================================================================== *)

(** [downloadCSV], up to the text handed to the [Blob]. *)
Module CsvExport.
Import JsString.

(** An exported row: an object whose values are the primitives of
    [cell]. *)
Definition Row : Type := list (string * cell).

Definition comma : string := ",".
Definition newline : string := String (ascii_of_N 10) "".

(** [r[k] ?? ""], as [join] prints it.  [k] is an own property of the
    first row; rows that lack it are taken not to inherit it. *)
Definition fieldText (r : Row) (k : string) : string :=
  match JsObject.getOwn k r with
  | Some v => strOrEmpty v
  | None => ""
  end.

(** The text of the file; [None] when the function returns without
    producing one. *)
Definition csvText (rows : list Row) : option string :=
  match rows with
  | [] => None
  | first :: _ =>
      let keys := JsObject.keys first in
      Some (join newline
              (join comma keys
               :: map (fun r => join comma (map (fieldText r) keys)) rows))
  end.

End CsvExport.

(* ================================================================== *)
(** * Example data *)
(* ================================================================== *)

Module Examples.

(** The three-row grid used as the running example. *)
Definition grid : list RawRow :=
  [ [CStr "2024-01-05"; CStr "10"; CStr "VM"];
    [CStr "2024-01-20"; CStr "5"; CStr "VM"];
    [CStr "2024-02-01"; CStr "7"; CStr "Storage"] ].

(** An engine that only understands the date-only forms. *)
Definition strictParse : string -> option Z := fun _ => None.

(** A browser on UTC, and one five hours west of it. *)
Definition hostUTC : Host := mkHost 0 strictParse String.compare.
Definition hostNewYork : Host := mkHost (-300) strictParse String.compare.
Definition hostTokyo : Host := mkHost 540 strictParse String.compare.

End Examples.

(* ================================================================== *)
(** * Vocabulary of the statements *)
(* ================================================================== *)

Section Vocabulary.
Import JsString JsNumber Dashboard.

(** The text a rule looks at in a row. *)
Definition cellText (row : RawRow) (r : FilterRule) : string :=
  strOrEmpty (getCell row (colIdx r)).

(** [hay] has [needle] as a substring once both are lower-cased. *)
Definition containsIgnoringCase (hay needle : string) : Prop :=
  exists pre post, toLowerCase hay = pre ++ toLowerCase needle ++ post.

(** What it means for a row to satisfy one rule. *)
Definition satisfies (row : RawRow) (r : FilterRule) : Prop :=
  match op r with
  | contains => containsIgnoringCase (cellText row r) (value r)
  | equals => cellText row r = value r
  | notContains => ~ containsIgnoringCase (cellText row r) (value r)
  | notEquals => cellText row r <> value r
  end.

(** [0 <= a]: a non-negative rational or plus infinity. *)
Definition nonneg (a : jsnum) : Prop := le zero a.

(** [vals.reduce((s, v) => s + v, 0)] *)
Definition total (vals : list jsnum) : jsnum := fold_left add vals zero.

(** The sums held by a map, in entry order. *)
Definition sums (m : Totals) : list jsnum := map (fun e => accSum (snd e)) m.

(** The rows that pass the filter. *)
Definition kept (rules : list FilterRule) (rows : list RawRow) : list RawRow :=
  filter (fun row => matchesRow row rules) rows.

(** The rows of group [k]. *)
Definition inGroup (keyOf : RawRow -> string) (k : string)
           (rows : list RawRow) : list RawRow :=
  filter (fun row => String.eqb (keyOf row) k) rows.

(** The accumulator a group must hold after its rows [g] were added
    one by one; no entry for a group without rows. *)
Definition accOf (val : RawRow -> jsnum) (g : list RawRow) : option Acc :=
  match g with
  | [] => None
  | _ => Some (mkAcc (total (map val g)) (Z.of_nat (List.length g)))
  end.

(** First value recorded under a key in a result list. *)
Fixpoint valueOf (k : string) (l : list (string * jsnum)) : option jsnum :=
  match l with
  | [] => None
  | (k', v) :: rest => if String.eqb k' k then Some v else valueOf k rest
  end.

(** [b] does not sort strictly before [a] under [compare]. *)
Definition inOrder {A : Type} (compare : A -> A -> comparison) (a b : A) : Prop :=
  compare b a <> Lt.

(** The sum of the first [n] bucket values. *)
Definition prefixTotal (vals : list jsnum) (n : nat) : jsnum :=
  total (firstn n vals).

(** A well-formed accumulator: a non-negative sum over at least one row. *)
Definition goodAcc (e : string * Acc) : Prop :=
  nonneg (accSum (snd e)) /\ (0 < accCount (snd e))%Z.

(** The value of a group, 0 for a group that is not there. *)
Definition orZero (o : option jsnum) : jsnum :=
  match o with Some v => v | None => zero end.

(** The bucket a row falls in. *)
Definition bucketOf (h : Host) (d : Z) (mb : bool) (fmt : DateFormat)
           (row : RawRow) : string :=
  formatDateBucket h (getCell row d) mb fmt.

(** The value shown for a bucket. *)
Definition bucketValue (agg : Aggregation) (e : string * Acc) : jsnum :=
  reduce agg (snd e).

(** The string [YYYY-MM] for a year of four digits and a month. *)
Definition yearMonth (y mo : Z) : string := ofZ y ++ "-" ++ padStart0 2 (ofZ mo).

(** The first of a month, as a day number, reads back as that date. *)
Definition firstOfMonthCheck (ym : Z * Z) : bool :=
  let (y, mo) := ym in
  let '(y', mo', d') := JsDate.civilFromDays (JsDate.daysFromCivil y mo 1) in
  (y' =? y) && (mo' =? mo) && (d' =? 1).

Definition cycleYears : list Z := map Z.of_nat (seq 0 400).

Definition monthNumbers : list Z := map Z.of_nat (seq 1 12).

(** Column [i] is the first one whose lower-cased header is [name]. *)
Definition firstNamed (hdr : Header) (name : string) (i : Z) : Prop :=
  HeaderAware.headerAt (HeaderAware.headerLower hdr) i = Some name
  /\ forall j, 0 <= j < i ->
               HeaderAware.headerAt (HeaderAware.headerLower hdr) j <> Some name.

(** No column has [name] as its lower-cased header. *)
Definition notNamed (hdr : Header) (name : string) : Prop :=
  forall j, HeaderAware.headerAt (HeaderAware.headerLower hdr) j <> Some name.

(** The positions of a header starting at [idx]: the index of each
    named column, [None] for each hole. *)
Fixpoint slotsFrom (idx : Z) (names : Header) : list (option Z) :=
  match names with
  | [] => []
  | Some _ :: rest => Some idx :: slotsFrom (idx + 1) rest
  | None :: rest => None :: slotsFrom (idx + 1) rest
  end.

(** The entries of a list that are not holes. *)
Fixpoint definedOnes (l : list (option Z)) : list Z :=
  match l with
  | [] => []
  | Some i :: rest => i :: definedOnes rest
  | None :: rest => definedOnes rest
  end.

(** The key a record is filed under, by service and by date. *)
Definition serviceKey (d : Classic.CostData) : string :=
  if String.eqb (Classic.service d) "" then "(unknown)" else Classic.service d.

Definition dateKey (d : Classic.CostData) : string :=
  if String.eqb (Classic.date d) "" then "(unknown)" else Classic.date d.

(** What a record adds to a total: [Number(d.cost) || 0]. *)
Definition costOf (d : Classic.CostData) : jsnum :=
  Classic.numberOr0 (Classic.cost d).

(** The records filed under [k]. *)
Definition filedUnder (key : Classic.CostData -> string) (k : string)
           (data : list Classic.CostData) : list Classic.CostData :=
  filter (fun d => String.eqb (key d) k) data.

(** The total a key must hold after its records [g] were added one by
    one; nothing for a key without records. *)
Definition sumOf (g : list Classic.CostData) : option jsnum :=
  match g with
  | [] => None
  | _ => Some (total (map costOf g))
  end.

(** A number that is neither NaN nor an infinity. *)
Definition isFinite (x : jsnum) : Prop :=
  match x with Fin _ => True | _ => False end.

(** A name that a plain object does not inherit. *)
Definition plainName (k : string) : Prop := ~ In k Classic.inheritedNames.

(** A cell for which [String(v || "")] and [String(v ?? "")] agree:
    anything but the numbers 0 and NaN and the boolean [false]. *)
Definition keepsText (v : cell) : bool :=
  match v with
  | CNum r => negb (String.eqb r "0" || String.eqb r "NaN")
  | CBool b => b
  | _ => true
  end.

(** [s.split(sep)] for a separator of one character. *)
Fixpoint splitOn (sep : ascii) (s : string) : list string :=
  match s with
  | EmptyString => [EmptyString]
  | String c rest =>
      if Ascii.eqb c sep then EmptyString :: splitOn sep rest
      else match splitOn sep rest with
           | x :: xs => String c x :: xs
           | [] => [String c EmptyString]
           end
  end.

(** Whether [c] occurs in [s]. *)
Fixpoint hasChar (c : ascii) (s : string) : bool :=
  match s with
  | EmptyString => false
  | String c' rest => Ascii.eqb c' c || hasChar c rest
  end.

(** The month before month [mo] of year [y]. *)
Definition monthBefore (y mo : Z) : Z * Z :=
  if mo =? 1 then (y - 1, 12) else (y, mo - 1).

(** The day before the first of a month lies in the month before. *)
Definition dayBeforeCheck (ym : Z * Z) : bool :=
  let (y, mo) := ym in
  let '(y', mo', _) := JsDate.civilFromDays (JsDate.daysFromCivil y mo 1 - 1) in
  let (py, pm) := monthBefore y mo in
  (y' =? py) && (mo' =? pm).

(** A field that holds neither a comma nor a line feed. *)
Definition plainField (s : string) : bool :=
  negb (hasChar ","%char s) && negb (hasChar (ascii_of_N 10) s).

End Vocabulary.

(* ================================================================== *)
(** * Properties of the string primitives *)
(* ================================================================== *)

Section StringFacts.
Import JsString.

Lemma prefix_spec (n s : string) :
  String.prefix n s = true <-> exists post, s = n ++ post.
Proof.
  revert s; induction n as [|c n IH]; intros [|d s]; simpl.
  - split; eauto.
  - split; eauto.
  - split; [discriminate | intros [post H]; discriminate].
  - destruct (Ascii.ascii_dec c d) as [->|Hne].
    + rewrite IH. split; intros [post H]; exists post.
      * now rewrite H.
      * now injection H.
    + split; [discriminate|]. intros [post H]. injection H as H1 _.
      now elim Hne.
Qed.

Lemma includes_spec (s n : string) :
  includes s n = true <-> exists pre post, s = pre ++ n ++ post.
Proof.
  induction s as [|c s IH]; cbn [includes].
  - destruct (String.prefix n "") eqn:E.
    + split; [intros _|reflexivity].
      apply prefix_spec in E as [post H]. exists "", post. exact H.
    + split; [discriminate|]. intros (pre & post & H).
      destruct pre; simpl in H.
      * assert (String.prefix n "" = true) by (apply prefix_spec; eauto).
        congruence.
      * discriminate.
  - destruct (String.prefix n (String c s)) eqn:E.
    + split; [intros _|reflexivity].
      apply prefix_spec in E as [post H]. exists "", post. exact H.
    + rewrite IH. split.
      * intros (pre & post & H). exists (String c pre), post. simpl.
        now rewrite H.
      * intros (pre & post & H). destruct pre as [|d pre]; simpl in H.
        -- assert (String.prefix n (String c s) = true)
             by (apply prefix_spec; eauto).
           congruence.
        -- injection H as _ H. eauto.
Qed.

Lemma trimStart_whitespace (s : string) :
  allb isWhiteSpace s = true -> trimStart s = "".
Proof.
  induction s as [|c s IH]; simpl; [reflexivity|].
  destruct (isWhiteSpace c); simpl; [exact IH | discriminate].
Qed.

Lemma trim_whitespace (s : string) :
  allb isWhiteSpace s = true -> trim s = "".
Proof.
  intros H. unfold trim. now rewrite trimStart_whitespace.
Qed.

End StringFacts.

(* ================================================================== *)
(** * Filtering *)
(* ================================================================== *)

Section Filtering.
Import JsString Dashboard.

Lemma matchesRow_cons (row : RawRow) (r : FilterRule) (rest : list FilterRule) :
  matchesRow row (r :: rest) = true <->
  satisfies row r /\ matchesRow row rest = true.
Proof.
  unfold satisfies, containsIgnoringCase, cellText. simpl.
  destruct (op r).
  - rewrite <- includes_spec.
    destruct (includes _ _); simpl; intuition discriminate.
  - rewrite <- String.eqb_eq.
    destruct (String.eqb _ _); simpl; intuition discriminate.
  - rewrite <- includes_spec.
    destruct (includes _ _); simpl; intuition (discriminate || congruence).
  - rewrite <- String.eqb_neq.
    destruct (String.eqb _ _); simpl; intuition (discriminate || congruence).
Qed.

(** C7. A row passes the filter exactly when it satisfies every rule of
    the set; the empty set lets every row pass; and on the example grid
    the rule "column 2 equals VM" keeps exactly the first two rows. *)
Theorem matchesRow_iff_every_rule :
  (forall row rules,
      matchesRow row rules = true <-> Forall (satisfies row) rules)
  /\ (forall row, matchesRow row [] = true)
  /\ filter (fun row => matchesRow row [mkRule 2 equals "VM"]) Examples.grid
     = firstn 2 Examples.grid.
Proof.
  split; [|split].
  - intros row rules. induction rules as [|r rest IH].
    + simpl. split; auto.
    + rewrite matchesRow_cons, IH. split.
      * intros [H1 H2]. now constructor.
      * intros H. inversion H; subst. auto.
  - reflexivity.
  - reflexivity.
Qed.

(** C10. [contains] and [notContains] test for a substring after
    lower-casing both the cell text and the rule value, so neither the
    case of the cell nor that of the value matters; [equals] and
    [notEquals] compare the two strings exactly, so case matters. *)
Theorem filter_operators_case :
  (forall row c v,
      (matchesRow row [mkRule c contains v] =
       includes (toLowerCase (strOrEmpty (getCell row c))) (toLowerCase v))
      /\ (matchesRow row [mkRule c notContains v] =
          negb (includes (toLowerCase (strOrEmpty (getCell row c))) (toLowerCase v)))
      /\ (matchesRow row [mkRule c equals v] = true <->
          strOrEmpty (getCell row c) = v)
      /\ (matchesRow row [mkRule c notEquals v] = true <->
          strOrEmpty (getCell row c) <> v))
  /\ (forall row row' c v v',
         toLowerCase (strOrEmpty (getCell row c)) =
         toLowerCase (strOrEmpty (getCell row' c)) ->
         toLowerCase v = toLowerCase v' ->
         matchesRow row [mkRule c contains v] =
         matchesRow row' [mkRule c contains v']
         /\ matchesRow row [mkRule c notContains v] =
            matchesRow row' [mkRule c notContains v'])
  /\ (matchesRow [CStr "Virtual Machines"] [mkRule 0 contains "MACHINE"] = true
      /\ matchesRow [CStr "Virtual Machines"] [mkRule 0 notContains "MACHINE"] = false
      /\ matchesRow [CStr "VM"] [mkRule 0 equals "vm"] = false
      /\ matchesRow [CStr "VM"] [mkRule 0 notEquals "vm"] = true).
Proof.
  split; [|split].
  - intros row c v. cbn [matchesRow op colIdx value].
    generalize (strOrEmpty (getCell row c)); intros t.
    generalize (includes (toLowerCase t) (toLowerCase v)); intros inc.
    pose proof (String.eqb_spec t v) as E.
    split; [now destruct inc|].
    split; [now destruct inc|].
    split; split.
    + destruct E; [trivial | discriminate].
    + intros ->. destruct E; [reflexivity | congruence].
    + destruct E; [discriminate | trivial].
    + intros Hne. destruct E; [congruence | reflexivity].
  - intros row row' c v v' Hc Hv. simpl. rewrite Hc, Hv. split; reflexivity.
  - repeat split.
Qed.

End Filtering.

(* ================================================================== *)
(** * Arithmetic of the number model *)
(* ================================================================== *)

Section NumberFacts.
Import JsNumber.

Lemma add_comm (a b : jsnum) : add a b = add b a.
Proof.
  destruct a, b; simpl; try reflexivity. f_equal. apply Qcplus_comm.
Qed.

Lemma add_assoc (a b c : jsnum) : add a (add b c) = add (add a b) c.
Proof.
  destruct a, b, c; simpl; try reflexivity. f_equal. apply Qcplus_assoc.
Qed.

Lemma add_zero_r (a : jsnum) : add a zero = a.
Proof.
  destruct a; simpl; try reflexivity. f_equal. apply Qcplus_0_r.
Qed.

Lemma add_zero_l (a : jsnum) : add zero a = a.
Proof. rewrite add_comm. apply add_zero_r. Qed.

Lemma nonneg_zero : nonneg zero.
Proof. unfold nonneg, zero; simpl. apply Qcle_refl. Qed.

Lemma nonneg_add (a b : jsnum) : nonneg a -> nonneg b -> nonneg (add a b).
Proof.
  unfold nonneg, zero. destruct a, b; simpl; try tauto.
  intros Ha Hb. rewrite <- (Qcplus_0_r (Q2Qc 0)).
  now apply Qcplus_le_compat.
Qed.

Lemma le_add_nonneg (a b : jsnum) : nonneg a -> nonneg b -> le a (add a b).
Proof.
  unfold nonneg, zero. destruct a, b; simpl; try tauto.
  intros _ Hb. rewrite <- (Qcplus_0_r q) at 1.
  apply Qcplus_le_compat; [apply Qcle_refl | exact Hb].
Qed.

Lemma Q2Qc_inject_Z_pos (n : Z) : (0 < n)%Z -> (Q2Qc 0 < Q2Qc (inject_Z n))%Qc.
Proof.
  intros Hn. unfold Qclt, Q2Qc. cbn [this].
  rewrite !Qred_correct. unfold Qlt. simpl. lia.
Qed.

Lemma nonneg_ofInt (n : Z) : (0 <= n)%Z -> nonneg (ofInt n).
Proof.
  intros Hn. unfold nonneg, ofInt, zero, le, Qcle, Q2Qc. cbn [this].
  rewrite !Qred_correct. unfold Qle. simpl. lia.
Qed.

Lemma nonneg_divCount (a : jsnum) (n : Z) :
  (0 < n)%Z -> nonneg a -> nonneg (divCount a n).
Proof.
  intros Hn. unfold nonneg, zero. destruct a; simpl; try tauto.
  intros Hq. pose proof (Q2Qc_inject_Z_pos n Hn) as Hpos.
  apply Qcmult_lt_0_le_reg_r with (z := Q2Qc (inject_Z n)); [exact Hpos|].
  rewrite Qcmult_0_l. unfold Qcdiv.
  rewrite <- Qcmult_assoc, (Qcmult_comm (/ _)), Qcmult_inv_r, Qcmult_1_r.
  - exact Hq.
  - intros E. rewrite E in Hpos. now apply Qclt_not_eq in Hpos.
Qed.

Lemma fold_add_from (l : list jsnum) (a : jsnum) :
  fold_left add l a = add a (total l).
Proof.
  unfold total. revert a. induction l as [|x l IH]; intros a; cbn [fold_left].
  - now rewrite add_zero_r.
  - rewrite (IH (add a x)), (IH (add zero x)), add_zero_l.
    now rewrite add_assoc.
Qed.

Lemma total_cons (x : jsnum) (l : list jsnum) :
  total (x :: l) = add x (total l).
Proof.
  unfold total at 1. cbn [fold_left]. now rewrite fold_add_from, add_zero_l.
Qed.

Lemma total_snoc (l : list jsnum) (x : jsnum) :
  total (l ++ [x]) = add (total l) x.
Proof. unfold total. now rewrite fold_left_app. Qed.

Lemma total_app (l1 l2 : list jsnum) :
  total (l1 ++ l2) = add (total l1) (total l2).
Proof.
  unfold total at 1. rewrite fold_left_app. apply fold_add_from.
Qed.

End NumberFacts.

(* ================================================================== *)
(** * Aggregation *)
(* ================================================================== *)

Section Aggregating.
Import JsString JsNumber Dashboard.

Lemma mapGet_mapSet_same (k : string) (v : Acc) (m : Totals) :
  mapGet k (mapSet k v m) = Some v.
Proof.
  induction m as [|[k' v'] m IH]; simpl.
  - now rewrite String.eqb_refl.
  - destruct (String.eqb k' k) eqn:E; simpl.
    + now rewrite String.eqb_refl.
    + now rewrite E.
Qed.

Lemma mapGet_mapSet_other (k k0 : string) (v : Acc) (m : Totals) :
  k <> k0 -> mapGet k0 (mapSet k v m) = mapGet k0 m.
Proof.
  intros Hne. induction m as [|[k' v'] m IH]; simpl.
  - apply String.eqb_neq in Hne. now rewrite Hne.
  - destruct (String.eqb k' k) eqn:E; simpl.
    + apply String.eqb_eq in E; subst k'.
      apply String.eqb_neq in Hne. now rewrite Hne.
    + destruct (String.eqb k' k0); [reflexivity | exact IH].
Qed.

Lemma total_sums_mapSet_present (k : string) (a : Acc) (v : jsnum) (c : Z)
      (m : Totals) :
  mapGet k m = Some a ->
  total (sums (mapSet k (mkAcc (add (accSum a) v) c) m)) = add (total (sums m)) v.
Proof.
  induction m as [|[k' v'] m IH]; simpl; [discriminate|].
  destruct (String.eqb k' k) eqn:E; intros H.
  - injection H as ->. unfold sums; simpl. fold (sums m).
    rewrite !total_cons. cbn [accSum].
    rewrite <- !add_assoc. f_equal. apply add_comm.
  - unfold sums; simpl. fold (sums m) (sums (mapSet k (mkAcc (add (accSum a) v) c) m)).
    rewrite !total_cons, (IH H). apply add_assoc.
Qed.

Lemma total_sums_mapSet_absent (k : string) (a : Acc) (m : Totals) :
  mapGet k m = None ->
  total (sums (mapSet k a m)) = add (total (sums m)) (accSum a).
Proof.
  induction m as [|[k' v'] m IH]; simpl.
  - intros _. reflexivity.
  - destruct (String.eqb k' k) eqn:E; [discriminate|]. intros H.
    unfold sums; simpl. fold (sums m) (sums (mapSet k a m)).
    rewrite !total_cons, (IH H). apply add_assoc.
Qed.

Lemma total_sums_accumulate (k : string) (v : jsnum) (m : Totals) :
  total (sums (accumulate k v m)) = add (total (sums m)) v.
Proof.
  unfold accumulate. destruct (mapGet k m) as [a|] eqn:E.
  - now apply total_sums_mapSet_present.
  - rewrite total_sums_mapSet_absent by exact E. cbn [accSum].
    now rewrite add_zero_l.
Qed.

(** The accumulation loop, one row further. *)
Lemma groupTotals_snoc (keyOf : RawRow -> string) (agg : Aggregation)
      (m : Z) (rules : list FilterRule) (rows : list RawRow) (r : RawRow) :
  groupTotals keyOf agg m rules (rows ++ [r]) =
  if matchesRow r rules
  then accumulate (keyOf r) (rowValue agg m r) (groupTotals keyOf agg m rules rows)
  else groupTotals keyOf agg m rules rows.
Proof.
  unfold groupTotals. rewrite fold_left_app. simpl.
  now destruct (matchesRow r rules).
Qed.

(** Summed over all groups, the sums are the sum over the kept rows. *)
Lemma groupTotals_total (keyOf : RawRow -> string) (agg : Aggregation)
      (m : Z) (rules : list FilterRule) (rows : list RawRow) :
  total (sums (groupTotals keyOf agg m rules rows)) =
  total (map (rowValue agg m) (kept rules rows)).
Proof.
  induction rows as [|r rows IH] using rev_ind; [reflexivity|].
  rewrite groupTotals_snoc. unfold kept in *. rewrite filter_app. simpl.
  destruct (matchesRow r rules).
  - rewrite total_sums_accumulate, IH, map_app. simpl.
    now rewrite total_snoc.
  - now rewrite app_nil_r.
Qed.

(** Each group holds the left-to-right sum and the number of its rows. *)
Lemma groupTotals_lookup (keyOf : RawRow -> string) (agg : Aggregation)
      (m : Z) (rules : list FilterRule) (rows : list RawRow) (k : string) :
  mapGet k (groupTotals keyOf agg m rules rows) =
  accOf (rowValue agg m) (inGroup keyOf k (kept rules rows)).
Proof.
  induction rows as [|r rows IH] using rev_ind; [reflexivity|].
  rewrite groupTotals_snoc. unfold kept, inGroup in *.
  rewrite filter_app. simpl.
  destruct (matchesRow r rules); simpl.
  2:{ now rewrite app_nil_r. }
  rewrite filter_app. simpl.
  destruct (String.eqb (keyOf r) k) eqn:E.
  - apply String.eqb_eq in E. subst k. unfold accumulate.
    rewrite mapGet_mapSet_same, IH.
    set (g := filter _ (filter _ rows)).
    clearbody g. destruct g as [|r0 g]; [reflexivity|].
    cbn [accOf app accSum accCount]. f_equal. f_equal.
    + change (r0 :: g ++ [r])%list with ((r0 :: g) ++ [r])%list.
      rewrite map_app. cbn [map]. now rewrite total_snoc.
    + cbn [List.length]. rewrite length_app. cbn [List.length]. lia.
  - rewrite app_nil_r. unfold accumulate.
    rewrite mapGet_mapSet_other.
    + exact IH.
    + now apply String.eqb_neq.
Qed.

End Aggregating.

(* ================================================================== *)
(** * Sorting and running sums *)
(* ================================================================== *)

Section Sorting.
Import JsNumber Dashboard.
Context {A : Type} (compare : A -> A -> comparison).

Lemma insertSorted_perm (x : A) (l : list A) :
  Permutation (insertSorted compare x l) (x :: l).
Proof.
  induction l as [|y l IH]; simpl; [reflexivity|].
  destruct (compare x y); try reflexivity.
  - rewrite IH. apply perm_swap.
  - rewrite IH. apply perm_swap.
Qed.

Lemma fold_insert_perm (l acc : list A) :
  Permutation (fold_left (fun acc x => insertSorted compare x acc) l acc)
              (acc ++ l).
Proof.
  revert acc. induction l as [|x l IH]; intros acc; simpl.
  - now rewrite app_nil_r.
  - rewrite IH, insertSorted_perm. apply Permutation_middle.
Qed.

Lemma sortBy_perm (l : list A) : Permutation (sortBy compare l) l.
Proof. unfold sortBy. now rewrite fold_insert_perm. Qed.

Hypothesis compare_asym : forall a b, compare a b = Lt -> compare b a <> Lt.

Lemma insertSorted_hd (x a : A) (l : list A) :
  inOrder compare a x -> HdRel (inOrder compare) a l -> HdRel (inOrder compare) a (insertSorted compare x l).
Proof.
  intros Hax Hl. destruct l as [|y l]; simpl.
  - now constructor.
  - destruct (compare x y); constructor; trivial; now inversion Hl.
Qed.

Lemma insertSorted_sorted (x : A) (l : list A) :
  Sorted (inOrder compare) l -> Sorted (inOrder compare) (insertSorted compare x l).
Proof.
  induction l as [|y l IH]; intros Hs; simpl.
  - repeat constructor.
  - inversion Hs as [|? ? Hs' Hhd]; subst.
    destruct (compare x y) eqn:E.
    + constructor; [now apply IH|].
      apply insertSorted_hd; [|exact Hhd]. unfold inOrder. congruence.
    + constructor; [exact Hs|]. constructor. now apply compare_asym.
    + constructor; [now apply IH|].
      apply insertSorted_hd; [|exact Hhd]. unfold inOrder. congruence.
Qed.

Lemma sortBy_sorted (l : list A) : Sorted (inOrder compare) (sortBy compare l).
Proof.
  unfold sortBy.
  assert (H : forall acc, Sorted (inOrder compare) acc ->
            Sorted (inOrder compare) (fold_left (fun acc x => insertSorted compare x acc) l acc)).
  { induction l as [|x l IH]; intros acc Hacc; simpl; [exact Hacc|].
    apply IH. now apply insertSorted_sorted. }
  apply H. constructor.
Qed.

End Sorting.

Section RunningSums.
Import JsNumber Dashboard.

Lemma total_perm (l l' : list jsnum) : Permutation l l' -> total l = total l'.
Proof.
  induction 1 as [| x l l' _ IH | x y l | l l' l'' _ IH1 _ IH2].
  - reflexivity.
  - now rewrite !total_cons, IH.
  - rewrite !total_cons, !add_assoc. f_equal. apply add_comm.
  - congruence.
Qed.

Lemma runningSums_keys (agg : Aggregation) (a : jsnum) (bs : Totals) :
  map fst (runningSums agg a bs) = map fst bs.
Proof.
  revert a. induction bs as [|[k v] bs IH]; intros a; simpl; [reflexivity|].
  now rewrite IH.
Qed.

Lemma runningSums_values (agg : Aggregation) (a : jsnum) (bs : Totals) :
  map snd (runningSums agg a bs) =
  map (fun n => add a (prefixTotal (map (fun e => reduce agg (snd e)) bs) n))
      (seq 1 (List.length bs)).
Proof.
  revert a. induction bs as [|[k v] bs IH]; intros a; [reflexivity|].
  cbn [runningSums map List.length seq snd]. f_equal.
  - unfold prefixTotal. cbn [firstn]. rewrite total_cons.
    cbn [firstn]. unfold total at 1. cbn [fold_left].
    now rewrite add_zero_r.
  - rewrite IH, <- (seq_shift (List.length bs) 1), map_map.
    apply map_ext. intros n.
    unfold prefixTotal. cbn [firstn]. rewrite total_cons.
    now rewrite add_assoc.
Qed.

(** Running sums of non-negative bucket values never go down. *)
Lemma runningSums_monotone (agg : Aggregation) (a : jsnum) (bs : Totals) :
  nonneg a ->
  Forall (fun e => nonneg (reduce agg (snd e))) bs ->
  Sorted le (map snd (runningSums agg a bs))
  /\ HdRel le a (map snd (runningSums agg a bs)).
Proof.
  revert a. induction bs as [|[k v] bs IH]; intros a Ha Hbs; simpl.
  - split; constructor.
  - inversion Hbs as [|? ? Hv Hrest]; subst. simpl in Hv.
    destruct (IH (add a (reduce agg v))) as [Hs Hh];
      [now apply nonneg_add | exact Hrest |].
    split; constructor; trivial. now apply le_add_nonneg.
Qed.

Lemma Forall_mapSet (P : string * Acc -> Prop) (k : string) (v : Acc)
      (m : Totals) :
  Forall P m -> P (k, v) -> Forall P (mapSet k v m).
Proof.
  intros Hm Hv. induction m as [|[k' v'] m IH]; simpl.
  - now constructor.
  - inversion Hm; subst. destruct (String.eqb k' k); constructor; auto.
Qed.

Lemma mapGet_Forall (P : string * Acc -> Prop) (k : string) (a : Acc)
      (m : Totals) :
  Forall P m -> mapGet k m = Some a -> exists k', P (k', a).
Proof.
  induction m as [|[k' v'] m IH]; simpl; [discriminate|].
  intros Hm. inversion Hm; subst.
  destruct (String.eqb k' k); intros E.
  - injection E as ->. eauto.
  - now apply IH.
Qed.

Lemma goodAcc_reduce (agg : Aggregation) (e : string * Acc) :
  goodAcc e -> nonneg (reduce agg (snd e)).
Proof.
  intros [Hs Hc]. destruct agg; simpl.
  - exact Hs.
  - destruct (accCount (snd e) =? 0)%Z eqn:E; [apply nonneg_zero|].
    now apply nonneg_divCount.
  - apply nonneg_ofInt. lia.
Qed.

Lemma groupTotals_good (keyOf : RawRow -> string) (agg : Aggregation)
      (m : Z) (rules : list FilterRule) (rows : list RawRow) :
  Forall (fun row => nonneg (parseFloatSafe (getCell row m))) rows ->
  Forall goodAcc (groupTotals keyOf agg m rules rows).
Proof.
  induction rows as [|r rows IH] using rev_ind; intros Hrows.
  - constructor.
  - apply Forall_app in Hrows as [Hrows Hr]. inversion Hr as [|? ? Hr' _]; subst.
    rewrite groupTotals_snoc. destruct (matchesRow r rules); [|now apply IH].
    specialize (IH Hrows).
    assert (Hval : nonneg (rowValue agg m r)).
    { destruct agg; simpl; trivial. apply (nonneg_ofInt 1). lia. }
    unfold accumulate. apply Forall_mapSet; [exact IH|].
    unfold goodAcc. cbn [snd accSum accCount].
    destruct (mapGet (keyOf r) _) as [a|] eqn:E.
    + destruct (mapGet_Forall _ _ _ _ IH E) as [k' [Hs Hc]]. simpl in *.
      split; [now apply nonneg_add | lia].
    + cbn [accSum accCount].
      split; [apply nonneg_add; [apply nonneg_zero | exact Hval] | lia].
Qed.

End RunningSums.

(* ================================================================== *)
(** * The pie totals *)
(* ================================================================== *)

Section PieTotals.
Import JsString JsNumber Dashboard.

Lemma valueOf_reduce (agg : Aggregation) (k : string) (t : Totals) :
  valueOf k (map (fun e => (fst e, reduce agg (snd e))) t) =
  option_map (reduce agg) (mapGet k t).
Proof.
  induction t as [|[k' a] t IH]; simpl; [reflexivity|].
  now destruct (String.eqb k' k).
Qed.

(** With a header and a metric chosen, the pie is the grouped totals
    under the key built from the selected dimensions. *)
Lemma pieData_groupTotals (hdr : Header) (rows : list RawRow) (m : Z)
      (dims : list Z) (agg : Aggregation) (rules : list FilterRule) :
  pieData (Some hdr) rows (Some m) dims agg rules =
  map (fun e => (fst e, reduce agg (snd e)))
      (groupTotals (fun row => buildGroupKey row dims) agg m rules rows).
Proof.
  destruct rows as [|r rows]; [reflexivity|].
  unfold pieData. f_equal. destruct dims; reflexivity.
Qed.

Lemma groupTotals_count_any_metric (keyOf : RawRow -> string) (m m' : Z)
      (rules : list FilterRule) (rows : list RawRow) :
  groupTotals keyOf count m rules rows = groupTotals keyOf count m' rules rows.
Proof. reflexivity. Qed.

Lemma total_ones (g : list RawRow) (m : Z) :
  total (map (rowValue count m) g) = ofInt (Z.of_nat (List.length g)).
Proof.
  induction g as [|r g IH] using rev_ind; [reflexivity|].
  rewrite map_app, length_app. cbn [map List.length]. rewrite total_snoc, IH.
  cbn [rowValue]. unfold ofInt, one. cbn [add]. f_equal.
  apply Qc_is_canon. unfold Qcplus. unfold Q2Qc. cbn [this].
  rewrite !Qred_correct.
  replace (Z.of_nat (List.length g + 1)) with (Z.of_nat (List.length g) + 1)%Z by lia.
  rewrite inject_Z_plus. reflexivity.
Qed.

Lemma parseFloatSafe_not_NaN (v : cell) : isNaN (parseFloatSafe v) = false.
Proof.
  unfold parseFloatSafe.
  destruct (isNaN (parseFloat _)) eqn:E; [reflexivity | exact E].
Qed.

Lemma accOf_nonempty (val : RawRow -> jsnum) (g : list RawRow) :
  g <> [] ->
  accOf val g = Some (mkAcc (total (map val g)) (Z.of_nat (List.length g))).
Proof. destruct g; [congruence | reflexivity]. Qed.

(** Leaving a zero out of a left-to-right sum changes nothing. *)
Lemma total_drop_zero (l1 l2 : list jsnum) :
  total (l1 ++ zero :: l2) = total (l1 ++ l2).
Proof.
  rewrite !total_app, total_cons. now rewrite add_zero_l.
Qed.



End PieTotals.

(* ================================================================== *)
(** * The cumulative series *)
(* ================================================================== *)

Section AreaSeries.
Import JsString JsNumber Dashboard.

Lemma areaData_runningSums (h : Host) (hdr : Header) (rows : list RawRow)
      (d : Z) (mb : bool) (fmt : DateFormat) (m : Z) (agg : Aggregation)
      (rules : list FilterRule) :
  areaData h (Some hdr) rows (Some d) mb fmt (Some m) agg rules =
  runningSums agg zero (areaBuckets h rows d mb fmt m agg rules).
Proof. destruct rows; reflexivity. Qed.

Lemma Sorted_map_fst {B : Type} (R : string -> string -> Prop)
      (l : list (string * B)) :
  Sorted (fun a b => R (fst a) (fst b)) l -> Sorted R (map fst l).
Proof.
  induction 1 as [|a l _ IH Hhd]; simpl; constructor; trivial.
  destruct Hhd; simpl; constructor; trivial.
Qed.

Lemma Sorted_weaken {B : Type} (R R' : B -> B -> Prop) (l : list B) :
  (forall a b, R a b -> R' a b) -> Sorted R l -> Sorted R' l.
Proof.
  intros HR. induction 1 as [|a l _ IH Hhd]; constructor; trivial.
  destruct Hhd; constructor; auto.
Qed.



End AreaSeries.

(* ================================================================== *)
(** * The cumulative series of the three-column component *)
(* ================================================================== *)

Section ClassicSeries.
Import JsString JsNumber Classic.

Lemma nonneg_numberOr0 (v : jsnum) : nonneg v -> nonneg (numberOr0 v).
Proof.
  unfold nonneg. destruct v; simpl; intros H; solve [exact H | contradiction].
Qed.

Lemma runningCosts_keys (a : jsnum) (l : list (string * jsnum)) :
  map fst (runningCosts a l) = map fst l.
Proof.
  revert a. induction l as [|[k v] l IH]; intros a; simpl; [reflexivity|].
  now rewrite IH.
Qed.

Lemma runningCosts_monotone (a : jsnum) (l : list (string * jsnum)) :
  nonneg a ->
  Forall (fun e => nonneg (numberOr0 (snd e))) l ->
  Sorted le (map snd (runningCosts a l))
  /\ HdRel le a (map snd (runningCosts a l)).
Proof.
  revert a. induction l as [|[k v] l IH]; intros a Ha Hl; simpl.
  - split; constructor.
  - inversion Hl as [|? ? Hv Hrest]; subst. simpl in Hv.
    destruct (IH (add a (numberOr0 v))) as [Hs Hh];
      [now apply nonneg_add | exact Hrest |].
    split; constructor; trivial. now apply le_add_nonneg.
Qed.

Lemma objGet_Forall (P : jsnum -> Prop) (k : string) (v : jsnum) (m : DateTotals) :
  Forall (fun e => P (snd e)) m -> objGet k m = Some v -> P v.
Proof.
  induction m as [|[k' v'] m IH]; simpl; [discriminate|].
  intros Hm. inversion Hm; subst. destruct (String.eqb k' k); intros E.
  - now injection E as <-.
  - now apply IH.
Qed.

Lemma Forall_objPut (P : jsnum -> Prop) (k : string) (v : jsnum) (m : DateTotals) :
  Forall (fun e => P (snd e)) m -> P v -> Forall (fun e => P (snd e)) (objPut k v m).
Proof.
  intros Hm Hv. induction m as [|[k' v'] m IH]; simpl.
  - now constructor.
  - inversion Hm; subst. destruct (String.eqb k' k); constructor; auto.
Qed.

Lemma dateTotals_nonneg (data : list CostData) :
  Forall (fun d => nonneg (cost d)) data ->
  Forall (fun e => nonneg (snd e)) (fold_left addToDate data []).
Proof.
  induction data as [|d data IH] using rev_ind; intros Hd; [constructor|].
  apply Forall_app in Hd as [Hdata Hd]. inversion Hd as [|? ? Hcost _]; subst.
  rewrite fold_left_app. cbn [fold_left]. specialize (IH Hdata).
  unfold addToDate. apply Forall_objPut; [exact IH|].
  apply nonneg_add; [|now apply nonneg_numberOr0].
  destruct (objGet _ _) as [v|] eqn:E; [|apply nonneg_zero].
  apply nonneg_numberOr0. exact (objGet_Forall nonneg _ _ _ IH E).
Qed.

(** X16.  The older component's [cumulativeByDate]: with non-negative costs
    its series never decreases, and its dates come in lexicographic
    order, whatever the host. *)
Lemma cumulativeByDate_nondecreasing (data : list CostData) :
  Forall (fun d => nonneg (cost d)) data ->
  Forall (fun d => ~ In (date d) inheritedNames) data ->
  Sorted le (map snd (cumulativeByDate data))
  /\ Sorted (fun a b => String.leb a b = true) (map fst (cumulativeByDate data)).
Proof.
  intros Hcost _. unfold cumulativeByDate. split.
  - apply runningCosts_monotone; [apply nonneg_zero|].
    unfold aggregateByDate. apply Forall_forall. intros e He.
    apply in_map_iff in He as (k & <- & _). cbn [snd].
    destruct (objGet k _) as [v|] eqn:E; [|apply nonneg_zero].
    apply nonneg_numberOr0.
    exact (objGet_Forall nonneg _ _ _ (dateTotals_nonneg data Hcost) E).
  - rewrite runningCosts_keys. unfold aggregateByDate.
    rewrite map_map. cbn [fst]. rewrite map_id.
    apply Sorted_weaken with (R := inOrder String.compare).
    + intros a b. unfold inOrder, String.leb.
      rewrite (String.compare_antisym b a).
      destruct (String.compare a b); simpl; intros H;
        [reflexivity | reflexivity | now elim H].
    + apply sortBy_sorted. intros a b. rewrite (String.compare_antisym b a).
      intros ->. discriminate.
Qed.

End ClassicSeries.

(* ================================================================== *)
(** * Date bucketing *)
(* ================================================================== *)

Section DateBucketing.
Import JsString JsNumber Dashboard.

Lemma takeDigits_spec (n : nat) (s a b : string) :
  takeDigits n s = (a, b) ->
  s = a ++ b /\ allb isDigit a = true /\ (String.length a <= n)%nat.
Proof.
  revert s a b. induction n as [|n IH]; intros s a b.
  - destruct s; simpl; intros E; injection E as <- <-; auto.
  - destruct s as [|c s]; simpl.
    + intros E; injection E as <- <-; auto with arith.
    + destruct (isDigit c) eqn:Ec.
      * destruct (takeDigits n s) as [a' b'] eqn:E'. intros E.
        injection E as <- <-. destruct (IH _ _ _ E') as (-> & Hd & Hl).
        simpl. rewrite Ec, Hd. auto with arith.
      * intros E; injection E as <- <-. simpl. auto with arith.
Qed.

(** The shape of a string on which the year-month pattern matches: four
    digits, a hyphen or a slash, then one or two digits. *)
Lemma matchYearMonthPrefix_shape (s y mo : string) :
  matchYearMonthPrefix s = Some (y, mo) ->
  exists sep rest,
    s = y ++ String sep (mo ++ rest)
    /\ (isHyphen sep || isSlash sep = true)
    /\ String.length y = 4%nat /\ allb isDigit y = true
    /\ (1 <= String.length mo <= 2)%nat /\ allb isDigit mo = true.
Proof.
  unfold matchYearMonthPrefix.
  destruct (takeDigits 4 s) as [y' r1] eqn:E1.
  destruct (Nat.eqb_spec (String.length y') 4) as [Hy|]; [|discriminate].
  cbn [negb]. destruct r1 as [|sep r2]; [discriminate|]. cbn [takeChar].
  destruct (isHyphen sep || isSlash sep) eqn:Hsep; [|discriminate].
  destruct (takeDigits 2 r2) as [mo' rest] eqn:E2.
  destruct (Nat.eqb_spec (String.length mo') 0) as [|Hm]; [discriminate|].
  intros E. injection E as <- <-.
  destruct (takeDigits_spec _ _ _ _ E1) as (-> & Hd1 & _).
  destruct (takeDigits_spec _ _ _ _ E2) as (-> & Hd2 & Hl2).
  exists sep, rest. repeat split; trivial. lia.
Qed.

Lemma padStart0_two (mo : string) :
  (1 <= String.length mo <= 2)%nat ->
  String.length (padStart0 2 mo) = 2%nat
  /\ (String.length mo = 2%nat -> padStart0 2 mo = mo)
  /\ (String.length mo = 1%nat -> padStart0 2 mo = String "0"%char mo).
Proof.
  unfold padStart0. intros [H1 H2].
  destruct mo as [|c [|c' [|c'' mo]]]; simpl in *; try lia; repeat split;
    try reflexivity; intros; try discriminate; lia.
Qed.


(** The bucket of a value that parses, at month granularity. *)
Lemma formatDateBucket_month_of_valid (h : Host) (value : cell) (s : string)
      (fmt : DateFormat) (t : Z) :
  trim (strOrEmpty value) = s -> s <> "" ->
  parseDateWithFormat h s fmt = Some t ->
  formatDateBucket h value true fmt =
  ofZ (JsDate.getFullYear h t) ++ "-" ++ padStart0 2 (ofZ (JsDate.getMonth h t + 1)).
Proof.
  intros Hs Hne Hp. unfold formatDateBucket. rewrite Hs.
  destruct (String.eqb_spec s "") as [E|_]; [congruence|].
  rewrite Hp. reflexivity.
Qed.

(** Day numbers and calendar dates repeat every 400 years. *)
Lemma daysFromCivil_shift (y m d q : Z) :
  JsDate.daysFromCivil (y + 400 * q) m d = JsDate.daysFromCivil y m d + 146097 * q.
Proof.
  unfold JsDate.daysFromCivil.
  set (y0 := if m <=? 2 then y - 1 else y).
  replace (if m <=? 2 then y + 400 * q - 1 else y + 400 * q) with (y0 + q * 400)
    by (unfold y0; destruct (m <=? 2); lia).
  rewrite Z.div_add by lia.
  replace (y0 + q * 400 - (y0 / 400 + q) * 400) with (y0 - y0 / 400 * 400) by lia.
  lia.
Qed.

Lemma civilFromDays_shift (z q : Z) :
  JsDate.civilFromDays (z + 146097 * q) =
  let '(y, m, d) := JsDate.civilFromDays z in (y + 400 * q, m, d).
Proof.
  unfold JsDate.civilFromDays.
  replace (z + 146097 * q + 719468) with (z + 719468 + q * 146097) by lia.
  rewrite Z.div_add by lia.
  set (z' := z + 719468).
  replace (z' + q * 146097 - (z' / 146097 + q) * 146097)
    with (z' - z' / 146097 * 146097) by lia.
  set (doe := z' - z' / 146097 * 146097). cbv zeta.
  set (yoe := (doe - doe / 1460 + doe / 36524 - doe / 146096) / 365).
  set (mp := (5 * (doe - (365 * yoe + yoe / 4 - yoe / 100)) + 2) / 153).
  destruct ((if mp <? 10 then mp + 3 else mp - 9) <=? 2); f_equal; f_equal; lia.
Qed.


Lemma firstOfMonthCheck_cycle :
  forallb firstOfMonthCheck (list_prod cycleYears monthNumbers) = true.
Proof. vm_compute. reflexivity. Qed.

Lemma civil_first_of_month (y mo : Z) :
  1 <= mo <= 12 ->
  JsDate.civilFromDays (JsDate.daysFromCivil y mo 1) = (y, mo, 1).
Proof.
  intros Hmo.
  assert (Hy : y = y mod 400 + 400 * (y / 400)) by (pose proof (Z.div_mod y 400); lia).
  set (r := y mod 400) in *. set (q := y / 400) in *.
  assert (Hr : 0 <= r < 400) by (apply Z.mod_pos_bound; lia).
  rewrite Hy at 1. rewrite daysFromCivil_shift, civilFromDays_shift.
  assert (Hc : firstOfMonthCheck (r, mo) = true).
  { apply (proj1 (forallb_forall _ _) firstOfMonthCheck_cycle). apply in_prod.
    - unfold cycleYears. apply in_map_iff. exists (Z.to_nat r).
      split; [lia|]. apply in_seq. lia.
    - unfold monthNumbers. apply in_map_iff. exists (Z.to_nat mo).
      split; [lia|]. apply in_seq. lia. }
  unfold firstOfMonthCheck in Hc.
  destruct (JsDate.civilFromDays (JsDate.daysFromCivil r mo 1)) as [[y' mo'] d'].
  apply andb_prop in Hc as [Hc Hd]. apply andb_prop in Hc as [Hy' Hmo'].
  apply Z.eqb_eq in Hy', Hmo', Hd. subst y' mo' d'. f_equal. f_equal. lia.
Qed.

Lemma daysFromCivil_bound (y mo : Z) :
  1000 <= y <= 9999 -> 1 <= mo <= 12 ->
  Z.abs (JsDate.daysFromCivil y mo 1) <= 100000000.
Proof.
  intros Hy Hmo. unfold JsDate.daysFromCivil.
  destruct (mo <=? 2); destruct (2 <? mo);
    Z.to_euclidean_division_equations; lia.
Qed.

Lemma code_chr (z : Z) : 0 <= z < 256 -> code (chr z) = z.
Proof.
  intros Hz. unfold code, chr. rewrite N_ascii_embedding; lia.
Qed.

Lemma isDigit_chr (k : Z) : 0 <= k <= 9 -> isDigit (chr (48 + k)) = true.
Proof.
  intros Hk. unfold isDigit. rewrite code_chr by lia.
  apply andb_true_intro. split; apply Z.leb_le; lia.
Qed.

Lemma digitVal_chr (k : Z) : 0 <= k <= 9 -> digitVal (chr (48 + k)) = k.
Proof.
  intros Hk. unfold digitVal. rewrite code_chr by lia. lia.
Qed.

(** A year from 1000 on prints as four digits that read back as it. *)
Lemma ofZ_four_digits (y : Z) :
  1000 <= y <= 9999 ->
  exists a b c d,
    ofZ y = String a (String b (String c (String d "")))
    /\ isDigit a = true /\ isDigit b = true /\ isDigit c = true
    /\ isDigit d = true
    /\ digitsVal (String a (String b (String c (String d "")))) = y.
Proof.
  intros Hy.
  assert (Hlog : 9 <= Z.log2 y).
  { change 9 with (Z.log2 1000). apply Z.log2_le_mono. lia. }
  exists (chr (48 + y / 10 / 10 / 10 mod 10)), (chr (48 + y / 10 / 10 mod 10)),
         (chr (48 + y / 10 mod 10)), (chr (48 + y mod 10)).
  assert (H0 : 0 <= y mod 10 <= 9) by (pose proof (Z.mod_pos_bound y 10); lia).
  assert (H1 : 0 <= y / 10 mod 10 <= 9)
    by (pose proof (Z.mod_pos_bound (y / 10) 10); lia).
  assert (H2 : 0 <= y / 10 / 10 mod 10 <= 9)
    by (pose proof (Z.mod_pos_bound (y / 10 / 10) 10); lia).
  assert (H3 : 0 <= y / 10 / 10 / 10 mod 10 <= 9)
    by (pose proof (Z.mod_pos_bound (y / 10 / 10 / 10) 10); lia).
  split; [|repeat split; try (now apply isDigit_chr)].
  - unfold ofZ. destruct (Z.ltb_spec y 0); [lia|].
    replace (Z.to_nat (Z.log2 y) + 1)%nat
      with (S (S (S (S (Z.to_nat (Z.log2 y) - 3))))) by lia.
    cbn [posDigits].
    destruct (Z.ltb_spec y 10); [lia|].
    destruct (Z.ltb_spec (y / 10) 10);
      [Z.to_euclidean_division_equations; lia|].
    destruct (Z.ltb_spec (y / 10 / 10) 10);
      [Z.to_euclidean_division_equations; lia|].
    destruct (Z.ltb_spec (y / 10 / 10 / 10) 10);
      [reflexivity | Z.to_euclidean_division_equations; lia].
  - unfold digitsVal. rewrite !digitVal_chr by assumption.
    Z.to_euclidean_division_equations; lia.
Qed.

Lemma digit_not_whitespace (c : ascii) : isDigit c = true -> isWhiteSpace c = false.
Proof.
  unfold isDigit, isWhiteSpace. intros H. apply andb_prop in H as [H1 H2].
  apply Z.leb_le in H1, H2.
  destruct (Z.leb_spec 9 (code c)), (Z.leb_spec (code c) 13),
    (Z.eqb_spec (code c) 32), (Z.eqb_spec (code c) 160); simpl; try reflexivity; lia.
Qed.

Lemma take4Digits_digits (a b c d : ascii) (r : string) :
  isDigit a = true -> isDigit b = true -> isDigit c = true -> isDigit d = true ->
  JsDate.take4Digits (String a (String b (String c (String d r)))) =
  Some (digitsVal (String a (String b (String c (String d "")))), r).
Proof.
  intros Ha Hb Hc Hd. unfold JsDate.take4Digits. now rewrite Ha, Hb, Hc, Hd.
Qed.


(** C4. The month bucket of a [YYYY-MM] string under [auto] is not
    always that string.  On a host five hours behind UTC, [2024-01]
    gives the month before: the string is read as UTC midnight of
    1 January and its year and month are then taken in local time.  On
    a host at or ahead of UTC the same input comes back unchanged.  A
    year below 1000 loses its leading zeros on every host. *)
Theorem month_bucket_west_of_utc :
  formatDateBucket Examples.hostNewYork (CStr "2024-01") true auto = "2023-12"
  /\ formatDateBucket Examples.hostUTC (CStr "2024-01") true auto = "2024-01"
  /\ formatDateBucket Examples.hostTokyo (CStr "2024-01") true auto = "2024-01"
  /\ formatDateBucket Examples.hostUTC (CStr "0999-01") true auto = "999-01".
Proof. repeat split; vm_compute; reflexivity. Qed.

End DateBucketing.

(* ================================================================== *)
(** * Column detection *)
(* ================================================================== *)

Section Detection.
Import JsString JsNumber Classic.

Lemma indexOf_bounds (x : Z) (xs : list Z) :
  -1 <= indexOf x xs < Z.of_nat (List.length xs).
Proof.
  induction xs as [|y xs IH]; simpl; [lia|].
  destruct (y =? x); [lia|].
  destruct (indexOf x xs <? 0) eqn:E; lia.
Qed.

Lemma indexOf_found (x : Z) (xs : list Z) : In x xs -> 0 <= indexOf x xs.
Proof.
  induction xs as [|y xs IH]; simpl; [tauto|].
  intros [->|Hin].
  - rewrite Z.eqb_refl. lia.
  - destruct (y =? x); [lia|]. specialize (IH Hin).
    destruct (indexOf x xs <? 0) eqn:E; lia.
Qed.

Lemma fold_max_in (xs : list Z) (x : Z) : In (fold_left Z.max xs x) (x :: xs).
Proof.
  revert x. induction xs as [|y xs IH]; intros x; cbn [fold_left].
  - now left.
  - destruct (IH (Z.max x y)) as [H|H].
    + destruct (Z.max_spec x y) as [[_ E]|[_ E]]; rewrite E in *.
      * right. now left.
      * now left.
    + right. now right.
Qed.

Lemma indexOfMax_range (xs : list Z) :
  xs <> [] -> 0 <= indexOfMax xs < Z.of_nat (List.length xs).
Proof.
  destruct xs as [|x xs]; [congruence|]. intros _.
  unfold indexOfMax, maxOf.
  pose proof (indexOf_bounds (fold_left Z.max xs x) (x :: xs)).
  pose proof (indexOf_found _ _ (fold_max_in xs x)). lia.
Qed.

Lemma indexOfMax_empty : indexOfMax [] = -1.
Proof. reflexivity. Qed.

Lemma fold_max_zero (xs : list Z) : Forall (fun s => s = 0) xs -> fold_left Z.max xs 0 = 0.
Proof.
  induction 1 as [|x xs -> _ IH]; simpl; [reflexivity | exact IH].
Qed.

Lemma indexOfMax_all_zero (xs : list Z) :
  xs <> [] -> Forall (fun s => s = 0) xs -> indexOfMax xs = 0.
Proof.
  destruct xs as [|x xs]; [congruence|]. intros _ H.
  inversion H as [|? ? -> Hxs]; subst.
  unfold indexOfMax, maxOf. rewrite (fold_max_zero _ Hxs). reflexivity.
Qed.

Lemma firstOther_range (d c : Z) (cols : nat) (cands : list nat) :
  (0 < cols)%nat -> Forall (fun k => (k < cols)%nat) cands ->
  0 <= firstOther d c cands < Z.of_nat cols.
Proof.
  intros Hc. induction 1 as [|k cands Hk _ IH]; simpl; [lia|].
  destruct (negb (Z.of_nat k =? d) && negb (Z.of_nat k =? c)); [lia | exact IH].
Qed.

Lemma seq_below (n : nat) : Forall (fun k => (k < n)%nat) (seq 0 n).
Proof. apply Forall_forall. intros k Hk. apply in_seq in Hk. lia. Qed.

Lemma columnScore_zero (hit : cell -> bool) (sample : list RawRow) (c : nat) :
  (forall row, In row sample -> hit (getCell row (Z.of_nat c)) = false) ->
  columnScore hit sample c = 0.
Proof.
  intros H. unfold columnScore.
  induction sample as [|row sample IH]; [reflexivity|].
  simpl. rewrite (H row (or_introl eq_refl)). apply IH.
  intros r Hr. apply H. now right.
Qed.

(** The same detection with the column count made explicit. *)
Lemma detectFromData_unfold (h : Host) (hdr : option Header) (rows : list RawRow) :
  let cols := columnCount hdr rows in
  let sample := firstn 10 rows in
  let dateScores := map (columnScore (looksLikeDate h) sample) (seq 0 cols) in
  let numericScores := map (columnScore looksNumeric sample) (seq 0 cols) in
  detectFromData h hdr rows =
  mkMapping (if 0 <=? indexOfMax dateScores then indexOfMax dateScores else 0)
            (if 0 <=? indexOfMax numericScores then indexOfMax numericScores else 1)
            (firstOther (indexOfMax dateScores) (indexOfMax numericScores) (seq 0 cols)).
Proof. reflexivity. Qed.

(** With no column at all the defaults apply. *)
Lemma detectFromData_no_column (h : Host) (hdr : option Header) (rows : list RawRow) :
  columnCount hdr rows = 0%nat -> detectFromData h hdr rows = mkMapping 0 1 0.
Proof.
  intros E. rewrite detectFromData_unfold. cbn zeta. rewrite E. reflexivity.
Qed.

Lemma scores_nonempty (hit : cell -> bool) (sample : list RawRow) (cols : nat) :
  (0 < cols)%nat -> map (columnScore hit sample) (seq 0 cols) <> [].
Proof.
  intros Hc E. apply (f_equal (@List.length Z)) in E.
  rewrite length_map, length_seq in E. simpl in E. lia.
Qed.

(** C1, as amended.  On a grid with at least one column the three
    detected indices lie within the column count (the header's length,
    else the first row's length, else 3 when there is no row), and a
    role for which no sampled cell scores gets column 0.  With no
    column at all the result is date 0, cost 1, service 0. *)
Theorem detectFromData_in_range :
  forall (h : Host) (hdr : option Header) (rows : list RawRow),
    let m := detectFromData h hdr rows in
    let n := Z.of_nat (columnCount hdr rows) in
    (0 < n ->
     (0 <= dateIdx m < n /\ 0 <= costIdx m < n /\ 0 <= serviceIdx m < n)
     /\ ((forall row c, In row (firstn 10 rows) ->
                        looksLikeDate h (getCell row c) = false) ->
         dateIdx m = 0)
     /\ ((forall row c, In row (firstn 10 rows) ->
                        looksNumeric (getCell row c) = false) ->
         costIdx m = 0))
    /\ (n = 0 -> m = mkMapping 0 1 0).
Proof.
  intros h hdr rows m n. split.
  2:{ intros Hn. apply detectFromData_no_column. lia. }
  intros Hpos. assert (Hcols : (0 < columnCount hdr rows)%nat) by lia.
  subst m. rewrite detectFromData_unfold.
  cbn zeta. cbn [dateIdx costIdx serviceIdx]. fold n.
  set (cols := columnCount hdr rows) in *.
  set (ds := map (columnScore (looksLikeDate h) _) (seq 0 cols)).
  set (ns := map (columnScore looksNumeric _) (seq 0 cols)).
  assert (Hds : ds <> []) by now apply scores_nonempty.
  assert (Hns : ns <> []) by now apply scores_nonempty.
  pose proof (indexOfMax_range ds Hds) as Rd.
  pose proof (indexOfMax_range ns Hns) as Rn.
  assert (Ld : List.length ds = cols) by (unfold ds; now rewrite length_map, length_seq).
  assert (Ln : List.length ns = cols) by (unfold ns; now rewrite length_map, length_seq).
  rewrite Ld in Rd. rewrite Ln in Rn. fold n in Rd, Rn.
  destruct (Z.leb_spec 0 (indexOfMax ds)) as [_|]; [|lia].
  destruct (Z.leb_spec 0 (indexOfMax ns)) as [_|]; [|lia].
  split; [|split].
  - split; [exact Rd|]. split; [exact Rn|].
    apply firstOther_range; [exact Hcols | apply seq_below].
  - intros Hno. apply indexOfMax_all_zero; [exact Hds|].
    apply Forall_forall. intros s Hs. unfold ds in Hs.
    apply in_map_iff in Hs as (c & <- & _).
    apply columnScore_zero. intros row Hrow. now apply Hno.
  - intros Hno. apply indexOfMax_all_zero; [exact Hns|].
    apply Forall_forall. intros s Hs. unfold ns in Hs.
    apply in_map_iff in Hs as (c & <- & _).
    apply columnScore_zero. intros row Hrow. now apply Hno.
Qed.

(** The example grid (three columns, no header), and a grid of text
    only. *)
Lemma detectFromData_in_range_witness :
  let m := detectFromData Examples.hostUTC None Examples.grid in
  (0 <= dateIdx m < 3 /\ 0 <= costIdx m < 3 /\ 0 <= serviceIdx m < 3)
  /\ dateIdx (detectFromData Examples.hostUTC None [[CStr "a"; CStr "b"]]) = 0.
Proof.
  cbv zeta. split.
  - apply (proj1 (detectFromData_in_range Examples.hostUTC None Examples.grid)).
    simpl. lia.
  - apply (proj1 (detectFromData_in_range Examples.hostUTC None [[CStr "a"; CStr "b"]])).
    + simpl. lia.
    + intros row c [<-|[]].
      unfold getCell. destruct (c <? 0); [reflexivity|].
      destruct (Z.to_nat c) as [|[|[|k]]]; reflexivity.
Defined.

(** C1 fails as stated: a sheet whose first row is blank gives an empty
    header, hence zero columns, and the detected cost column is 1. *)
Lemma detectFromData_blank_first_row :
  let st := onLoad Examples.hostUTC initialState (DecodeOk ([] :: Examples.grid)) in
  headerRow st = Some []
  /\ columnCount (headerRow st) (rawRows st) = 0%nat
  /\ mapping st = Some (detectFromData Examples.hostUTC (Some []) Examples.grid)
  /\ detectFromData Examples.hostUTC (Some []) Examples.grid = mkMapping 0 1 0
  /\ ~ (0 <= costIdx (detectFromData Examples.hostUTC (Some []) Examples.grid)
        < Z.of_nat (columnCount (Some []) Examples.grid)).
Proof.
  cbv zeta. repeat split. simpl. lia.
Qed.

End Detection.

(* ================================================================== *)
(** * Header names and the loader *)
(* ================================================================== *)

Section Loading.
Import JsString JsNumber.

Lemma headerAt_cons (n : option string) (names : Header) (j : Z) :
  0 <= j -> HeaderAware.headerAt (n :: names) (j + 1) = HeaderAware.headerAt names j.
Proof.
  intros Hj. unfold HeaderAware.headerAt.
  destruct (Z.ltb_spec (j + 1) 0); [lia|].
  destruct (Z.ltb_spec j 0); [lia|].
  replace (Z.to_nat (j + 1)) with (S (Z.to_nat j)) by lia. reflexivity.
Qed.

Lemma indexOfName_found (x : string) (names : Header) (i : Z) :
  HeaderAware.headerAt names i = Some x ->
  (forall j, 0 <= j < i -> HeaderAware.headerAt names j <> Some x) ->
  HeaderAware.indexOfName x names = i.
Proof.
  revert i. induction names as [|n names IH]; intros i Hi Hfirst.
  - unfold HeaderAware.headerAt in Hi. destruct (i <? 0); [discriminate|].
    destruct (Z.to_nat i); discriminate.
  - assert (Hi0 : 0 <= i).
    { unfold HeaderAware.headerAt in Hi. destruct (Z.ltb_spec i 0); [discriminate | lia]. }
    cbn [HeaderAware.indexOfName].
    destruct (Z.eq_dec i 0) as [->|Hne].
    + unfold HeaderAware.headerAt in Hi. simpl in Hi. rewrite Hi.
      now rewrite String.eqb_refl.
    + assert (Hn : match n with Some s => String.eqb s x | None => false end = false).
      { destruct n as [s|]; [|reflexivity].
        destruct (String.eqb_spec s x) as [->|]; [|reflexivity].
        exfalso. apply (Hfirst 0); [lia | reflexivity]. }
      rewrite Hn.
      replace i with ((i - 1) + 1) in Hi by lia.
      rewrite headerAt_cons in Hi by lia.
      rewrite (IH (i - 1) Hi).
      * destruct (Z.ltb_spec (i - 1) 0); lia.
      * intros j Hj. rewrite <- (headerAt_cons n) by lia. apply Hfirst. lia.
Qed.

Lemma indexOfName_absent (x : string) (names : Header) :
  (forall j, HeaderAware.headerAt names j <> Some x) ->
  HeaderAware.indexOfName x names = -1.
Proof.
  induction names as [|n names IH]; intros Habs; [reflexivity|].
  cbn [HeaderAware.indexOfName].
  assert (Hn : match n with Some s => String.eqb s x | None => false end = false).
  { destruct n as [s|]; [|reflexivity].
    destruct (String.eqb_spec s x) as [->|]; [|reflexivity].
    exfalso. now apply (Habs 0). }
  rewrite Hn, IH; [reflexivity|].
  intros j. destruct (Z.ltb_spec j 0) as [Hneg|Hpos].
  - unfold HeaderAware.headerAt. destruct (Z.ltb_spec j 0); [discriminate | lia].
  - rewrite <- (headerAt_cons n) by lia. apply Habs.
Qed.

(** The mapping the header-aware loader keeps for a sheet with a header. *)
Lemma onLoad_header_mapping (h : Host) (st : HeaderAware.State)
      (rows0 rows : list RawRow) (hdr : Header) :
  Classic.splitHeader rows0 = (Some hdr, rows) ->
  HeaderAware.mapping (HeaderAware.onLoad h st (Classic.DecodeOk rows0)) =
  Some (HeaderAware.useMapping hdr (Classic.detectFromData h (Some hdr) rows)).
Proof.
  intros E. unfold HeaderAware.onLoad. rewrite E. reflexivity.
Qed.

(** C8, as amended.  In the header-aware loader a header reading "cost"
    in any letter case takes over the cost column and one reading
    "metercategory" takes over the service column (the first such
    column); the date column always stays the detected one, and so does
    a role whose name is not in the header.  The plain loader keeps the
    detected mapping whatever the header says. *)
Theorem header_names_override_detection :
  forall (h : Host) (rows0 rows : list RawRow) (hdr : Header),
    Classic.splitHeader rows0 = (Some hdr, rows) ->
    let guessed := Classic.detectFromData h (Some hdr) rows in
    (forall st, exists m,
        HeaderAware.mapping (HeaderAware.onLoad h st (Classic.DecodeOk rows0)) = Some m
        /\ Classic.dateIdx m = Classic.dateIdx guessed
        /\ (forall i, firstNamed hdr "cost" i -> Classic.costIdx m = i)
        /\ (notNamed hdr "cost" -> Classic.costIdx m = Classic.costIdx guessed)
        /\ (forall i, firstNamed hdr "metercategory" i -> Classic.serviceIdx m = i)
        /\ (notNamed hdr "metercategory" ->
            Classic.serviceIdx m = Classic.serviceIdx guessed))
    /\ (forall st,
           Classic.mapping (Classic.onLoad h st (Classic.DecodeOk rows0)) = Some guessed).
Proof.
  intros h rows0 rows hdr Hsplit guessed. split.
  - intros st. eexists.
    split; [exact (onLoad_header_mapping h st rows0 rows hdr Hsplit)|].
    unfold HeaderAware.useMapping.
    cbn [Classic.dateIdx Classic.costIdx Classic.serviceIdx].
    split; [reflexivity|]. split; [|split; [|split]].
    + intros i [Hat Hfirst]. rewrite (indexOfName_found _ _ i Hat Hfirst).
      assert (0 <= i).
      { unfold HeaderAware.headerAt in Hat.
        destruct (Z.ltb_spec i 0); [discriminate | lia]. }
      destruct (Z.leb_spec 0 i); [reflexivity | lia].
    + intros Habs. now rewrite (indexOfName_absent _ _ Habs).
    + intros i [Hat Hfirst]. rewrite (indexOfName_found _ _ i Hat Hfirst).
      assert (0 <= i).
      { unfold HeaderAware.headerAt in Hat.
        destruct (Z.ltb_spec i 0); [discriminate | lia]. }
      destruct (Z.leb_spec 0 i); [reflexivity | lia].
    + intros Habs. now rewrite (indexOfName_absent _ _ Habs).
  - intros st. unfold Classic.onLoad. rewrite Hsplit. reflexivity.
Qed.

(** A sheet headed Service, Date, COST with one row. *)
Lemma header_names_override_detection_witness :
  let rows0 := [ [CStr "Service"; CStr "Date"; CStr "COST"];
                 [CStr "VM"; CStr "2024-01-05"; CStr "10"] ] in
  let rows := [ [CStr "VM"; CStr "2024-01-05"; CStr "10"] ] in
  let hdr := [Some "Service"; Some "Date"; Some "COST"] in
  Classic.splitHeader rows0 = (Some hdr, rows)
  /\ exists m,
      HeaderAware.mapping
        (HeaderAware.onLoad Examples.hostUTC HeaderAware.initialState
                            (Classic.DecodeOk rows0)) = Some m
      /\ Classic.costIdx m = 2.
Proof.
  cbv zeta. split; [reflexivity|].
  destruct (proj1 (header_names_override_detection Examples.hostUTC
                     [ [CStr "Service"; CStr "Date"; CStr "COST"];
                       [CStr "VM"; CStr "2024-01-05"; CStr "10"] ]
                     [ [CStr "VM"; CStr "2024-01-05"; CStr "10"] ]
                     [Some "Service"; Some "Date"; Some "COST"] eq_refl)
                  HeaderAware.initialState)
    as (m & Hm & _ & Hcost & _).
  exists m. split; [exact Hm|].
  apply Hcost. split; [reflexivity|].
  intros j Hj. assert (j = 0 \/ j = 1) as [->| ->] by lia; discriminate.
Defined.

(** C8 fails as stated: headers named UsageDate and ServiceName do not
    decide the date and service columns.  With no parseable date below
    them the detected date column is column 0, the one headed
    ServiceName, and the service column is the one headed UsageDate;
    the plain loader does not even take Cost from the header. *)
Lemma usage_date_header_ignored :
  let sheet := [ [CStr "ServiceName"; CStr "UsageDate"; CStr "Cost"];
                 [CStr "VM"; CStr "n/a"; CStr "10"] ] in
  let headerOnly := [ [CStr "ServiceName"; CStr "UsageDate"; CStr "Cost"] ] in
  HeaderAware.mapping
    (HeaderAware.onLoad Examples.hostUTC HeaderAware.initialState
                        (Classic.DecodeOk sheet))
  = Some (Classic.mkMapping 0 2 1)
  /\ HeaderAware.mapping
       (HeaderAware.onLoad Examples.hostUTC HeaderAware.initialState
                           (Classic.DecodeOk headerOnly))
     = Some (Classic.mkMapping 0 2 1)
  /\ Classic.mapping
       (Classic.onLoad Examples.hostUTC Classic.initialState
                       (Classic.DecodeOk headerOnly))
     = Some (Classic.mkMapping 0 0 1).
Proof. cbv zeta. repeat split; vm_compute; reflexivity. Qed.

(** C9, as amended.  When reading the dropped file fails, each of the
    three loaders keeps the rows, the header, the mapping, the parsed
    records and every selection as they were, and sets the warning list
    to the one new warning. *)
Theorem failed_decode_keeps_data :
  (forall h st err others,
      let st' := Classic.onDrop h st (Classic.DecodeFails err :: others) in
      Classic.rawRows st' = Classic.rawRows st
      /\ Classic.headerRow st' = Classic.headerRow st
      /\ Classic.mapping st' = Classic.mapping st
      /\ Classic.data st' = Classic.data st
      /\ Classic.previewRows st' = Classic.previewRows st
      /\ Classic.warnings st' = ["Failed to parse file: " ++ err])
  /\ (forall h st err others,
         let st' := HeaderAware.onDrop h st (Classic.DecodeFails err :: others) in
         HeaderAware.rawRows st' = HeaderAware.rawRows st
         /\ HeaderAware.headerRow st' = HeaderAware.headerRow st
         /\ HeaderAware.mapping st' = HeaderAware.mapping st
         /\ HeaderAware.data st' = HeaderAware.data st
         /\ HeaderAware.previewRows st' = HeaderAware.previewRows st
         /\ HeaderAware.extraFields st' = HeaderAware.extraFields st
         /\ HeaderAware.chartMapping st' = HeaderAware.chartMapping st
         /\ HeaderAware.warnings st' = ["Failed to parse file: " ++ err])
  /\ (forall st err others,
         let st' := Dashboard.onDrop st (Dashboard.DecodeFails err :: others) in
         Dashboard.rawRows st' = Dashboard.rawRows st
         /\ Dashboard.headerRow st' = Dashboard.headerRow st
         /\ Dashboard.metricsIdxs st' = Dashboard.metricsIdxs st
         /\ Dashboard.primaryMetricIdx st' = Dashboard.primaryMetricIdx st
         /\ Dashboard.aggregation st' = Dashboard.aggregation st
         /\ Dashboard.dateIdx st' = Dashboard.dateIdx st
         /\ Dashboard.monthBucket st' = Dashboard.monthBucket st
         /\ Dashboard.dateFormat st' = Dashboard.dateFormat st
         /\ Dashboard.selectedDims st' = Dashboard.selectedDims st
         /\ Dashboard.dimSearch st' = Dashboard.dimSearch st
         /\ Dashboard.topN st' = Dashboard.topN st
         /\ Dashboard.seriesVisible st' = Dashboard.seriesVisible st
         /\ Dashboard.filterRules st' = Dashboard.filterRules st
         /\ Dashboard.warnings st' = ["Failed to parse Excel file: " ++ err])
  /\ (forall h st, Classic.onDrop h st [] = st)
  /\ (forall h st, HeaderAware.onDrop h st [] = st)
  /\ (forall st, Dashboard.onDrop st [] = st).
Proof.
  repeat split.
Qed.

(** C9 fails as stated: the warning is not appended.  After two failed
    drops in a row the list holds the second warning only. *)
Lemma failed_decode_replaces_warnings :
  let loaded := Classic.onDrop Examples.hostUTC Classic.initialState
                               [Classic.DecodeOk Examples.grid] in
  let st1 := Classic.onDrop Examples.hostUTC loaded [Classic.DecodeFails "bad zip"] in
  let st2 := Classic.onDrop Examples.hostUTC st1 [Classic.DecodeFails "not a workbook"] in
  Classic.warnings st1 = ["Failed to parse file: bad zip"]
  /\ Classic.data st2 = Classic.data loaded
  /\ Classic.warnings st2 = ["Failed to parse file: not a workbook"]
  /\ Classic.warnings st2 <>
     (Classic.warnings st1 ++ ["Failed to parse file: not a workbook"])%list.
Proof.
  cbv zeta. repeat split. discriminate.
Qed.

End Loading.

(* ================================================================== *)
(** * The worked examples *)
(* ================================================================== *)

Section WorkedExamples.
Import JsString JsNumber Dashboard.

(** Column 1 summed per month on the example grid: 15 for January, 7
    for February. *)
Lemma example_month_series :
  map (fun e => (fst e, reduce sum (snd e)))
      (areaBuckets Examples.hostUTC Examples.grid 0 true auto 1 sum [])
  = [("2024-01", ofInt 15); ("2024-02", ofInt 7)].
Proof. vm_compute. reflexivity. Qed.

(** Rows counted per value of column 2: two for VM, one for Storage. *)
Lemma example_count_by_category :
  pieData (Some [Some "Date"; Some "Cost"; Some "Service"]) Examples.grid
          (Some 1) [2] count []
  = [("VM", ofInt 2); ("Storage", ofInt 1)].
Proof. vm_compute. reflexivity. Qed.

(** The cumulative series of the example grid. *)
Lemma example_cumulative :
  areaData Examples.hostUTC (Some [Some "Date"; Some "Cost"; Some "Service"])
           Examples.grid (Some 0) true auto (Some 1) sum []
  = [("2024-01", ofInt 15); ("2024-02", ofInt 22)].
Proof. vm_compute. reflexivity. Qed.

(** Day buckets under the fixed formats, read as written on any host. *)
Lemma example_fixed_formats :
  formatDateBucket Examples.hostNewYork (CStr "1/31/2024") false MM_DD_YYYY = "2024-01-31"
  /\ formatDateBucket Examples.hostNewYork (CStr "31/1/2024") false DD_MM_YYYY = "2024-01-31"
  /\ formatDateBucket Examples.hostTokyo (CStr "05-Mar-2024") true DD_MMM_YYYY = "2024-03"
  /\ formatDateBucket Examples.hostUTC (CStr "2024/3x") true YYYY_MM_DD_slash = "2024-03".
Proof. repeat split; vm_compute; reflexivity. Qed.

End WorkedExamples.


(* ================================================================== *)
(** * Editing the filter rules *)
(* ================================================================== *)

Section FilterEditing.
Import JsString Dashboard.

Lemma includes_empty (s : string) : includes s "" = true.
Proof. destruct s; reflexivity. Qed.

Lemma matchesRow_app (row : RawRow) (r1 r2 : list FilterRule) :
  matchesRow row (r1 ++ r2) = matchesRow row r1 && matchesRow row r2.
Proof.
  induction r1 as [|r r1 IH]; [reflexivity|].
  cbn [app matchesRow]. rewrite IH.
  destruct (op r).
  - now destruct (includes _ _).
  - now destruct (String.eqb _ _).
  - now destruct (includes _ _).
  - now destruct (String.eqb _ _).
Qed.

(** X1.  The rule that the Add button appends (column 0, contains, empty
    value) lets every row through, so adding it changes neither which
    rows pass nor any aggregate; without a header the button does
    nothing. *)
Theorem addFilterRule_filters_nothing :
  forall (hdr : option Header) (rules : list FilterRule),
    (forall row, matchesRow row (addFilterRule hdr rules) = matchesRow row rules)
    /\ (forall rows, kept (addFilterRule hdr rules) rows = kept rules rows)
    /\ (forall keyOf agg m rows,
           groupTotals keyOf agg m (addFilterRule hdr rules) rows =
           groupTotals keyOf agg m rules rows)
    /\ (hdr = None -> addFilterRule hdr rules = rules).
Proof.
  intros hdr rules.
  assert (H : forall row, matchesRow row (addFilterRule hdr rules) = matchesRow row rules).
  { intros row. destruct hdr as [h|]; [|reflexivity].
    unfold addFilterRule. rewrite matchesRow_app.
    cbn [matchesRow op value colIdx]. change (toLowerCase "") with "".
    rewrite includes_empty. cbn [negb]. apply andb_true_r. }
  split; [exact H|]. split; [|split].
  - intros rows. unfold kept. apply filter_ext. exact H.
  - intros keyOf agg m rows. unfold groupTotals.
    generalize (@nil (string * Acc)).
    induction rows as [|r rows IH]; intros acc; [reflexivity|].
    cbn [fold_left]. rewrite H. apply IH.
  - intros ->. reflexivity.
Qed.

Lemma matchesRow_removeAt (row : RawRow) (rules : list FilterRule) (i : nat) :
  matchesRow row rules = true -> matchesRow row (removeAt i rules) = true.
Proof.
  revert i. induction rules as [|r rules IH]; intros i H; [destruct i; exact H|].
  apply matchesRow_cons in H as [Hr Hrest].
  destruct i as [|i]; cbn [removeAt]; [exact Hrest|].
  apply matchesRow_cons. split; [exact Hr | now apply IH].
Qed.

(** X2.  Removing a rule never takes a row away: every row that passed
    still passes, and the rows kept before are among those kept after,
    in the same order. *)
Theorem removing_a_rule_keeps_rows :
  forall (rules : list FilterRule) (i : nat) (row : RawRow),
    matchesRow row rules = true ->
    matchesRow row (removeAt i rules) = true
    /\ forall rows, In row (kept rules rows) -> In row (kept (removeAt i rules) rows).
Proof.
  intros rules i row H. split; [now apply matchesRow_removeAt|].
  intros rows Hin. unfold kept in *. apply filter_In in Hin as [Hin _].
  apply filter_In. split; [exact Hin | now apply matchesRow_removeAt].
Qed.

Lemma removing_a_rule_keeps_rows_witness :
  matchesRow [CStr "VM"; CStr "10"] [mkRule 0 equals "VM"; mkRule 1 contains "1"] = true
  /\ matchesRow [CStr "VM"; CStr "10"]
                (removeAt 0 [mkRule 0 equals "VM"; mkRule 1 contains "1"]) = true.
Proof.
  split; [reflexivity|].
  apply (proj1 (removing_a_rule_keeps_rows
                  [mkRule 0 equals "VM"; mkRule 1 contains "1"] 0
                  [CStr "VM"; CStr "10"] eq_refl)).
Defined.

End FilterEditing.

(* ================================================================== *)
(** * Ranking the columns *)
(* ================================================================== *)

Section ColumnRanking.
Import JsString JsNumber Dashboard.

Lemma filter_none {A : Type} (f : A -> bool) (l : list A) :
  (forall x, In x l -> f x = false) -> filter f l = [].
Proof.
  induction l as [|x l IH]; intros H; [reflexivity|].
  simpl. rewrite (H x (or_introl eq_refl)). apply IH.
  intros y Hy. apply H. now right.
Qed.

Lemma In_firstn_In {A : Type} (n : nat) (l : list A) (x : A) :
  In x (firstn n l) -> In x l.
Proof.
  intros H. rewrite <- (firstn_skipn n l). apply in_or_app. now left.
Qed.

Lemma getCell_outside (row : RawRow) (idx : Z) :
  idx < 0 \/ Z.of_nat (List.length row) <= idx -> getCell row idx = CHole.
Proof.
  intros H. unfold getCell. destruct (Z.ltb_spec idx 0); [reflexivity|].
  apply nth_overflow. lia.
Qed.

(** X3.  [scoreNumericColumn] lies between 0 and the number of rows looked
    at, which is at most 50; rows after the fiftieth have no part in
    it; and a column that no row reaches scores 0. *)
Theorem scoreNumericColumn_bounds :
  forall (rows : list RawRow) (idx : Z),
    0 <= scoreNumericColumn rows idx <= Z.min (Z.of_nat (List.length rows)) 50
    /\ scoreNumericColumn rows idx = scoreNumericColumn (firstn 50 rows) idx
    /\ (forall more, (50 <= List.length rows)%nat ->
                     scoreNumericColumn (rows ++ more) idx = scoreNumericColumn rows idx)
    /\ ((forall row, In row rows ->
                     idx < 0 \/ Z.of_nat (List.length row) <= idx) ->
        scoreNumericColumn rows idx = 0).
Proof.
  intros rows idx. unfold scoreNumericColumn. split; [|split; [|split]].
  - pose proof (filter_length_le (fun row => numericHit (getCell row idx)) (firstn 50 rows)) as H.
    rewrite length_firstn in H. lia.
  - now rewrite firstn_firstn.
  - intros more Hlen. rewrite firstn_app.
    replace (50 - List.length rows)%nat with 0%nat by lia.
    now rewrite firstn_O, app_nil_r.
  - intros Hout.
    rewrite filter_none; [reflexivity|].
    intros row Hrow. rewrite getCell_outside; [reflexivity|].
    apply Hout. now apply (In_firstn_In 50).
Qed.

Lemma byScoreDescending_asym (a b : ColumnInfo) :
  byScoreDescending a b = Lt -> byScoreDescending b a <> Lt.
Proof.
  unfold byScoreDescending, signOf. rewrite !Z.compare_lt_iff. lia.
Qed.

Lemma inOrder_byScore (a b : ColumnInfo) :
  inOrder byScoreDescending a b <-> numericScore b <= numericScore a.
Proof.
  unfold inOrder, byScoreDescending, signOf. rewrite Z.compare_lt_iff. lia.
Qed.

Lemma columnInfos_scores (rows : list RawRow) (idx : Z) (names : Header) :
  Forall (fun c => numericScore c = scoreNumericColumn rows (colIndex c))
         (columnInfos rows idx names).
Proof.
  revert idx. induction names as [|[label|] names IH]; intros idx; simpl.
  - constructor.
  - constructor; [reflexivity | apply IH].
  - apply IH.
Qed.

Lemma columnInfos_slots (rows : list RawRow) (idx : Z) (names : Header) :
  Permutation (map (fun c => Some (colIndex c)) (columnInfos rows idx names)
               ++ repeat None (countHoles names))
              (slotsFrom idx names).
Proof.
  revert idx. induction names as [|[label|] names IH]; intros idx.
  - constructor.
  - cbn [columnInfos slotsFrom map app colIndex]. constructor. apply IH.
  - cbn [columnInfos slotsFrom]. unfold countHoles. cbn [filter List.length repeat].
    fold (countHoles names).
    etransitivity; [symmetry; apply Permutation_middle|].
    constructor. apply IH.
Qed.

Lemma definedOnes_candidates (l : list ColumnInfo) (n : nat) :
  definedOnes (map (fun c => Some (colIndex c)) l ++ repeat None n) = map colIndex l.
Proof.
  induction l as [|c l IH]; simpl.
  - induction n; [reflexivity | exact IHn].
  - now rewrite IH.
Qed.

Lemma In_definedOnes (j : Z) (l : list (option Z)) :
  In (Some j) l -> In j (definedOnes l).
Proof.
  induction l as [|[i|] l IH]; simpl; [tauto| |].
  - intros [E|H]; [left; congruence | right; auto].
  - intros [E|H]; [discriminate | auto].
Qed.


End ColumnRanking.

(* ================================================================== *)
(** * Groups of the pie, bars and the cumulative series *)
(* ================================================================== *)

Section GroupsAndBars.
Import JsString JsNumber Dashboard.

Lemma mapGet_None_keys (k : string) (m : Totals) :
  mapGet k m = None <-> ~ In k (map fst m).
Proof.
  induction m as [|[k' v] m IH]; simpl; [tauto|].
  destruct (String.eqb_spec k' k) as [->|Hne].
  - split; [discriminate | intros H; elim H; now left].
  - rewrite IH. tauto.
Qed.

Lemma mapSet_keys (k : string) (v : Acc) (m : Totals) :
  map fst (mapSet k v m) =
  match mapGet k m with
  | Some _ => map fst m
  | None => (map fst m ++ [k])%list
  end.
Proof.
  induction m as [|[k' v'] m IH]; simpl; [reflexivity|].
  destruct (String.eqb_spec k' k) as [->|Hne]; simpl; [reflexivity|].
  rewrite IH. now destruct (mapGet k m).
Qed.

Lemma groupTotals_keys_NoDup (keyOf : RawRow -> string) (agg : Aggregation)
      (m : Z) (rules : list FilterRule) (rows : list RawRow) :
  NoDup (map fst (groupTotals keyOf agg m rules rows)).
Proof.
  induction rows as [|r rows IH] using rev_ind; [constructor|].
  rewrite groupTotals_snoc. destruct (matchesRow r rules); [|exact IH].
  unfold accumulate. rewrite mapSet_keys.
  destruct (mapGet (keyOf r) _) eqn:E; [exact IH|].
  apply NoDup_app; [exact IH | repeat constructor; simpl; tauto |].
  intros x Hx [<-|[]]. now apply mapGet_None_keys in E.
Qed.

Lemma groupTotals_keys (keyOf : RawRow -> string) (agg : Aggregation)
      (m : Z) (rules : list FilterRule) (rows : list RawRow) (k : string) :
  In k (map fst (groupTotals keyOf agg m rules rows)) <->
  exists row, In row (kept rules rows) /\ keyOf row = k.
Proof.
  pose proof (groupTotals_lookup keyOf agg m rules rows k) as L.
  pose proof (mapGet_None_keys k (groupTotals keyOf agg m rules rows)) as N.
  unfold inGroup in L.
  destruct (filter _ (kept rules rows)) as [|r g] eqn:E.
  - cbn [accOf] in L. split.
    + intros H. now apply N in L.
    + intros (row & Hrow & Hk). exfalso.
      assert (Hin : In row (filter (fun row0 => String.eqb (keyOf row0) k) (kept rules rows))).
      { apply filter_In. split; [exact Hrow | now apply String.eqb_eq]. }
      rewrite E in Hin. exact Hin.
  - split.
    + intros _. exists r.
      assert (Hin : In r (filter (fun row0 => String.eqb (keyOf row0) k) (kept rules rows))).
      { rewrite E. now left. }
      apply filter_In in Hin as [Hin Hk]. split; [exact Hin | now apply String.eqb_eq].
    + intros _. destruct (in_dec string_dec k (map fst (groupTotals keyOf agg m rules rows)))
        as [Hin|Hnot]; [exact Hin|].
      apply N in Hnot. rewrite Hnot in L. discriminate.
Qed.

Lemma ofInt_succ (n : Z) : add (ofInt n) one = ofInt (n + 1).
Proof.
  unfold ofInt, one. cbn [add]. f_equal.
  apply Qc_is_canon. unfold Qcplus. unfold Q2Qc. cbn [this].
  rewrite !Qred_correct, inject_Z_plus. reflexivity.
Qed.

Lemma groupTotals_count_sums (keyOf : RawRow -> string) (m : Z)
      (rules : list FilterRule) (rows : list RawRow) :
  Forall (fun e => accSum (snd e) = ofInt (accCount (snd e)))
         (groupTotals keyOf count m rules rows).
Proof.
  induction rows as [|r rows IH] using rev_ind; [constructor|].
  rewrite groupTotals_snoc. destruct (matchesRow r rules); [|exact IH].
  unfold accumulate. apply Forall_mapSet; [exact IH|].
  cbn [snd accSum accCount rowValue].
  destruct (mapGet (keyOf r) _) as [a|] eqn:E.
  - destruct (mapGet_Forall _ _ _ _ IH E) as [k' Ha]. cbn [snd] in Ha.
    rewrite Ha. apply ofInt_succ.
  - cbn [accSum accCount]. apply (ofInt_succ 0).
Qed.

(** X5.  Every group of the pie appears once, the groups are exactly the
    keys of the rows that pass the filter, and under [count] the values
    of all groups add up to the number of those rows. *)
Theorem pie_groups_and_counts :
  forall (hdr : Header) (rows : list RawRow) (m : Z) (dims : list Z)
         (agg : Aggregation) (rules : list FilterRule),
    let pie := pieData (Some hdr) rows (Some m) dims agg rules in
    NoDup (map fst pie)
    /\ (forall k, In k (map fst pie) <->
                  exists row, In row (kept rules rows) /\ buildGroupKey row dims = k)
    /\ total (map snd (pieData (Some hdr) rows (Some m) dims count rules)) =
       ofInt (Z.of_nat (List.length (kept rules rows))).
Proof.
  intros hdr rows m dims agg rules pie. subst pie.
  rewrite !pieData_groupTotals. rewrite !map_map. cbn [fst snd].
  split; [|split].
  - apply groupTotals_keys_NoDup.
  - intros k. apply groupTotals_keys.
  - rewrite <- total_ones with (m := m).
    rewrite <- (groupTotals_total (fun row => buildGroupKey row dims) count m rules rows).
    f_equal. unfold sums. apply map_ext_in. intros e He.
    pose proof (groupTotals_count_sums (fun row => buildGroupKey row dims) m rules rows) as F.
    cbn [reduce]. symmetry. exact (proj1 (Forall_forall _ _) F e He).
Qed.

Lemma last_cons {A : Type} (x d : A) (l : list A) : last (x :: l) d = last l x.
Proof.
  revert x d. induction l as [|y l IH]; intros x d; [reflexivity|].
  change (last (x :: y :: l) d) with (last (y :: l) d). now rewrite !IH.
Qed.

Lemma runningSums_last (agg : Aggregation) (a : jsnum) (bs : Totals) :
  last (map snd (runningSums agg a bs)) a =
  add a (total (map (bucketValue agg) bs)).
Proof.
  revert a. induction bs as [|[k v] bs IH]; intros a.
  - simpl. unfold total. simpl. now rewrite add_zero_r.
  - cbn [runningSums map snd]. rewrite last_cons, IH.
    rewrite total_cons. unfold bucketValue at 2. cbn [snd].
    now rewrite add_assoc.
Qed.

(** X6.  With a date column chosen, the bars and the cumulative series have
    the same dates in the same order and the [n]-th cumulative value is
    the sum of the first [n] bars, added from left to right.  Without
    a date column the bars are the pie groups. *)
Theorem bars_and_cumulative_series :
  forall (h : Host) (hdr : Header) (rows : list RawRow) (m d : Z) (mb : bool)
         (fmt : DateFormat) (agg : Aggregation) (dims : list Z)
         (rules : list FilterRule),
    let bars := convertBarToLine
                  (barData h (Some hdr) rows (Some m) (Some d) mb fmt agg dims rules) in
    let area := areaData h (Some hdr) rows (Some d) mb fmt (Some m) agg rules in
    map fst area = map fst bars
    /\ map snd area = map (prefixTotal (map snd bars)) (seq 1 (List.length bars))
    /\ convertBarToLine
         (barData h (Some hdr) rows (Some m) None mb fmt agg dims rules)
       = pieData (Some hdr) rows (Some m) dims agg rules.
Proof.
  intros h hdr rows m d mb fmt agg dims rules bars area.
  assert (Eb : bars = map (fun e => (fst e, reduce agg (snd e)))
                          (areaBuckets h rows d mb fmt m agg rules)).
  { subst bars. unfold barData, convertBarToLine. destruct rows as [|r rows].
    - reflexivity.
    - now rewrite map_map. }
  subst area. rewrite !areaData_runningSums, Eb.
  rewrite !map_map. cbn [fst snd]. rewrite length_map.
  split; [apply runningSums_keys|]. split.
  - rewrite runningSums_values. apply map_ext. intros n. apply add_zero_l.
  - unfold barData, convertBarToLine. destruct rows as [|r rows]; [reflexivity|].
    rewrite map_map. cbn beta. rewrite map_ext with (g := fun p => p).
    + apply map_id.
    + intros [k v]. reflexivity.
Qed.


End GroupsAndBars.

(* ================================================================== *)
(** * Editing the selections *)
(* ================================================================== *)

Section SelectionEditing.
Import JsString JsNumber JsObject Dashboard.

Lemma includesIdx_In (i : Z) (l : list Z) : includesIdx i l = true <-> In i l.
Proof.
  unfold includesIdx. rewrite existsb_exists. split.
  - intros (x & Hx & E). apply Z.eqb_eq in E. now subst.
  - intros H. exists i. split; [exact H | apply Z.eqb_refl].
Qed.

(** X8.  The effect on the primary metric: afterwards there is a primary
    metric exactly when a metric is selected, it is one of the selected
    metrics, a primary metric that is still selected is kept, and
    running the effect again changes nothing. *)
Theorem syncPrimaryMetric_invariant :
  forall (metricsIdxs : list Z) (primaryMetricIdx : option Z),
    let p := syncPrimaryMetric metricsIdxs primaryMetricIdx in
    (p = None <-> metricsIdxs = [])
    /\ (forall i, p = Some i -> In i metricsIdxs)
    /\ (forall i, primaryMetricIdx = Some i -> In i metricsIdxs -> p = Some i)
    /\ syncPrimaryMetric metricsIdxs p = p.
Proof.
  intros ms p0 p. subst p. unfold syncPrimaryMetric.
  destruct ms as [|first rest].
  - repeat split; try discriminate; try reflexivity. intros i _ [].
  - destruct p0 as [q|].
    + destruct (includesIdx q (first :: rest)) eqn:E.
      * split; [split; discriminate|]. split; [|split].
        -- intros i [= <-]. now apply includesIdx_In.
        -- intros i H _. exact H.
        -- now rewrite E.
      * split; [split; discriminate|]. split; [|split].
        -- intros i [= <-]. now left.
        -- intros i [= ->] Hin. apply includesIdx_In in Hin. congruence.
        -- unfold includesIdx. cbn [existsb]. now rewrite Z.eqb_refl.
    + split; [split; discriminate|]. split; [|split].
      * intros i [= <-]. now left.
      * discriminate.
      * unfold includesIdx. cbn [existsb]. now rewrite Z.eqb_refl.
Qed.

Lemma includesIdx_app (i : Z) (l l' : list Z) :
  includesIdx i (l ++ l') = includesIdx i l || includesIdx i l'.
Proof. unfold includesIdx. apply existsb_app. Qed.

(** X9.  A metric picked in the primary-metric select stays primary after
    the effect has run, and is among the selected metrics; unchecking
    the primary metric hands the role to the first metric that is left,
    or to none. *)
Theorem primary_metric_choice :
  forall (metricsIdxs : list Z) (v : Z),
    (let (p, ms) := selectPrimaryMetric (Some v) metricsIdxs in
     syncPrimaryMetric ms p = Some v /\ In v ms)
    /\ syncPrimaryMetric (toggleIdx v false metricsIdxs) (Some v) =
       hd_error (filter (fun i => negb (i =? v)) metricsIdxs).
Proof.
  intros ms v. split.
  - unfold selectPrimaryMetric.
    destruct (includesIdx v ms) eqn:E.
    + split; [|now apply includesIdx_In].
      unfold syncPrimaryMetric. destruct ms as [|first rest]; [discriminate|].
      now rewrite E.
    + assert (H : includesIdx v (ms ++ [v]) = true).
      { rewrite includesIdx_app. unfold includesIdx at 2. cbn [existsb].
        rewrite Z.eqb_refl. apply orb_true_iff. right. reflexivity. }
      split; [|now apply includesIdx_In].
      unfold syncPrimaryMetric. destruct (ms ++ [v])%list as [|first rest] eqn:L.
      * destruct ms; discriminate.
      * now rewrite H.
  - unfold toggleIdx, syncPrimaryMetric.
    destruct (filter (fun i => negb (i =? v)) ms) as [|first rest] eqn:L;
      [reflexivity|].
    destruct (includesIdx v (first :: rest)) eqn:E; [|reflexivity].
    apply includesIdx_In in E. rewrite <- L in E.
    apply filter_In in E as [_ E]. now rewrite Z.eqb_refl in E.
Qed.

Lemma getOwn_setOwn_same {V : Type} (k : string) (v : V) (o : list (string * V)) :
  getOwn k (setOwn k v o) = Some v.
Proof.
  induction o as [|[k' v'] o IH]; simpl.
  - now rewrite String.eqb_refl.
  - destruct (String.eqb k' k) eqn:E; simpl.
    + now rewrite String.eqb_refl.
    + now rewrite E.
Qed.

Lemma getOwn_setOwn_other {V : Type} (k k0 : string) (v : V) (o : list (string * V)) :
  k0 <> k -> getOwn k (setOwn k0 v o) = getOwn k o.
Proof.
  intros Hne. induction o as [|[k' v'] o IH]; simpl.
  - destruct (String.eqb_spec k0 k); [contradiction | reflexivity].
  - destruct (String.eqb_spec k' k0) as [->|Hne']; simpl.
    + destruct (String.eqb_spec k0 k); [contradiction | reflexivity].
    + now rewrite IH.
Qed.

Lemma getOwn_filter_keys {V : Type} (p : string -> bool) (k : string)
      (o : list (string * V)) :
  getOwn k (filter (fun e => p (fst e)) o) = if p k then getOwn k o else None.
Proof.
  induction o as [|[k' v'] o IH]; simpl.
  - now destruct (p k).
  - destruct (String.eqb_spec k' k) as [->|Hne].
    + destruct (p k) eqn:E; simpl.
      * now rewrite String.eqb_refl.
      * rewrite IH. now rewrite ?E.
    + destruct (p k') eqn:E'; simpl.
      * destruct (String.eqb_spec k' k); [contradiction | exact IH].
      * exact IH.
Qed.

Lemma getOwn_initSeries (next : Visibility) (key k : string) :
  getOwn k (initSeries next key) =
  match getOwn k next with
  | Some b => Some b
  | None => if String.eqb key k && negb (inPrototype k) then Some true else None
  end.
Proof.
  unfold initSeries, hasProperty, hasOwn.
  destruct (String.eqb_spec key k) as [->|Hne]; cbn [andb].
  - destruct (getOwn k next) as [b|] eqn:E; cbn [orb]; [now rewrite E|].
    destruct (inPrototype k); cbn [negb]; [exact E | apply getOwn_setOwn_same].
  - destruct (match getOwn key next with Some _ => true | None => false end
              || inPrototype key).
    + now destruct (getOwn k next).
    + rewrite getOwn_setOwn_other by exact Hne. now destruct (getOwn k next).
Qed.

Lemma getOwn_initAll (seriesKeys : list string) (prev : Visibility) (k : string) :
  getOwn k (fold_left initSeries seriesKeys prev) =
  match getOwn k prev with
  | Some b => Some b
  | None => if inKeys k seriesKeys && negb (inPrototype k) then Some true else None
  end.
Proof.
  revert prev. induction seriesKeys as [|key ks IH]; intros prev.
  - cbn [fold_left]. now destruct (getOwn k prev).
  - cbn [fold_left]. rewrite IH, getOwn_initSeries.
    unfold inKeys. cbn [existsb]. rewrite (String.eqb_sym k key).
    destruct (getOwn k prev); [reflexivity|].
    destruct (String.eqb key k); cbn [andb orb]; [|reflexivity].
    destruct (inPrototype k); cbn [negb]; [|reflexivity].
    now rewrite andb_false_r.
Qed.

Lemma getOwn_afterSync (prev : Visibility) (seriesKeys : list string) (k : string) :
  getOwn k (syncSeriesVisible prev seriesKeys) =
  if inKeys k seriesKeys then
    match getOwn k prev with
    | Some b => Some b
    | None => if inPrototype k then None else Some true
    end
  else None.
Proof.
  unfold syncSeriesVisible.
  rewrite (getOwn_filter_keys (fun key => inKeys key seriesKeys)), getOwn_initAll.
  destruct (inKeys k seriesKeys); [|reflexivity]. cbn [andb].
  destruct (getOwn k prev); [reflexivity|]. now destruct (inPrototype k).
Qed.

(** X10.  What the record holds after the effect: an entry only for a series
    key; the value it had before; [true] for a series key that is new,
    unless the name is one every object inherits, which gets no entry.
    Running the effect twice gives the entries of running it once. *)
Theorem syncSeriesVisible_entries :
  forall (prev : Visibility) (seriesKeys : list string) (k : string),
    getOwn k (syncSeriesVisible prev seriesKeys) =
    (if inKeys k seriesKeys then
      match getOwn k prev with
      | Some b => Some b
      | None => if inPrototype k then None else Some true
      end
    else None)
    /\ getOwn k (syncSeriesVisible (syncSeriesVisible prev seriesKeys) seriesKeys) =
       getOwn k (syncSeriesVisible prev seriesKeys).
Proof.
  intros prev ks k. rewrite !getOwn_afterSync. split; [reflexivity|].
  destruct (inKeys k ks); [|reflexivity].
  destruct (getOwn k prev); [reflexivity|]. now destruct (inPrototype k).
Qed.

(** X11.  The effect never hides or reveals a line: a series key is drawn
    after it exactly when it was drawn before, a choice made with the
    checkbox of a series survives it, and the checkbox of one series
    leaves the others alone. *)
Theorem series_choice_survives_sync :
  forall (prev : Visibility) (seriesKeys : list string) (k k' : string) (checked : bool),
    isShown (syncSeriesVisible prev seriesKeys) k =
      (if inKeys k seriesKeys then isShown prev k else true)
    /\ isShown (syncSeriesVisible (toggleSeries k checked prev) seriesKeys) k =
      (if inKeys k seriesKeys then checked else true)
    /\ (k' <> k -> isShown (toggleSeries k checked prev) k' = isShown prev k').
Proof.
  intros prev ks k k' checked. unfold isShown, toggleSeries.
  rewrite !getOwn_afterSync. rewrite getOwn_setOwn_same.
  split; [|split].
  - destruct (inKeys k ks); [|reflexivity].
    destruct (getOwn k prev); [reflexivity|]. now destruct (inPrototype k).
  - now destruct (inKeys k ks).
  - intros Hne. rewrite getOwn_setOwn_other; [reflexivity|].
    intros E. apply Hne. now symmetry.
Qed.

End SelectionEditing.

(* ================================================================== *)
(** * Totals by service *)
(* ================================================================== *)

Section ObjectTotals.
Import JsString JsNumber Classic.

Lemma objGet_objPut_same (k : string) (v : jsnum) (m : DateTotals) :
  objGet k (objPut k v m) = Some v.
Proof.
  induction m as [|[k' v'] m IH]; simpl.
  - now rewrite String.eqb_refl.
  - destruct (String.eqb k' k) eqn:E; simpl.
    + now rewrite String.eqb_refl.
    + now rewrite E.
Qed.

Lemma objGet_objPut_other (k k0 : string) (v : jsnum) (m : DateTotals) :
  k0 <> k -> objGet k (objPut k0 v m) = objGet k m.
Proof.
  intros Hne. induction m as [|[k' v'] m IH]; simpl.
  - destruct (String.eqb_spec k0 k); [contradiction | reflexivity].
  - destruct (String.eqb_spec k' k0) as [->|Hne']; simpl.
    + destruct (String.eqb_spec k0 k); [contradiction | reflexivity].
    + now rewrite IH.
Qed.

Lemma objGet_None_keys (k : string) (m : DateTotals) :
  objGet k m = None <-> ~ In k (map fst m).
Proof.
  induction m as [|[k' v] m IH]; simpl; [tauto|].
  destruct (String.eqb_spec k' k) as [->|Hne].
  - split; [discriminate | intros H; elim H; now left].
  - rewrite IH. tauto.
Qed.

Lemma objPut_keys (k : string) (v : jsnum) (m : DateTotals) :
  map fst (objPut k v m) =
  match objGet k m with
  | Some _ => map fst m
  | None => (map fst m ++ [k])%list
  end.
Proof.
  induction m as [|[k' v'] m IH]; simpl; [reflexivity|].
  destruct (String.eqb_spec k' k) as [->|Hne]; simpl; [reflexivity|].
  rewrite IH. now destruct (objGet k m).
Qed.

Lemma total_objPut (k : string) (c : jsnum) (m : DateTotals) :
  Forall (fun e => isFinite (snd e)) m ->
  total (map snd (objPut k (add (match objGet k m with
                                 | Some v => numberOr0 v
                                 | None => zero
                                 end) c) m)) =
  add (total (map snd m)) c.
Proof.
  induction m as [|[k' v'] m IH]; intros Hm.
  - unfold total. cbn [objGet objPut map snd fold_left]. now rewrite !add_zero_l.
  - inversion Hm as [|? ? Hv Hrest]; subst. cbn [snd] in Hv.
    cbn [objGet objPut]. destruct (String.eqb k' k) eqn:E.
    + cbn [map snd]. rewrite !total_cons.
      destruct v'; try contradiction. unfold numberOr0. cbn [isNaN].
      rewrite <- !add_assoc. f_equal. apply add_comm.
    + cbn [map snd]. rewrite !total_cons, (IH Hrest). apply add_assoc.
Qed.

Lemma lookup_all (m : DateTotals) :
  NoDup (map fst m) ->
  map (fun k => (k, match objGet k m with Some v => v | None => NaN end))
      (map fst m) = m.
Proof.
  induction m as [|[k v] m IH]; intros Hnd; [reflexivity|].
  inversion Hnd as [|? ? Hk Hrest]; subst.
  cbn [map fst objGet]. rewrite String.eqb_refl. f_equal.
  rewrite <- (IH Hrest) at 2. apply map_ext_in. intros k' Hk'.
  destruct (String.eqb_spec k k') as [->|_]; [contradiction | reflexivity].
Qed.

Lemma insertIndex_perm (k : string) (l : list string) :
  Permutation (JsObject.insertIndex k l) (k :: l).
Proof.
  induction l as [|k' l IH]; simpl; [reflexivity|].
  destruct (digitsVal k <? digitsVal k'); [reflexivity|].
  rewrite IH. apply perm_swap.
Qed.

Lemma filter_split_perm {A : Type} (p : A -> bool) (l : list A) :
  Permutation (filter p l ++ filter (fun x => negb (p x)) l) l.
Proof.
  induction l as [|x l IH]; simpl; [reflexivity|].
  destruct (p x); simpl.
  - now constructor.
  - rewrite <- Permutation_middle. now constructor.
Qed.

Lemma keys_perm {V : Type} (o : list (string * V)) :
  Permutation (JsObject.keys o) (map fst o).
Proof.
  unfold JsObject.keys.
  assert (H : forall l acc,
             Permutation (fold_left (fun acc k => JsObject.insertIndex k acc) l acc)
                         (acc ++ l)).
  { induction l as [|x l IH]; intros acc; simpl.
    - now rewrite app_nil_r.
    - rewrite IH, insertIndex_perm. apply Permutation_middle. }
  rewrite H. cbn [app]. apply filter_split_perm.
Qed.

Section Filing.
Variable key : CostData -> string.
Variable step : DateTotals -> CostData -> DateTotals.
Hypothesis step_eq :
  forall m d,
    step m d =
    objPut (key d)
           (add (match objGet (key d) m with
                 | Some v => numberOr0 v
                 | None => zero
                 end) (costOf d)) m.

Lemma filed_snoc (data : list CostData) (d : CostData) :
  fold_left step (data ++ [d]) [] = step (fold_left step data []) d.
Proof. now rewrite fold_left_app. Qed.

Lemma filed_finite (data : list CostData) :
  Forall (fun d => isFinite (cost d)) data ->
  Forall (fun e => isFinite (snd e)) (fold_left step data []).
Proof.
  induction data as [|d data IH] using rev_ind; intros Hd; [constructor|].
  apply Forall_app in Hd as [Hdata Hd]. inversion Hd as [|? ? Hcost _]; subst.
  rewrite filed_snoc, step_eq. specialize (IH Hdata).
  apply (Forall_objPut isFinite); [exact IH|].
  unfold costOf. destruct (cost d); try contradiction. cbn [numberOr0 isNaN].
  destruct (objGet (key d) _) as [v|] eqn:E.
  - pose proof (objGet_Forall isFinite _ _ _ IH E) as Hv.
    destruct v; try contradiction. exact I.
  - exact I.
Qed.

Lemma filed_keys_NoDup (data : list CostData) :
  NoDup (map fst (fold_left step data [])).
Proof.
  induction data as [|d data IH] using rev_ind; [constructor|].
  rewrite filed_snoc, step_eq, objPut_keys.
  destruct (objGet (key d) _) eqn:E; [exact IH|].
  apply NoDup_app; [exact IH | repeat constructor; simpl; tauto |].
  intros x Hx [<-|[]]. now apply objGet_None_keys in E.
Qed.

Lemma filed_total (data : list CostData) :
  Forall (fun d => isFinite (cost d)) data ->
  total (map snd (fold_left step data [])) = total (map costOf data).
Proof.
  induction data as [|d data IH] using rev_ind; intros Hd; [reflexivity|].
  pose proof (proj1 (Forall_app _ _ _) Hd) as [Hdata _].
  rewrite filed_snoc, step_eq, total_objPut by now apply filed_finite.
  rewrite map_app. cbn [map]. rewrite total_snoc, (IH Hdata). reflexivity.
Qed.

Lemma filed_lookup (data : list CostData) (k : string) :
  Forall (fun d => isFinite (cost d)) data ->
  objGet k (fold_left step data []) = sumOf (filedUnder key k data).
Proof.
  induction data as [|d data IH] using rev_ind; intros Hd; [reflexivity|].
  pose proof (proj1 (Forall_app _ _ _) Hd) as [Hdata _].
  pose proof (filed_finite data Hdata) as Hfin.
  specialize (IH Hdata).
  rewrite filed_snoc, step_eq. unfold filedUnder in *. rewrite filter_app.
  cbn [filter]. destruct (String.eqb_spec (key d) k) as [->|Hne].
  - rewrite objGet_objPut_same.
    destruct (filter _ data) as [|d0 g] eqn:Eg.
    + rewrite IH. cbn [sumOf app map]. unfold total. cbn [fold_left]. reflexivity.
    + rewrite IH. cbn [sumOf].
      assert (Hv : isFinite (total (map costOf (d0 :: g)))).
      { apply (objGet_Forall isFinite k _ _ Hfin). exact IH. }
      change ((d0 :: g) ++ [d])%list with (d0 :: (g ++ [d]))%list.
      cbn [sumOf]. f_equal.
      change (d0 :: (g ++ [d]))%list with ((d0 :: g) ++ [d])%list.
      rewrite (map_app costOf (d0 :: g) [d]).
      change (map costOf [d]) with [costOf d]. rewrite total_snoc.
      destruct (total (map costOf (d0 :: g))); try contradiction.
      reflexivity.
  - rewrite objGet_objPut_other by exact Hne. now rewrite app_nil_r.
Qed.

End Filing.

Lemma addToService_step (m : DateTotals) (d : CostData) :
  addToService m d =
  objPut (serviceKey d)
         (add (match objGet (serviceKey d) m with
               | Some v => numberOr0 v
               | None => zero
               end) (costOf d)) m.
Proof. reflexivity. Qed.

Lemma addToDate_step (m : DateTotals) (d : CostData) :
  addToDate m d =
  objPut (dateKey d)
         (add (match objGet (dateKey d) m with
               | Some v => numberOr0 v
               | None => zero
               end) (costOf d)) m.
Proof. reflexivity. Qed.

Lemma totalCost_total (data : list CostData) :
  totalCost data = total (map costOf data).
Proof.
  unfold totalCost, total. generalize zero.
  induction data as [|d data IH]; intros a; [reflexivity|].
  cbn [fold_left map]. apply IH.
Qed.

Lemma aggregateByService_perm (data : list CostData) :
  Permutation (aggregateByService data) (fold_left addToService data []).
Proof.
  unfold aggregateByService. cbv zeta.
  pose proof (lookup_all (fold_left addToService data [])
                (filed_keys_NoDup serviceKey addToService addToService_step data))
    as E.
  set (m := fold_left addToService data []) in *.
  etransitivity; [|rewrite <- E; reflexivity].
  apply Permutation_map. apply keys_perm.
Qed.

Lemma byService_perm (data : list CostData) :
  Permutation (byService data) (fold_left addToService data []).
Proof.
  unfold byService. rewrite sortBy_perm. apply aggregateByService_perm.
Qed.

Lemma valueOf_In (k : string) (v : jsnum) (l : list (string * jsnum)) :
  NoDup (map fst l) -> (valueOf k l = Some v <-> In (k, v) l).
Proof.
  induction l as [|[k' v'] l IH]; intros Hnd; simpl.
  - split; [discriminate | tauto].
  - inversion Hnd as [|? ? Hk Hrest]; subst.
    destruct (String.eqb_spec k' k) as [->|Hne].
    + split.
      * intros [= ->]. now left.
      * intros [[= ->]|Hin]; [reflexivity|].
        elim Hk. apply in_map_iff. now exists (k, v).
    + rewrite (IH Hrest). split; [tauto|].
      intros [[= -> _]|Hin]; [contradiction | exact Hin].
Qed.

Lemma valueOf_objGet (k : string) (m : DateTotals) : valueOf k m = objGet k m.
Proof.
  induction m as [|[k' v'] m IH]; simpl; [reflexivity|]. now rewrite IH.
Qed.

Lemma valueOf_perm (k : string) (l l' : list (string * jsnum)) :
  NoDup (map fst l) -> Permutation l l' -> valueOf k l = valueOf k l'.
Proof.
  intros Hnd Hp.
  assert (Hnd' : NoDup (map fst l')).
  { eapply Permutation_NoDup; [apply Permutation_map; exact Hp | exact Hnd]. }
  destruct (valueOf k l) as [v|] eqn:E.
  - apply (valueOf_In k v l Hnd) in E. symmetry. apply (valueOf_In k v l' Hnd').
    eapply Permutation_in; eassumption.
  - destruct (valueOf k l') as [v|] eqn:E'; [|reflexivity].
    apply (valueOf_In k v l' Hnd') in E'.
    apply Permutation_sym in Hp.
    pose proof (Permutation_in _ Hp E') as Hin.
    apply (valueOf_In k v l Hnd) in Hin. congruence.
Qed.



Lemma Sorted_strong {A : Type} (P : A -> Prop) (R : A -> A -> Prop) (l : list A) :
  (forall x y z, P x -> P y -> P z -> R x y -> R y z -> R x z) ->
  Forall P l -> Sorted R l -> StronglySorted R l.
Proof.
  intros Htrans. induction l as [|a l IH]; intros HP Hs; [constructor|].
  inversion HP as [|? ? Pa Pl]; subst. inversion Hs as [|? ? Hs' Hhd]; subst.
  specialize (IH Pl Hs'). constructor; [exact IH|].
  destruct l as [|b l']; [constructor|].
  inversion Hhd as [|? ? Rab]; subst. inversion Pl as [|? ? Pb Pl']; subst.
  constructor; [exact Rab|].
  apply StronglySorted_inv in IH as [_ Hb].
  rewrite Forall_forall in *. intros z Hz.
  exact (Htrans a b z Pa Pb (Pl' z Hz) Rab (Hb z Hz)).
Qed.

Lemma Qc_sign_flip (x y : Qc) : (y + - x ?= Q2Qc 0)%Qc = Lt <-> (y < x)%Qc.
Proof.
  rewrite <- Qclt_alt. rewrite (Qclt_minus_iff y x).
  rewrite (Qclt_minus_iff (y + - x) (Q2Qc 0)).
  replace (Q2Qc 0 + - (y + - x))%Qc with (x + - y)%Qc by ring. reflexivity.
Qed.

Lemma byCostDescending_asym (a b : string * jsnum) :
  byCostDescending a b = Lt -> byCostDescending b a <> Lt.
Proof.
  unfold byCostDescending, sub. destruct a as [ka [x| | |]], b as [kb [y| | |]];
    cbn [snd neg add signOfNumber]; try discriminate.
  rewrite !Qc_sign_flip. intros H1 H2.
  exact (Qclt_not_eq _ _ (Qclt_trans _ _ _ H1 H2) eq_refl).
Qed.

Lemma inOrder_byCost (a b : string * jsnum) :
  isFinite (snd a) -> isFinite (snd b) ->
  (inOrder byCostDescending a b <-> le (snd b) (snd a)).
Proof.
  unfold inOrder, byCostDescending, sub.
  destruct a as [ka [x| | |]], b as [kb [y| | |]]; cbn [snd isFinite]; try tauto.
  intros _ _. cbn [neg add signOfNumber le].
  rewrite Qc_sign_flip. split.
  - apply Qcnot_lt_le.
  - apply Qcle_not_lt.
Qed.

Lemma byService_finite (data : list CostData) :
  Forall (fun d => isFinite (cost d)) data ->
  Forall (fun e => isFinite (snd e)) (byService data).
Proof.
  intros Hfin.
  pose proof (filed_finite serviceKey addToService addToService_step data Hfin) as H.
  rewrite Forall_forall in *. intros e He. apply H.
  eapply Permutation_in; [apply byService_perm | exact He].
Qed.

(** X13.  The top service is the first of the services by descending cost:
    no service costs more; without data it reads [(none)]. *)
Theorem topService_largest :
  forall (data : list CostData),
    Forall (fun d => isFinite (cost d)) data ->
    Forall (fun d => plainName (serviceKey d)) data ->
    (data = [] -> topService data = "(none)")
    /\ (data <> [] ->
        exists c0, valueOf (topService data) (byService data) = Some c0
                   /\ forall s c, In (s, c) (byService data) -> le c c0).
Proof.
  intros data Hfin _. split; [intros ->; reflexivity|].
  intros Hne.
  pose proof (byService_finite data Hfin) as Hf.
  assert (Hs : StronglySorted (inOrder byCostDescending) (byService data)).
  { apply (Sorted_strong (fun e => isFinite (snd e))); [|exact Hf|].
    - intros x y z Px Py Pz. rewrite !inOrder_byCost by assumption.
      destruct (snd x), (snd y), (snd z); try contradiction. cbn [le].
      intros Hyx Hzy. exact (Qcle_trans _ _ _ Hzy Hyx).
    - apply sortBy_sorted. exact byCostDescending_asym. }
  unfold topService.
  destruct (byService data) as [|[s0 c0] rest] eqn:E.
  - exfalso. destruct data as [|d data]; [congruence|].
    pose proof (filed_lookup serviceKey addToService addToService_step
                  (d :: data) (serviceKey d) Hfin) as L.
    pose proof (byService_perm (d :: data)) as Hp. rewrite E in Hp.
    apply Permutation_nil in Hp. rewrite Hp in L.
    unfold filedUnder in L. cbn [filter objGet] in L.
    rewrite String.eqb_refl in L. discriminate.
  - exists c0. cbn [valueOf]. rewrite String.eqb_refl. split; [reflexivity|].
    inversion Hf as [|? ? Hc0 Hrest]; subst. cbn [snd] in Hc0.
    apply StronglySorted_inv in Hs as [_ Hall].
    intros s c [[= -> ->]|Hin].
    + destruct c; try contradiction. cbn [le]. apply Qcle_refl.
    + rewrite Forall_forall in Hall, Hrest.
      specialize (Hall _ Hin). specialize (Hrest _ Hin).
      apply (inOrder_byCost (s0, c0) (s, c)) in Hall; assumption.
Qed.

Lemma topService_largest_witness :
  let data := [mkCostData "2024-01-05" (ofInt 10) "VM";
               mkCostData "2024-01-20" (ofInt 25) "Storage";
               mkCostData "2024-02-01" (ofInt 7) "VM"] in
  topService data = "Storage"
  /\ exists c0, valueOf (topService data) (byService data) = Some c0
                /\ forall s c, In (s, c) (byService data) -> le c c0.
Proof.
  cbv zeta. split; [vm_compute; reflexivity|].
  apply topService_largest.
  - repeat constructor.
  - repeat constructor; unfold plainName; vm_compute; intuition discriminate.
  - discriminate.
Defined.

End ObjectTotals.

(* ================================================================== *)
(** * Totals by date in the three-column component *)
(* ================================================================== *)

Section DateTotalsFacts.
Import JsString JsNumber Classic.

Lemma aggregateByDate_perm (data : list CostData) :
  Permutation (aggregateByDate data) (fold_left addToDate data []).
Proof.
  unfold aggregateByDate. cbv zeta.
  pose proof (lookup_all (fold_left addToDate data [])
                (filed_keys_NoDup dateKey addToDate addToDate_step data))
    as E.
  set (m := fold_left addToDate data []) in *.
  etransitivity; [|rewrite <- E; reflexivity].
  apply Permutation_map. apply sortBy_perm.
Qed.

Lemma aggregateByDate_keys (data : list CostData) :
  map fst (aggregateByDate data) =
  Dashboard.sortBy String.compare (map fst (fold_left addToDate data [])).
Proof.
  unfold aggregateByDate. cbv zeta. rewrite map_map. cbn [fst]. apply map_id.
Qed.

Lemma string_compare_trans (a b c : string) :
  String.compare a b = Lt -> String.compare b c = Lt -> String.compare a c = Lt.
Proof.
  revert b c. induction a as [|x a IH]; intros [|y b] [|z c]; simpl;
    try discriminate; try reflexivity.
  destruct (Ascii.compare x y) eqn:Exy; try discriminate;
    destruct (Ascii.compare y z) eqn:Eyz; try discriminate; intros H1 H2.
  - apply Ascii.compare_eq_iff in Exy, Eyz. subst.
    unfold Ascii.compare. rewrite N.compare_refl. exact (IH _ _ H1 H2).
  - apply Ascii.compare_eq_iff in Exy. subst. now rewrite Eyz.
  - apply Ascii.compare_eq_iff in Eyz. subst. now rewrite Exy.
  - unfold Ascii.compare in *. rewrite N.compare_lt_iff in *.
    assert (H : (N_of_ascii x < N_of_ascii z)%N) by lia.
    apply N.compare_lt_iff in H. now rewrite H.
Qed.

(** X14.  The totals by date: the dates come in strictly ascending order of
    their code units, so each date appears once; the cost beside a date
    is the sum, in row order, of the costs of its records, a record
    without a date counting under [(unknown)]. *)
Theorem aggregateByDate_groups :
  forall (data : list CostData),
    Forall (fun d => isFinite (cost d)) data ->
    Forall (fun d => plainName (dateKey d)) data ->
    StronglySorted (fun a b => String.compare a b = Lt)
                   (map fst (aggregateByDate data))
    /\ (forall s, valueOf s (aggregateByDate data) = sumOf (filedUnder dateKey s data)).
Proof.
  intros data Hfin _.
  pose proof (aggregateByDate_perm data) as Hp.
  pose proof (filed_keys_NoDup dateKey addToDate addToDate_step data) as Hnd.
  assert (Hnd' : NoDup (map fst (aggregateByDate data))).
  { eapply Permutation_NoDup; [|exact Hnd].
    apply Permutation_map, Permutation_sym, Hp. }
  split.
  - assert (Hs : Sorted (inOrder String.compare) (map fst (aggregateByDate data))).
    { rewrite aggregateByDate_keys. apply sortBy_sorted.
      intros a b. rewrite (String.compare_antisym b a). intros ->. discriminate. }
    revert Hnd' Hs. generalize (map fst (aggregateByDate data)). intros l Hnd' Hs.
    apply Sorted_StronglySorted.
    + intros a b c. apply string_compare_trans.
    + induction Hs as [|a l Hs IH Hhd]; constructor.
      * apply IH. now inversion Hnd'.
      * destruct Hhd as [|b l Hab]; constructor.
        unfold inOrder in Hab. rewrite (String.compare_antisym b a) in Hab.
        destruct (String.compare a b) eqn:E; simpl in Hab.
        -- apply String.compare_eq_iff in E. subst b.
           inversion Hnd' as [|? ? Hnot _]; subst. elim Hnot. now left.
        -- reflexivity.
        -- now elim Hab.
  - intros s. rewrite (valueOf_perm s _ _ Hnd' Hp), valueOf_objGet.
    exact (filed_lookup dateKey addToDate addToDate_step data s Hfin).
Qed.

Lemma aggregateByDate_groups_witness :
  let data := [mkCostData "2024-02-01" (ofInt 7) "VM";
               mkCostData "" (ofInt 5) "VM";
               mkCostData "2024-02-01" (ofInt 10) "Storage"] in
  StronglySorted (fun a b => String.compare a b = Lt)
                 (map fst (aggregateByDate data))
  /\ (forall s, valueOf s (aggregateByDate data) = sumOf (filedUnder dateKey s data)).
Proof.
  cbv zeta. apply aggregateByDate_groups.
  - repeat constructor.
  - repeat constructor; unfold plainName; vm_compute; intuition discriminate.
Defined.

Lemma runningCosts_values (a : jsnum) (l : list (string * jsnum)) :
  Forall (fun e => isFinite (snd e)) l ->
  map snd (runningCosts a l) =
  map (fun n => add a (prefixTotal (map snd l) n)) (seq 1 (List.length l)).
Proof.
  revert a. induction l as [|[k v] l IH]; intros a Hl; [reflexivity|].
  inversion Hl as [|? ? Hv Hrest]; subst. cbn [snd] in Hv.
  assert (Ev : numberOr0 v = v) by (destruct v; try contradiction; reflexivity).
  cbn [runningCosts map List.length seq snd]. rewrite Ev. f_equal.
  - unfold prefixTotal. cbn [firstn]. rewrite total_cons.
    cbn [firstn]. unfold total at 1. cbn [fold_left].
    now rewrite add_zero_r.
  - rewrite (IH _ Hrest), <- (seq_shift (List.length l) 1), map_map.
    apply map_ext. intros n.
    unfold prefixTotal. cbn [firstn]. rewrite total_cons.
    now rewrite add_assoc.
Qed.

Lemma runningCosts_last (a : jsnum) (l : list (string * jsnum)) :
  Forall (fun e => isFinite (snd e)) l ->
  last (map snd (runningCosts a l)) a = add a (total (map snd l)).
Proof.
  revert a. induction l as [|[k v] l IH]; intros a Hl.
  - simpl. unfold total. simpl. now rewrite add_zero_r.
  - inversion Hl as [|? ? Hv Hrest]; subst. cbn [snd] in Hv.
    assert (Ev : numberOr0 v = v) by (destruct v; try contradiction; reflexivity).
    cbn [runningCosts map snd]. rewrite last_cons, (IH _ Hrest), Ev.
    rewrite total_cons. now rewrite add_assoc.
Qed.



Lemma cumulativeByDate_nondecreasing_witness :
  let data := [mkCostData "2024-02-01" (ofInt 7) "VM";
               mkCostData "2024-01-20" (ofInt 5) "VM";
               mkCostData "2024-02-01" (ofInt 10) "Storage"] in
  Sorted le (map snd (cumulativeByDate data))
  /\ Sorted (fun a b => String.leb a b = true) (map fst (cumulativeByDate data)).
Proof.
  cbv zeta. apply cumulativeByDate_nondecreasing.
  - repeat constructor; apply nonneg_ofInt; lia.
  - repeat constructor; unfold plainName; vm_compute; intuition discriminate.
Defined.

End DateTotalsFacts.

(* ================================================================== *)
(** * The Top-N input *)
(* ================================================================== *)

Section TopNInput.
Import JsNumber Dashboard.

(** X17.  Whatever number the Top-N input holds, the value stored is at least
    1 and is not NaN: a number from 1 on is stored as it is, anything
    else (0, a negative number, NaN for an empty input) becomes 1. *)
Theorem nextTopN_at_least_one :
  forall (entered : jsnum),
    le one (nextTopN entered)
    /\ (le one entered -> nextTopN entered = entered)
    /\ (~ le one entered -> nextTopN entered = one).
Proof.
  intros [q| | |]; unfold nextTopN, orOne, one.
  - destruct (Qc_eq_dec q (Q2Qc 0)) as [->|Hq].
    + cbn [mathMax le]. split; [|split].
      * vm_compute. discriminate.
      * intros H. exfalso. revert H. vm_compute. intros H. now apply H.
      * reflexivity.
    + cbn [mathMax le]. destruct (Q2Qc 1 ?= q)%Qc eqn:E.
      * apply Qceq_alt in E. subst q. split; [apply Qcle_refl|].
        split; [reflexivity|]. intros H. elim H. apply Qcle_refl.
      * apply Qclt_alt in E. split; [now apply Qclt_le_weak|].
        split; [reflexivity|]. intros H. elim H. now apply Qclt_le_weak.
      * apply Qcgt_alt in E. split; [apply Qcle_refl|]. split.
        -- intros H. exfalso. exact (Qcle_not_lt _ _ H E).
        -- reflexivity.
  - cbn. split; [exact I|]. split; [reflexivity|]. intros H. now elim H.
  - cbn. split; [apply Qcle_refl|]. split; [intros []|reflexivity].
  - cbn. split; [apply Qcle_refl|]. split; [intros []|reflexivity].
Qed.

End TopNInput.

(* ================================================================== *)
(** * The service column and a second parse *)
(* ================================================================== *)

Section ServiceColumn.
Import JsString JsNumber Classic.

Lemma firstOther_differs (d c : Z) (cands : list nat) :
  (exists k, In k cands /\ Z.of_nat k <> d /\ Z.of_nat k <> c) ->
  firstOther d c cands <> d /\ firstOther d c cands <> c.
Proof.
  induction cands as [|k cands IH]; intros (k0 & Hin & Hd & Hc); [contradiction|].
  cbn [firstOther].
  destruct (Z.eqb_spec (Z.of_nat k) d) as [Ed|Nd]; cbn [negb andb].
  - apply IH. exists k0. destruct Hin as [->|Hin]; [contradiction|]. auto.
  - destruct (Z.eqb_spec (Z.of_nat k) c) as [Ec|Nc]; cbn [negb].
    + apply IH. exists k0. destruct Hin as [->|Hin]; [contradiction|]. auto.
    + auto.
Qed.

(** X18.  On a grid of three columns or more the detected service column is
    neither the detected date column nor the detected cost column; and
    the detection looks at the first ten rows only. *)
Theorem detectFromData_service_column :
  forall (h : Host) (hdr : option Header) (rows : list RawRow),
    let m := detectFromData h hdr rows in
    ((3 <= columnCount hdr rows)%nat ->
     serviceIdx m <> dateIdx m /\ serviceIdx m <> costIdx m)
    /\ (forall more, (10 <= List.length rows)%nat ->
                     detectFromData h hdr (rows ++ more) = m).
Proof.
  intros h hdr rows m. split.
  - intros Hcols. subst m. rewrite detectFromData_unfold. cbv zeta.
    cbn [serviceIdx dateIdx costIdx].
    set (cols := columnCount hdr rows) in *.
    set (ds := map (columnScore (looksLikeDate h) (firstn 10 rows)) (seq 0 cols)).
    set (ns := map (columnScore looksNumeric (firstn 10 rows)) (seq 0 cols)).
    assert (Hd : 0 <= indexOfMax ds) by (apply indexOfMax_range, scores_nonempty; lia).
    assert (Hn : 0 <= indexOfMax ns) by (apply indexOfMax_range, scores_nonempty; lia).
    destruct (Z.leb_spec 0 (indexOfMax ds)); [|lia].
    destruct (Z.leb_spec 0 (indexOfMax ns)); [|lia].
    apply firstOther_differs.
    assert (Hc0 : In 0%nat (seq 0 cols)) by (apply in_seq; lia).
    assert (Hc1 : In 1%nat (seq 0 cols)) by (apply in_seq; lia).
    assert (Hc2 : In 2%nat (seq 0 cols)) by (apply in_seq; lia).
    destruct (Z.eq_dec (indexOfMax ds) 0) as [D0|D0];
      destruct (Z.eq_dec (indexOfMax ns) 0) as [N0|N0];
      destruct (Z.eq_dec (indexOfMax ds) 1) as [D1|D1];
      destruct (Z.eq_dec (indexOfMax ns) 1) as [N1|N1];
      try lia;
      solve [ exists 0%nat; split; [exact Hc0 | lia]
            | exists 1%nat; split; [exact Hc1 | lia]
            | exists 2%nat; split; [exact Hc2 | lia] ].
  - intros more Hlen. subst m. unfold detectFromData.
    assert (Ec : columnCount hdr (rows ++ more) = columnCount hdr rows).
    { unfold columnCount. destruct hdr; [reflexivity|].
      destruct rows as [|r rows]; [simpl in Hlen; lia | reflexivity]. }
    assert (Ef : firstn 10 (rows ++ more) = firstn 10 rows).
    { rewrite firstn_app. replace (10 - List.length rows)%nat with 0%nat by lia.
      now rewrite firstn_O, app_nil_r. }
    now rewrite Ec, Ef.
Qed.

(** X19.  The Apply button parses the rows again.  Each record gets the date
    and the cost the loader gave it; its service differs only where the
    service cell is the number 0, NaN or the boolean [false], which the
    loader prints and the button turns into the empty string.  So after
    a load whose service cells are all of another kind the button leaves
    the state as it is; and pressing it twice is pressing it once. *)
Theorem applyMapping_after_load :
  forall (h : Host) (st : State) (rows0 : list RawRow),
    let st1 := onLoad h st (DecodeOk rows0) in
    (forall m row,
        date (reparseRow m row) = date (parseRow m row)
        /\ cost (reparseRow m row) = cost (parseRow m row)
        /\ service (reparseRow m row) =
           (if keepsText (getCell row (serviceIdx m))
            then service (parseRow m row) else ""))
    /\ ((forall m row, mapping st1 = Some m -> In row (rawRows st1) ->
                       keepsText (getCell row (serviceIdx m)) = true) ->
        applyMapping st1 = st1)
    /\ applyMapping (applyMapping st) = applyMapping st.
Proof.
  intros h st rows0 st1.
  assert (Hrow : forall m row,
             date (reparseRow m row) = date (parseRow m row)
             /\ cost (reparseRow m row) = cost (parseRow m row)
             /\ service (reparseRow m row) =
                (if keepsText (getCell row (serviceIdx m))
                 then service (parseRow m row) else "")).
  { intros m row. unfold reparseRow, parseRow. cbn [date cost service].
    split; [reflexivity|]. split.
    - unfold strOrEmpty.
      destruct (getCell row (costIdx m)) as [| |s|r|b]; reflexivity.
    - unfold strOrEmpty.
      destruct (getCell row (serviceIdx m)) as [| |s|r|[|]]; try reflexivity.
      + cbn [isFalsy isNullish keepsText toStr].
        destruct (String.eqb_spec s ""); [now subst | reflexivity].
      + cbn [isFalsy isNullish keepsText toStr].
        now destruct (String.eqb r "0" || String.eqb r "NaN"). }
  split; [exact Hrow|]. split.
  - subst st1. unfold onLoad. destruct (splitHeader rows0) as [firstRow rows].
    set (g := detectFromData h firstRow rows). cbn [mapping rawRows].
    intros Hkeep. unfold applyMapping. cbn [mapping rawRows headerRow].
    assert (E : map (reparseRow g) rows = map (parseRow g) rows).
    { apply map_ext_in. intros row Hin.
      destruct (Hrow g row) as (Hd & Hc & Hs).
      rewrite (Hkeep g row eq_refl Hin) in Hs.
      destruct (reparseRow g row), (parseRow g row). cbn in *. now subst. }
    now rewrite E.
  - unfold applyMapping. destruct (mapping st) as [m|] eqn:E.
    + cbn [mapping rawRows headerRow]. reflexivity.
    + now rewrite E.
Qed.

End ServiceColumn.

(* ================================================================== *)
(** * From a loaded file to the first chart *)
(* ================================================================== *)

Section FirstChart.
Import JsString JsNumber Dashboard.

Lemma groupTotals_one_key (k : string) (agg : Aggregation) (m : Z)
      (rules : list FilterRule) (rows : list RawRow) :
  groupTotals (fun _ => k) agg m rules rows =
  match accOf (rowValue agg m) (kept rules rows) with
  | Some a => [(k, a)]
  | None => []
  end.
Proof.
  pose proof (groupTotals_lookup (fun _ => k) agg m rules rows k) as L.
  pose proof (groupTotals_keys_NoDup (fun _ => k) agg m rules rows) as Hnd.
  assert (Hk : forall k', In k' (map fst (groupTotals (fun _ => k) agg m rules rows)) ->
                          k' = k).
  { intros k' H. apply groupTotals_keys in H as (row & _ & E). now symmetry. }
  assert (Eg : inGroup (fun _ => k) k (kept rules rows) = kept rules rows).
  { unfold inGroup. apply forallb_filter_id. apply forallb_forall.
    intros x _. apply String.eqb_refl. }
  rewrite Eg in L. clear Eg.
  destruct (groupTotals (fun _ => k) agg m rules rows) as [|[k1 a1] rest].
  - cbn in L. now rewrite <- L.
  - assert (E1 : k1 = k) by (apply Hk; now left). subst k1.
    cbn [mapGet] in L. rewrite String.eqb_refl in L. rewrite <- L.
    destruct rest as [|[k2 a2] rest]; [reflexivity|].
    assert (E2 : k2 = k) by (apply Hk; right; now left). subst k2.
    inversion Hnd as [|? ? Hnot _]; subst. elim Hnot. now left.
Qed.

(** X20.  After a file has loaded nothing is charted until a metric is
    chosen.  Ticking the first metric makes it the primary metric, and
    the pie then has one slice, [All], holding the sum of that column
    over the rows that pass the filter rules, which the load has kept;
    there is no slice when no row passes. *)
Theorem first_metric_after_load :
  forall (st : State) (rows : list RawRow) (i : Z),
    let st1 := onLoad st (DecodeOk rows) in
    let metrics := toggleIdx i true (metricsIdxs st1) in
    let primary := syncPrimaryMetric metrics (primaryMetricIdx st1) in
    pieData (headerRow st1) (rawRows st1) (primaryMetricIdx st1)
            (selectedDims st1) (aggregation st1) (filterRules st1) = []
    /\ primary = Some i
    /\ filterRules st1 = filterRules st
    /\ pieData (headerRow st1) (rawRows st1) primary
               (selectedDims st1) (aggregation st1) (filterRules st1) =
       match kept (filterRules st) (rawRows st1) with
       | [] => []
       | g => [("All", total (map (fun row => parseFloatSafe (getCell row i)) g))]
       end.
Proof.
  intros st rows i st1 metrics primary.
  assert (Ep : primary = Some i) by reflexivity.
  rewrite Ep. subst st1. unfold onLoad.
  cbn [headerRow rawRows primaryMetricIdx selectedDims aggregation filterRules].
  split; [|split; [reflexivity|split; [reflexivity|]]].
  - destruct (if match rows with r0 :: _ => everyString r0 | [] => false end
              then tl rows else rows); reflexivity.
  - set (rows' := if match rows with r0 :: _ => everyString r0 | [] => false end
                  then tl rows else rows).
    rewrite pieData_groupTotals.
    change (fun row => buildGroupKey row []) with (fun _ : RawRow => "All").
    rewrite groupTotals_one_key.
    destruct (kept (filterRules st) rows') as [|r g]; reflexivity.
Qed.

End FirstChart.

(* ================================================================== *)
(** * Time zones and the date formats *)
(* ================================================================== *)

Section TimeZones.
Import JsString JsNumber Dashboard.

Lemma dayBeforeCheck_cycle :
  forallb dayBeforeCheck (list_prod cycleYears monthNumbers) = true.
Proof. vm_compute. reflexivity. Qed.

Lemma civil_day_before (y mo : Z) :
  1 <= mo <= 12 ->
  let '(y', mo', _) := JsDate.civilFromDays (JsDate.daysFromCivil y mo 1 - 1) in
  (y', mo') = monthBefore y mo.
Proof.
  intros Hmo.
  assert (Hy : y = y mod 400 + 400 * (y / 400)) by (pose proof (Z.div_mod y 400); lia).
  set (r := y mod 400) in *. set (q := y / 400) in *.
  assert (Hr : 0 <= r < 400) by (apply Z.mod_pos_bound; lia).
  rewrite Hy. rewrite daysFromCivil_shift.
  replace (JsDate.daysFromCivil r mo 1 + 146097 * q - 1)
    with (JsDate.daysFromCivil r mo 1 - 1 + 146097 * q) by lia.
  rewrite civilFromDays_shift.
  assert (Hc : dayBeforeCheck (r, mo) = true).
  { apply (proj1 (forallb_forall _ _) dayBeforeCheck_cycle). apply in_prod.
    - unfold cycleYears. apply in_map_iff. exists (Z.to_nat r).
      split; [lia|]. apply in_seq. lia.
    - unfold monthNumbers. apply in_map_iff. exists (Z.to_nat mo).
      split; [lia|]. apply in_seq. lia. }
  unfold dayBeforeCheck in Hc.
  destruct (JsDate.civilFromDays (JsDate.daysFromCivil r mo 1 - 1)) as [[y' mo'] d'].
  unfold monthBefore in *. destruct (mo =? 1).
  - apply andb_prop in Hc as [Hy' Hmo']. apply Z.eqb_eq in Hy', Hmo'.
    rewrite Hy', Hmo'. f_equal. lia.
  - apply andb_prop in Hc as [Hy' Hmo']. apply Z.eqb_eq in Hy', Hmo'.
    rewrite Hy', Hmo'. reflexivity.
Qed.

Lemma yearMonth_parses (h : Host) (y mo : Z) :
  1000 <= y <= 9999 -> 1 <= mo <= 12 ->
  trim (yearMonth y mo) = yearMonth y mo
  /\ yearMonth y mo <> ""
  /\ parseDateWithFormat h (yearMonth y mo) auto =
     Some (JsDate.daysFromCivil y mo 1 * JsDate.msPerDay).
Proof.
  intros Hy Hmo.
  destruct (ofZ_four_digits y Hy) as (a & b & c & d & Hs & Ha & Hb & Hc & Hd & Hv).
  pose proof (daysFromCivil_bound y mo Hy Hmo) as Hbound.
  set (D := JsDate.daysFromCivil y mo 1) in *.
  assert (Hfacts : trim (yearMonth y mo) = yearMonth y mo
                   /\ yearMonth y mo <> ""
                   /\ JsDate.parseIsoDateOnly (yearMonth y mo) = Some (y, mo, 1)).
  { unfold yearMonth. rewrite Hs.
    assert (Hcases : mo = 1 \/ mo = 2 \/ mo = 3 \/ mo = 4 \/ mo = 5 \/ mo = 6 \/
                     mo = 7 \/ mo = 8 \/ mo = 9 \/ mo = 10 \/ mo = 11 \/ mo = 12)
      by lia.
    repeat (destruct Hcases as [->|Hcases]); [..|subst mo];
      (split; [|split; [discriminate|]]);
      try (unfold trim; cbn [append padStart0 trimStart];
           rewrite (digit_not_whitespace a Ha); reflexivity);
      (unfold JsDate.parseIsoDateOnly; cbn [append];
       rewrite (take4Digits_digits a b c d _ Ha Hb Hc Hd), Hv; reflexivity). }
  destruct Hfacts as (Htrim & Hne & Hiso).
  split; [exact Htrim|]. split; [exact Hne|].
  cbn [parseDateWithFormat]. unfold JsDate.newDateString. rewrite Hiso. fold D.
  unfold JsDate.TimeClip, JsDate.msPerDay.
  destruct (Z.leb_spec (Z.abs (D * 86400000)) 8640000000000000); [reflexivity | lia].
Qed.




Lemma digitsVal_bound (s : string) :
  allb isDigit s = true -> 0 <= digitsVal s < 10 ^ Z.of_nat (String.length s).
Proof.
  unfold digitsVal.
  assert (H : forall s acc, allb isDigit s = true -> 0 <= acc ->
            acc * 10 ^ Z.of_nat (String.length s)
            <= (fix go (acc : Z) (s : string) : Z :=
                  match s with
                  | EmptyString => acc
                  | String c t => go (10 * acc + digitVal c) t
                  end) acc s
            < (acc + 1) * 10 ^ Z.of_nat (String.length s)).
  { clear s. induction s as [|c s IH]; intros acc Hd Hacc.
    - cbn [String.length Z.of_nat]. lia.
    - cbn [allb] in Hd. apply andb_prop in Hd as [Hc Hs].
      unfold isDigit in Hc. apply andb_prop in Hc as [H1 H2].
      apply Z.leb_le in H1, H2.
      assert (Hdv : 0 <= digitVal c <= 9) by (unfold digitVal; lia).
      specialize (IH (10 * acc + digitVal c) Hs ltac:(lia)).
      cbn [String.length]. rewrite Nat2Z.inj_succ, Z.pow_succ_r by lia.
      set (P := 10 ^ Z.of_nat (String.length s)) in *.
      assert (HP : 0 < P) by (apply Z.pow_pos_nonneg; lia).
      split; [|destruct IH as [_ IH]]; nia. }
  intros Hd. specialize (H s 0 Hd ltac:(lia)). lia.
Qed.

Lemma digitsVal_upto (n : nat) (s a b : string) (lim : Z) :
  takeDigits n s = (a, b) -> 10 ^ Z.of_nat n <= lim ->
  0 <= digitsVal a < lim.
Proof.
  intros E Hlim. destruct (takeDigits_spec n s a b E) as (_ & Hd & Hl).
  pose proof (digitsVal_bound a Hd) as Hb.
  assert (10 ^ Z.of_nat (String.length a) <= 10 ^ Z.of_nat n)
    by (apply Z.pow_le_mono_r; lia).
  lia.
Qed.

Lemma matchYMD_bounds (sep : ascii -> bool) (s y m d : string) :
  matchYMD sep s = Some (y, m, d) ->
  0 <= digitsVal y < 10000 /\ 0 <= digitsVal m < 100 /\ 0 <= digitsVal d < 100.
Proof.
  unfold matchYMD.
  destruct (takeDigits 4 s) as [y0 r1] eqn:E1.
  destruct (negb (String.length y0 =? 4)%nat); [discriminate|].
  destruct (takeChar sep r1) as [r2|]; [|discriminate].
  destruct (takeDigits 2 r2) as [m0 r3] eqn:E2.
  destruct (String.length m0 =? 0)%nat; [discriminate|].
  destruct (takeChar sep r3) as [r4|]; [|discriminate].
  destruct (takeDigits 2 r4) as [d0 r5] eqn:E3.
  destruct (String.length d0 =? 0)%nat; [discriminate|].
  destruct r5; [|discriminate]. intros [= <- <- <-].
  split; [|split].
  - apply (digitsVal_upto 4 s y0 r1); [exact E1 | simpl; lia].
  - apply (digitsVal_upto 2 r2 m0 r3); [exact E2 | simpl; lia].
  - apply (digitsVal_upto 2 r4 d0 ""); [exact E3 | simpl; lia].
Qed.

Lemma matchSlashed_bounds (s a b y : string) :
  matchSlashed s = Some (a, b, y) ->
  0 <= digitsVal a < 100 /\ 0 <= digitsVal b < 100 /\ 0 <= digitsVal y < 10000.
Proof.
  unfold matchSlashed.
  destruct (takeDigits 2 s) as [a0 r1] eqn:E1.
  destruct (String.length a0 =? 0)%nat; [discriminate|].
  destruct (takeChar isSlash r1) as [r2|]; [|discriminate].
  destruct (takeDigits 2 r2) as [b0 r3] eqn:E2.
  destruct (String.length b0 =? 0)%nat; [discriminate|].
  destruct (takeChar isSlash r3) as [r4|]; [|discriminate].
  destruct (takeDigits 4 r4) as [y0 r5] eqn:E3.
  destruct (negb (String.length y0 =? 4)%nat); [discriminate|].
  destruct r5; [|discriminate]. intros [= <- <- <-].
  split; [|split].
  - apply (digitsVal_upto 2 s a0 r1); [exact E1 | simpl; lia].
  - apply (digitsVal_upto 2 r2 b0 r3); [exact E2 | simpl; lia].
  - apply (digitsVal_upto 4 r4 y0 ""); [exact E3 | simpl; lia].
Qed.

Lemma matchDMonY_bounds (s d mon y : string) :
  matchDMonY s = Some (d, mon, y) ->
  0 <= digitsVal d < 100 /\ 0 <= digitsVal y < 10000.
Proof.
  unfold matchDMonY.
  destruct (takeDigits 2 s) as [d0 r1] eqn:E1.
  destruct (String.length d0 =? 0)%nat; [discriminate|].
  destruct (takeChar isHyphen r1) as [r2|]; [|discriminate].
  destruct (takeAlpha 3 r2) as [mon0 r3].
  destruct (negb (String.length mon0 =? 3)%nat); [discriminate|].
  destruct (takeChar isHyphen r3) as [r4|]; [|discriminate].
  destruct (takeDigits 4 r4) as [y0 r5] eqn:E3.
  destruct (negb (String.length y0 =? 4)%nat); [discriminate|].
  destruct r5; [|discriminate]. intros [= <- <- <-].
  split.
  - apply (digitsVal_upto 2 s d0 r1); [exact E1 | simpl; lia].
  - apply (digitsVal_upto 4 r4 y0 ""); [exact E3 | simpl; lia].
Qed.

Lemma lookupMonth_range (name : string) (mon : Z) :
  lookupMonth name months = Some mon -> 0 <= mon <= 11.
Proof.
  unfold months. cbn [lookupMonth].
  repeat match goal with
         | |- context [String.eqb ?k name] => destruct (String.eqb k name)
         end;
    intros [= <-] || discriminate; lia.
Qed.

Lemma daysFromCivil_wide (y m : Z) :
  -1 <= y <= 10100 -> 1 <= m <= 12 ->
  Z.abs (JsDate.daysFromCivil y m 1) <= 4000000.
Proof.
  intros Hy Hm. unfold JsDate.daysFromCivil.
  destruct (m <=? 2); destruct (2 <? m);
    Z.to_euclidean_division_equations; lia.
Qed.

(** A date built from fields in the range of the fixed formats exists,
    and its local calendar date is the same on every host. *)
Lemma newDateYMD_local (h : Host) (Y M D : Z) :
  0 <= Y < 10000 -> -1 <= M < 100 -> 0 <= D < 100 ->
  Z.abs (tzOffset h) <= 1440 ->
  exists t, JsDate.newDateYMD h Y M D = Some t
            /\ JsDate.localCivil h t =
               JsDate.civilFromDays
                 (JsDate.MakeDay
                    (if (0 <=? Y) && (Y <=? 99) then 1900 + Y else Y) M D).
Proof.
  intros HY HM HD Htz. unfold JsDate.newDateYMD.
  set (yr := if (0 <=? Y) && (Y <=? 99) then 1900 + Y else Y).
  assert (Hyr : 0 <= yr < 10000).
  { unfold yr. destruct ((0 <=? Y) && (Y <=? 99)) eqn:E; [|lia].
    apply andb_prop in E as [_ E]. apply Z.leb_le in E. lia. }
  set (days := JsDate.MakeDay yr M D).
  assert (Hdays : Z.abs days <= 4000100).
  { unfold days, JsDate.MakeDay.
    assert (Hq : -1 <= M / 12 <= 8) by (Z.to_euclidean_division_equations; lia).
    assert (Hr : 0 <= M mod 12 < 12) by (apply Z.mod_pos_bound; lia).
    pose proof (daysFromCivil_wide (yr + M / 12) (M mod 12 + 1)
                  ltac:(lia) ltac:(lia)).
    lia. }
  unfold JsDate.TimeClip, JsDate.UTC, JsDate.msPerDay, JsDate.msPerMinute.
  destruct (Z.leb_spec (Z.abs (days * 86400000 - tzOffset h * 60000))
                       8640000000000000); [|lia].
  eexists. split; [reflexivity|].
  unfold JsDate.localCivil, JsDate.LocalTime, JsDate.msPerDay, JsDate.msPerMinute.
  f_equal. replace (days * 86400000 - tzOffset h * 60000 + tzOffset h * 60000)
    with (days * 86400000) by lia.
  apply Z.div_mul. lia.
Qed.

Lemma bucket_of_fields (h1 h2 : Host) (Y M D : Z) :
  0 <= Y < 10000 -> -1 <= M < 100 -> 0 <= D < 100 ->
  Z.abs (tzOffset h1) <= 1440 -> Z.abs (tzOffset h2) <= 1440 ->
  match JsDate.newDateYMD h1 Y M D with
  | None => None
  | Some t => Some (JsDate.getFullYear h1 t, JsDate.getMonth h1 t, JsDate.getDate h1 t)
  end =
  match JsDate.newDateYMD h2 Y M D with
  | None => None
  | Some t => Some (JsDate.getFullYear h2 t, JsDate.getMonth h2 t, JsDate.getDate h2 t)
  end.
Proof.
  intros HY HM HD H1 H2.
  destruct (newDateYMD_local h1 Y M D HY HM HD H1) as (t1 & E1 & L1).
  destruct (newDateYMD_local h2 Y M D HY HM HD H2) as (t2 & E2 & L2).
  rewrite E1, E2. unfold JsDate.getFullYear, JsDate.getMonth, JsDate.getDate.
  now rewrite L1, L2.
Qed.

Lemma parse_fixed_format (h1 h2 : Host) (s : string) (fmt : DateFormat) :
  fmt <> auto ->
  Z.abs (tzOffset h1) <= 1440 -> Z.abs (tzOffset h2) <= 1440 ->
  match parseDateWithFormat h1 s fmt with
  | None => None
  | Some t => Some (JsDate.getFullYear h1 t, JsDate.getMonth h1 t, JsDate.getDate h1 t)
  end =
  match parseDateWithFormat h2 s fmt with
  | None => None
  | Some t => Some (JsDate.getFullYear h2 t, JsDate.getMonth h2 t, JsDate.getDate h2 t)
  end.
Proof.
  intros Hfmt H1 H2. destruct fmt; [congruence| | | | |]; cbn [parseDateWithFormat].
  - destruct (matchYMD isHyphen s) as [[[y m] d]|] eqn:E; [|reflexivity].
    destruct (matchYMD_bounds _ _ _ _ _ E) as (Hy & Hm & Hd).
    apply bucket_of_fields; trivial; lia.
  - destruct (matchSlashed s) as [[[a b] y]|] eqn:E; [|reflexivity].
    destruct (matchSlashed_bounds _ _ _ _ E) as (Ha & Hb & Hy).
    apply bucket_of_fields; trivial; lia.
  - destruct (matchSlashed s) as [[[a b] y]|] eqn:E; [|reflexivity].
    destruct (matchSlashed_bounds _ _ _ _ E) as (Ha & Hb & Hy).
    apply bucket_of_fields; trivial; lia.
  - destruct (matchYMD isSlash s) as [[[y m] d]|] eqn:E; [|reflexivity].
    destruct (matchYMD_bounds _ _ _ _ _ E) as (Hy & Hm & Hd).
    apply bucket_of_fields; trivial; lia.
  - destruct (matchDMonY s) as [[[d name] y]|] eqn:E; [|reflexivity].
    destruct (matchDMonY_bounds _ _ _ _ E) as (Hd & Hy).
    destruct (lookupMonth name months) as [mon|] eqn:Em; [|reflexivity].
    pose proof (lookupMonth_range _ _ Em).
    apply bucket_of_fields; trivial; lia.
Qed.



End TimeZones.

(* ================================================================== *)
(** * The exported text *)
(* ================================================================== *)

Section ExportedText.
Import JsString CsvExport.

Lemma splitOn_plain (sep : ascii) (s : string) :
  hasChar sep s = false -> splitOn sep s = [s].
Proof.
  induction s as [|c s IH]; [reflexivity|]. cbn [hasChar splitOn].
  intros H. apply orb_false_iff in H as [Hc Hs]. rewrite Hc, (IH Hs). reflexivity.
Qed.

Lemma splitOn_app (sep : ascii) (s t : string) :
  hasChar sep s = false ->
  splitOn sep (s ++ String sep t) = s :: splitOn sep t.
Proof.
  induction s as [|c s IH]; intros H.
  - cbn [append splitOn]. now rewrite Ascii.eqb_refl.
  - cbn [hasChar] in H. apply orb_false_iff in H as [Hc Hs].
    cbn [append splitOn]. rewrite Hc, (IH Hs). reflexivity.
Qed.

Lemma splitOn_join (sep : ascii) (parts : list string) :
  parts <> [] -> Forall (fun p => hasChar sep p = false) parts ->
  splitOn sep (join (String sep "") parts) = parts.
Proof.
  induction parts as [|p parts IH]; [congruence|]. intros _ Hall.
  inversion Hall as [|? ? Hp Hrest]; subst.
  destruct parts as [|q parts].
  - cbn [join]. now apply splitOn_plain.
  - change (join (String sep "") (p :: q :: parts))
      with (p ++ String sep (join (String sep "") (q :: parts))).
    rewrite (splitOn_app sep p _ Hp). f_equal. apply IH; [discriminate | exact Hrest].
Qed.

Lemma hasChar_app (c : ascii) (s t : string) :
  hasChar c (s ++ t) = hasChar c s || hasChar c t.
Proof.
  induction s as [|x s IH]; [reflexivity|]. cbn [append hasChar].
  now rewrite IH, orb_assoc.
Qed.

Lemma hasChar_join (c sep : ascii) (parts : list string) :
  Ascii.eqb sep c = false ->
  Forall (fun p => hasChar c p = false) parts ->
  hasChar c (join (String sep "") parts) = false.
Proof.
  intros Hsep. induction 1 as [|p parts Hp Hrest IH]; [reflexivity|].
  destruct parts as [|q parts]; [exact Hp|].
  change (join (String sep "") (p :: q :: parts))
    with (p ++ String sep (join (String sep "") (q :: parts))).
  rewrite hasChar_app. cbn [hasChar]. now rewrite Hp, Hsep, IH.
Qed.

Lemma plainField_spec (s : string) :
  plainField s = true ->
  hasChar ","%char s = false /\ hasChar (ascii_of_N 10) s = false.
Proof.
  unfold plainField. intros H. apply andb_prop in H as [H1 H2].
  now apply negb_true_iff in H1, H2.
Qed.

(** X24.  Without rows nothing is exported.  Otherwise, as long as no
    property name of the first row and no value holds a comma or a line
    feed (and no name is one that every object inherits), splitting the
    text at line feeds and each line at commas gives back the names
    followed by the values of every row, a missing or null value
    reading as the empty string.  (Nothing is quoted, so a comma inside
    a value does add a column.) *)
Theorem csvText_splits_back :
  forall (first : Row) (rest : list Row),
    let rows := first :: rest in
    let names := JsObject.keys first in
    names <> [] ->
    forallb (fun k => negb (JsObject.inPrototype k)) names = true ->
    forallb plainField names = true ->
    forallb (fun r => forallb (fun k => plainField (fieldText r k)) names) rows = true ->
    csvText [] = None
    /\ exists text,
         csvText rows = Some text
         /\ map (splitOn ","%char) (splitOn (ascii_of_N 10) text) =
            names :: map (fun r => map (fieldText r) names) rows.
Proof.
  intros first rest rows names Hne _ Hnames Hrows. split; [reflexivity|].
  eexists. split; [reflexivity|]. fold names. fold rows.
  set (lines := join comma names
                :: map (fun r => join comma (map (fieldText r) names)) rows).
  assert (Hl : Forall (fun p => hasChar (ascii_of_N 10) p = false) lines).
  { constructor.
    - apply hasChar_join; [reflexivity|]. apply Forall_forall. intros k Hk.
      apply (proj1 (forallb_forall _ _) Hnames) in Hk.
      now apply plainField_spec in Hk.
    - apply Forall_forall. intros l Hin. apply in_map_iff in Hin as (r & <- & Hr).
      apply hasChar_join; [reflexivity|]. apply Forall_forall. intros v Hv.
      apply in_map_iff in Hv as (k & <- & Hk).
      apply (proj1 (forallb_forall _ _) Hrows) in Hr.
      apply (proj1 (forallb_forall _ _) Hr) in Hk.
      now apply plainField_spec in Hk. }
  unfold newline. rewrite (splitOn_join _ lines ltac:(discriminate) Hl).
  unfold lines. cbn [map]. f_equal.
  - apply splitOn_join; [exact Hne|]. apply Forall_forall. intros k Hk.
    apply (proj1 (forallb_forall _ _) Hnames) in Hk.
    now apply plainField_spec in Hk.
  - rewrite map_map. apply map_ext_in. intros r Hr.
    apply splitOn_join.
    + destruct names; [congruence | discriminate].
    + apply Forall_forall. intros v Hv. apply in_map_iff in Hv as (k & <- & Hk).
      apply (proj1 (forallb_forall _ _) Hrows) in Hr.
      apply (proj1 (forallb_forall _ _) Hr) in Hk.
      now apply plainField_spec in Hk.
Qed.

Lemma csvText_splits_back_witness :
  exists text,
    csvText [[("group", CStr "VM"); ("value", CNum "15")];
             [("group", CStr "Storage"); ("value", CNull)]] = Some text
    /\ map (splitOn ","%char) (splitOn (ascii_of_N 10) text) =
       [["group"; "value"]; ["VM"; "15"]; ["Storage"; ""]].
Proof.
  apply (proj2 (csvText_splits_back
                  [("group", CStr "VM"); ("value", CNum "15")]
                  [[("group", CStr "Storage"); ("value", CNull)]]
                  ltac:(discriminate) eq_refl eq_refl eq_refl)).
Defined.

End ExportedText.

(* ================================================================== *)
(** * The series of the line chart *)
(* ================================================================== *)

Section LineSeries.
Import JsString JsNumber Dashboard.

Lemma byAggDescending_asym (a b : string * jsnum) :
  byAggDescending a b = Lt -> byAggDescending b a <> Lt.
Proof.
  unfold byAggDescending. destruct a as [ka [x| | |]], b as [kb [y| | |]];
    cbn [snd neg add]; try discriminate.
  rewrite !Qc_sign_flip. intros H1 H2.
  exact (Qclt_not_eq _ _ (Qclt_trans _ _ _ H1 H2) eq_refl).
Qed.

Lemma inOrder_byAgg (a b : string * jsnum) :
  isFinite (snd a) -> isFinite (snd b) ->
  (inOrder byAggDescending a b <-> le (snd b) (snd a)).
Proof.
  unfold inOrder, byAggDescending.
  destruct a as [ka [x| | |]], b as [kb [y| | |]]; cbn [snd isFinite]; try tauto.
  intros _ _. cbn [neg add le].
  rewrite Qc_sign_flip. split.
  - apply Qcnot_lt_le.
  - apply Qcle_not_lt.
Qed.

Lemma StronglySorted_app_inv {A : Type} (R : A -> A -> Prop) (l1 l2 : list A) :
  StronglySorted R (l1 ++ l2) ->
  forall x y, In x l1 -> In y l2 -> R x y.
Proof.
  induction l1 as [|a l1 IH]; intros Hs x y Hx Hy; [contradiction|].
  cbn [app] in Hs. apply StronglySorted_inv in Hs as [Hs Ha].
  destruct Hx as [->|Hx].
  - rewrite Forall_forall in Ha. apply Ha. apply in_or_app. now right.
  - now apply IH.
Qed.

Lemma NoDup_app_disjoint {A : Type} (l1 l2 : list A) :
  NoDup (l1 ++ l2) -> forall a, In a l1 -> ~ In a l2.
Proof.
  induction l1 as [|x l1 IH]; intros Hnd a Ha; [contradiction|].
  cbn [app] in Hnd. inversion Hnd as [|? ? Hx Hrest]; subst.
  destruct Ha as [->|Ha].
  - intros H. apply Hx. apply in_or_app. now right.
  - now apply IH.
Qed.

Lemma groupTotals_finite (keyOf : RawRow -> string) (agg : Aggregation)
      (m : Z) (rules : list FilterRule) (rows : list RawRow) :
  Forall (fun row => isFinite (parseFloatSafe (getCell row m))) rows ->
  Forall (fun e => isFinite (accSum (snd e)))
         (groupTotals keyOf agg m rules rows).
Proof.
  induction rows as [|r rows IH] using rev_ind; intros Hrows; [constructor|].
  apply Forall_app in Hrows as [Hrows Hr]. inversion Hr as [|? ? Hv _]; subst.
  rewrite groupTotals_snoc. destruct (matchesRow r rules); [|now apply IH].
  specialize (IH Hrows). unfold accumulate.
  apply (Forall_mapSet (fun e => isFinite (accSum (snd e)))); [exact IH|].
  cbn [snd accSum].
  assert (Hval : isFinite (rowValue agg m r)).
  { destruct agg; cbn [rowValue]; try exact Hv. exact I. }
  destruct (mapGet (keyOf r) _) as [a|] eqn:E.
  - destruct (mapGet_Forall _ _ _ _ IH E) as [k' Ha]. cbn [snd] in Ha.
    destruct (accSum a), (rowValue agg m r); try contradiction. exact I.
  - cbn [accSum]. destruct (rowValue agg m r); try contradiction. exact I.
Qed.

Lemma reduce_finite (agg : Aggregation) (a : Acc) :
  isFinite (accSum a) -> isFinite (reduce agg a).
Proof.
  intros H. destruct agg; cbn [reduce]; [exact H | | exact I].
  destruct (accCount a =? 0); [exact I|].
  destruct (accSum a); try contradiction. exact I.
Qed.

Lemma sliceEnd_whole (len : nat) (n : Z) :
  0 <= n -> sliceEnd len (ofInt n) = Nat.min (Z.to_nat n) len.
Proof.
  intros Hn. unfold sliceEnd, ofInt.
  assert (Hq : Q2Qc (inject_Z n) == inject_Z n) by apply Qred_correct.
  assert (Hle : Qle_bool 0 (Q2Qc (inject_Z n)) = true).
  { apply Qle_bool_iff. rewrite Hq. unfold Qle. simpl. lia. }
  rewrite Hle, (Qfloor_comp _ _ Hq), Qfloor_Z.
  destruct (Z.ltb_spec n 0); [lia | reflexivity].
Qed.

(** X25.  The series of the line chart for dimensions are groups of the pie,
    each once, and no more of them than Top N asks for.  When every
    metric cell of the sheet is a finite number they are the largest:
    no group that is left out has a larger value than a group that is
    shown. *)
Theorem rankedGroups_largest :
  forall (hdr : Header) (rows : list RawRow) (m : Z) (dims : list Z)
         (agg : Aggregation) (topN : jsnum) (rules : list FilterRule),
    let pie := pieData (Some hdr) rows (Some m) dims agg rules in
    let shown := rankedGroups rows m dims agg topN rules in
    NoDup shown
    /\ (forall g, In g shown -> In g (map fst pie))
    /\ (forall n, 0 <= n -> topN = ofInt n ->
                  List.length shown = Nat.min (Z.to_nat n) (List.length pie))
    /\ (Forall (fun row => isFinite (parseFloatSafe (getCell row m))) rows ->
        forall g v g' v',
          In (g, v) pie -> In (g', v') pie ->
          In g shown -> ~ In g' shown -> le v' v).
Proof.
  intros hdr rows m dims agg topN rules pie shown.
  assert (Epie : pie = map (fun e => (fst e, reduce agg (snd e)))
                           (groupTotals (fun row => buildGroupKey row dims)
                                        agg m rules rows))
    by apply pieData_groupTotals.
  set (ranked := sortBy byAggDescending pie).
  assert (Eshown : shown = map fst (firstn (sliceEnd (List.length ranked) topN) ranked)).
  { unfold shown, rankedGroups, ranked. cbv zeta. now rewrite Epie. }
  assert (Hperm : Permutation ranked pie) by apply sortBy_perm.
  assert (Hnd : NoDup (map fst ranked)).
  { eapply Permutation_NoDup;
      [apply Permutation_map, Permutation_sym, Hperm|].
    rewrite Epie, map_map. cbn [fst]. apply groupTotals_keys_NoDup. }
  set (k := sliceEnd (List.length ranked) topN) in *.
  assert (Hsplit : ranked = (firstn k ranked ++ skipn k ranked)%list)
    by (symmetry; apply firstn_skipn).
  assert (Hnd2 : NoDup (map fst (firstn k ranked) ++ map fst (skipn k ranked))).
  { rewrite <- map_app, <- Hsplit. exact Hnd. }
  rewrite Eshown. split; [|split; [|split]].
  - exact (NoDup_app_remove_r _ _ Hnd2).
  - intros g Hg. apply in_map_iff in Hg as (e & <- & He).
    apply in_map. eapply Permutation_in; [exact Hperm|].
    rewrite Hsplit. apply in_or_app. now left.
  - intros n Hn ->. rewrite length_map, length_firstn. unfold k.
    rewrite (sliceEnd_whole _ n Hn), (Permutation_length Hperm). lia.
  - intros Hfin g v g' v' Hgv Hgv' Hg Hg'.
    assert (Hf : Forall (fun e => isFinite (snd e)) ranked).
    { apply (Permutation_Forall (Permutation_sym Hperm)).
      rewrite Epie. apply Forall_forall. intros e He.
      apply in_map_iff in He as (x & <- & Hx). cbn [snd].
      apply reduce_finite.
      exact (proj1 (Forall_forall _ _)
                   (groupTotals_finite _ agg m rules rows Hfin) x Hx). }
    assert (Hs : StronglySorted (inOrder byAggDescending) ranked).
    { apply (Sorted_strong (fun e => isFinite (snd e))); [|exact Hf|].
      - intros x y z Px Py Pz. rewrite !inOrder_byAgg by assumption.
        destruct (snd x), (snd y), (snd z); try contradiction. cbn [le].
        intros Hyx Hzy. exact (Qcle_trans _ _ _ Hzy Hyx).
      - apply sortBy_sorted. exact byAggDescending_asym. }
    assert (Hin : In (g, v) ranked)
      by (eapply Permutation_in; [apply Permutation_sym, Hperm | exact Hgv]).
    assert (Hin' : In (g', v') ranked)
      by (eapply Permutation_in; [apply Permutation_sym, Hperm | exact Hgv']).
    assert (H1 : In (g, v) (firstn k ranked)).
    { rewrite Hsplit in Hin. apply in_app_or in Hin as [Hin|Hin]; [exact Hin|].
      exfalso. apply (NoDup_app_disjoint _ _ Hnd2 g Hg).
      apply in_map_iff. now exists (g, v). }
    assert (H2 : In (g', v') (skipn k ranked)).
    { rewrite Hsplit in Hin'. apply in_app_or in Hin' as [Hin'|Hin']; [|exact Hin'].
      exfalso. apply Hg'. apply in_map_iff. now exists (g', v'). }
    rewrite Hsplit in Hs.
    pose proof (StronglySorted_app_inv _ _ _ Hs _ _ H1 H2) as Hord.
    rewrite Forall_forall in Hf.
    apply (inOrder_byAgg (g, v) (g', v')) in Hord; [exact Hord| |].
    + exact (Hf _ Hin).
    + exact (Hf _ Hin').
Qed.

End LineSeries.

(* ================================================================== *)
(** * The records of the header-aware loader *)
(* ================================================================== *)

Section HeaderRecords.
Import JsString JsNumber JsObject HeaderAware.

Lemma getOwn_objSet_same (k : string) (v : field) (o : CostData) :
  getOwn k (objSet k v o) = Some v.
Proof.
  induction o as [|[k' v'] o IH]; simpl.
  - now rewrite String.eqb_refl.
  - destruct (String.eqb k' k) eqn:E; simpl.
    + now rewrite String.eqb_refl.
    + now rewrite E.
Qed.

Lemma getOwn_objSet_other (k k0 : string) (v : field) (o : CostData) :
  k0 <> k -> getOwn k (objSet k0 v o) = getOwn k o.
Proof.
  intros Hne. induction o as [|[k' v'] o IH]; simpl.
  - destruct (String.eqb_spec k0 k); [contradiction | reflexivity].
  - destruct (String.eqb_spec k' k0) as [->|Hne']; simpl.
    + destruct (String.eqb_spec k0 k); [contradiction | reflexivity].
    + now rewrite IH.
Qed.

Lemma getOwn_attachExtras (chosen : list string) (r : RawRow) (k : string)
      (names : Header) (idx : Z) (base : CostData) :
  inList k chosen = false ->
  getOwn k (attachExtras chosen r idx names base) = getOwn k base.
Proof.
  intros Hk. revert idx base.
  induction names as [|n names IH]; intros idx base; [reflexivity|].
  cbn [attachExtras]. rewrite IH. destruct n as [hname|]; [|reflexivity].
  destruct (String.eqb hname ""); [reflexivity|].
  destruct (inList hname chosen) eqn:E; [|reflexivity].
  apply getOwn_objSet_other. intros ->. congruence.
Qed.

Lemma indexOfName_at (x : string) (names : Header) :
  0 <= indexOfName x names -> headerAt names (indexOfName x names) = Some x.
Proof.
  induction names as [|n names IH]; cbn [indexOfName]; [lia|].
  destruct (match n with Some s => String.eqb s x | None => false end) eqn:E.
  - intros _. destruct n as [s|]; [|discriminate].
    apply String.eqb_eq in E. now subst.
  - destruct (Z.ltb_spec (indexOfName x names) 0) as [Hneg|Hpos]; [lia|].
    intros _. rewrite headerAt_cons by exact Hpos. now apply IH.
Qed.

Lemma headerAt_lower (hdr : Header) (i : Z) :
  headerAt (headerLower hdr) i = option_map toLowerCase (headerAt hdr i).
Proof.
  unfold headerAt, headerLower. destruct (i <? 0); [reflexivity|].
  change (@None string) with (option_map toLowerCase None) at 1.
  apply map_nth.
Qed.

Lemma chosenExtras_names (hdr : Header) (k : string) :
  inList k (chosenExtras hdr) = true ->
  toLowerCase k = "subscriptionname" \/ toLowerCase k = "metercategory".
Proof.
  assert (Hat : forall x n,
             0 <= indexOfName x (headerLower hdr) ->
             headerAt hdr (indexOfName x (headerLower hdr)) = Some n ->
             toLowerCase n = x).
  { intros x n Hi Hn. pose proof (indexOfName_at x (headerLower hdr) Hi) as H.
    rewrite headerAt_lower, Hn in H. cbn in H. now injection H. }
  unfold chosenExtras. cbv zeta.
  set (subIdx := indexOfName "subscriptionname" (headerLower hdr)) in *.
  set (meterIdx := indexOfName "metercategory" (headerLower hdr)) in *.
  assert (He1 : forall e1,
             e1 = (if 0 <=? subIdx
                   then match headerAt hdr subIdx with Some n => [n] | None => [] end
                   else []) ->
             inList k e1 = true -> toLowerCase k = "subscriptionname").
  { intros e1 ->. destruct (Z.leb_spec 0 subIdx) as [Hs|_]; [|discriminate].
    destruct (headerAt hdr subIdx) as [n|] eqn:En; [|discriminate].
    unfold inList. cbn [existsb]. rewrite orb_false_r. intros E.
    apply String.eqb_eq in E. subst n. exact (Hat _ _ Hs En). }
  set (e1 := if 0 <=? subIdx
             then match headerAt hdr subIdx with Some n => [n] | None => [] end
             else []) in *.
  specialize (He1 e1 eq_refl).
  destruct (Z.leb_spec 0 meterIdx) as [Hm|_]; [|intros H; left; now apply He1].
  destruct (headerAt hdr meterIdx) as [n|] eqn:En; [|intros H; left; now apply He1].
  destruct (inList n e1); [intros H; left; now apply He1|].
  unfold inList. rewrite existsb_app. cbn [existsb]. rewrite orb_false_r.
  intros H. apply orb_prop in H as [H|H]; [left; now apply He1|].
  right. apply String.eqb_eq in H. subst n. exact (Hat _ _ Hm En).
Qed.

Lemma base_field_not_chosen (hdr : Header) (k : string) :
  toLowerCase k <> "subscriptionname" -> toLowerCase k <> "metercategory" ->
  inList k (chosenExtras hdr) = false.
Proof.
  intros H1 H2. destruct (inList k (chosenExtras hdr)) eqn:E; [|reflexivity].
  destruct (chosenExtras_names hdr k E); contradiction.
Qed.

(** X26.  A record of the header-aware loader always carries the date, the
    cost and the service that the mapping in use gives: the extra
    columns attached to it never take their place.  When the header has
    a column reading "subscriptionname" in any letter case, the record
    has a [subscriptionName] holding that cell as text; the same holds
    for "metercategory" and [meterCategory]. *)
Theorem header_records_keep_base_fields :
  forall (hdr : Header) (m : Classic.Mapping) (r : RawRow),
    let record := parseRowWithHeader hdr m r in
    let p := Classic.parseRow m r in
    getOwn "date" record = Some (FStr (Classic.date p))
    /\ getOwn "cost" record = Some (FNum (Classic.cost p))
    /\ getOwn "service" record = Some (FStr (Classic.service p))
    /\ (forall i, firstNamed hdr "subscriptionname" i ->
                  getOwn "subscriptionName" record =
                  Some (FStr (strOrEmpty (getCell r i))))
    /\ (forall i, firstNamed hdr "metercategory" i ->
                  getOwn "meterCategory" record =
                  Some (FStr (strOrEmpty (getCell r i)))).
Proof.
  intros hdr m r record p.
  assert (Hbase : forall k,
             toLowerCase k <> "subscriptionname" -> toLowerCase k <> "metercategory" ->
             k <> "subscriptionName" -> k <> "meterCategory" ->
             getOwn k record =
             getOwn k [("date", FStr (Classic.date p)); ("cost", FNum (Classic.cost p));
                       ("service", FStr (Classic.service p))]).
  { intros k H1 H2 H3 H4. unfold record, parseRowWithHeader. cbv zeta. fold p.
    destruct (0 <=? indexOfName "metercategory" (headerLower hdr));
      [rewrite getOwn_objSet_other by congruence|];
      (destruct (0 <=? indexOfName "subscriptionname" (headerLower hdr));
       [rewrite getOwn_objSet_other by congruence|]);
      apply getOwn_attachExtras; now apply base_field_not_chosen. }
  split; [|split; [|split; [|split]]].
  - rewrite Hbase; [reflexivity | | | |]; discriminate.
  - rewrite Hbase; [reflexivity | | | |]; discriminate.
  - rewrite Hbase; [reflexivity | | | |]; discriminate.
  - intros i [Hat Hfirst].
    assert (Hi : 0 <= i).
    { unfold headerAt in Hat. destruct (Z.ltb_spec i 0); [discriminate | lia]. }
    unfold record, parseRowWithHeader. cbv zeta.
    rewrite (indexOfName_found _ _ i Hat Hfirst).
    destruct (Z.leb_spec 0 i); [|lia].
    destruct (0 <=? indexOfName "metercategory" (headerLower hdr));
      [rewrite getOwn_objSet_other by discriminate|];
      apply getOwn_objSet_same.
  - intros i [Hat Hfirst].
    assert (Hi : 0 <= i).
    { unfold headerAt in Hat. destruct (Z.ltb_spec i 0); [discriminate | lia]. }
    unfold record, parseRowWithHeader. cbv zeta.
    rewrite (indexOfName_found _ _ i Hat Hfirst).
    destruct (Z.leb_spec 0 i); [|lia].
    apply getOwn_objSet_same.
Qed.

End HeaderRecords.
